(** * pycisTopic: pseudobulk export and peak calling

    A shallow embedding of [pycisTopic/pseudobulkPeakCalling.py]:
    [exportPseudoBulk], [exportPseudoBulk_ray], [peakCalling],
    [MACS_callPeak_ray] and the class [MACS_callPeak].

    The module is glue code around pyranges, pandas, ray, the file system and
    the MACS2 binary.  The glue is modelled as written; what lies outside the
    module (file contents, the result of a subprocess, whether a write
    succeeds) is a parameter of the model, the record [Externals].  A Python
    function becomes a computation that threads the state of the outside
    world, records every call it makes to the outside in a trace, and ends
    either with a value or with a Python exception. *)

From stdpp Require Import base list strings sorting pretty.
From Stdlib Require Import ZArith Ascii.

#[local] Open Scope Z_scope.

(** ** Python strings *)

Module PyStr.

(** [c in chars], for a character and the characters of a [str]. *)
Definition mem (c : ascii) (chars : string) : bool :=
  bool_decide (c ∈ String.list_ascii_of_string chars).

(** [s.rstrip(chars)]: drop the longest suffix whose characters all occur in
    [chars]. *)
Fixpoint rstrip (chars : string) (s : string) : string :=
  match s with
  | EmptyString => EmptyString
  | String c rest =>
      match rstrip chars rest with
      | EmptyString => if mem c chars then EmptyString else String c EmptyString
      | kept => String c kept
      end
  end.

(** [s.find(c)] for a one-character [c]: the first index where it occurs,
    [-1] when it does not. *)
Fixpoint find_from (c : ascii) (s : string) (i : Z) : Z :=
  match s with
  | EmptyString => -1
  | String a rest => if decide (a = c) then i else find_from c rest (i + 1)
  end.

Definition find (s : string) (c : ascii) : Z := find_from c s 0.

(** [s.split(c)] for a one-character separator. *)
Fixpoint split (c : ascii) (s : string) : list string :=
  match s with
  | EmptyString => [EmptyString]
  | String a rest =>
      if decide (a = c) then EmptyString :: split c rest
      else match split c rest with
           | [] => [String a EmptyString]
           | w :: ws => String a w :: ws
           end
  end.

(** [l[-1]] on the result of a split, which is never empty. *)
Definition last_field (c : ascii) (s : string) : string :=
  List.last (split c s) EmptyString.

(** The last character of a string, if any. *)
Fixpoint last_char (s : string) : option ascii :=
  match s with
  | EmptyString => None
  | String c EmptyString => Some c
  | String _ rest => last_char rest
  end.

(** What [rstrip] is required to compute: [p] is [s] without a suffix [t]
    made of characters of [chars], and [p] does not end in such a
    character. *)
Definition is_rstrip (chars s p : string) : Prop :=
  ∃ t, s = p +:+ t
     ∧ (∀ c, c ∈ String.list_ascii_of_string t → c ∈ String.list_ascii_of_string chars)
     ∧ (∀ c, last_char p = Some c → c ∉ String.list_ascii_of_string chars).

End PyStr.

(** ** Python values, containers and exceptions *)

(** A value handed to [%s] or [str()]: the MACS2 options are typed
    [Optional[str]], [Optional[int]] and [Optional[float]].  A float is kept
    as the text [str()] gives for it. *)
Inductive pyval :=
  | PyNone
  | PyStr (s : string)
  | PyInt (z : Z)
  | PyFloat (repr : string).

Definition py_str (v : pyval) : string :=
  match v with
  | PyNone => "None"
  | PyStr s => s
  | PyInt z => pretty z
  | PyFloat repr => repr
  end.

(** A [dict] with [str] keys: the items in insertion order, no key twice. *)
Definition dict (V : Type) := list (string * V).

Module Dict.
Section ops.
Context {V : Type}.

Definition keys (d : dict V) : list string := d.*1.
Definition values (d : dict V) : list V := d.*2.

Fixpoint get (d : dict V) (k : string) : option V :=
  match d with
  | [] => None
  | (k', v) :: rest => if decide (k' = k) then Some v else get rest k
  end.

(** [d[k] = v]: overwrite in place, or append a new item. *)
Fixpoint set (d : dict V) (k : string) (v : V) : dict V :=
  match d with
  | [] => [(k, v)]
  | (k', v') :: rest =>
      if decide (k' = k) then (k, v) :: rest else (k', v') :: set rest k v
  end.

(** [{k: v for (k, v) in items}]. *)
Definition of_items (items : list (string * V)) : dict V :=
  foldl (λ d kv, set d kv.1 kv.2) [] items.

Definition wf (d : dict V) : Prop := NoDup (keys d).
End ops.
End Dict.

(** The exceptions of the calls to the outside: errors of the operating
    system and of the file readers, and any other exception a library raises,
    by the name of its class (the [ZeroDivisionError] of [to_bigwig] on a
    table without rows, for one). *)
Inductive io_error :=
  | FileNotFoundError
  | PermissionError
  | FileExistsError
  | EmptyDataError
  | ParserError
  | OtherError (class_name : string).

(** The exceptions that reach the callers of this module. *)
Inductive exn :=
  | NameError (name : string)
  | UnboundLocalError (name : string)
  | KeyError (key : string)
  | IndexError
  (** A [KeyError] or an [IndexError], where the version of pandas decides
      which of the two it is; both are a [LookupError]. *)
  | LookupError (key : string)
  | TypeError (msg : string)
  | ValueError (msg : string)
  | AttributeError (attr : string)
  | CalledProcessError (returncode : Z) (cmd : string) (output : string)
  (** [RuntimeError("command '{}' return with error (code {}): {}".format(cmd,
      returncode, output))], kept as the three values it is formatted from. *)
  | RuntimeError (cmd : string) (returncode : Z) (output : string)
  | IOError (e : io_error)
  (** A Python behaviour that this model does not describe. *)
  | NotModelled (what : string).

Inductive result (A : Type) :=
  | Raise (e : exn)
  | Return (a : A).
Arguments Raise {A} e.
Arguments Return {A} a.

(** ** printf-style formatting: [fmt % args]

    The conversions [%s] and [%%] are modelled; that is all the module's own
    format string uses.  A [%] followed by a character that cannot start a
    conversion is a [ValueError]; the other conversions, flags, widths and
    mapping keys are left out of the model ([NotModelled]). *)
Definition conversion_chars : string := "#0- +123456789*.hlL(diouxXeEfFgGcrsa%".

Fixpoint py_format (fmt : string) (args : list pyval) : result string :=
  match fmt with
  | EmptyString =>
      match args with
      | [] => Return EmptyString
      | _ :: _ => Raise (TypeError "not all arguments converted during string formatting")
      end
  | String c rest =>
      if decide (c = "%"%char) then
        match rest with
        | EmptyString => Raise (ValueError "incomplete format")
        | String conv rest' =>
            if decide (conv = "%"%char) then
              match py_format rest' args with
              | Return s => Return (String "%" s)
              | Raise e => Raise e
              end
            else if decide (conv = "s"%char) then
              match args with
              | [] => Raise (TypeError "not enough arguments for format string")
              | a :: args' =>
                  match py_format rest' args' with
                  | Return s => Return (py_str a +:+ s)
                  | Raise e => Raise e
                  end
              end
            else if PyStr.mem conv conversion_chars then
              Raise (NotModelled "conversion specifier")
            else Raise (ValueError "unsupported format character")
        end
      else
        match py_format rest args with
        | Return s => Return (String c s)
        | Raise e => Raise e
        end
  end.

(** ** Tables *)

(** A row of a fragments file, as [pr.read_bed(..., as_df=True)] gives it:
    the columns Chromosome, Start, End, Name (the cell barcode) and Score. *)
Record fragment := {
  Chromosome : string;
  Start : Z;
  End_ : Z;
  Name : string;
  Score : Z;
}.

Definition fragments_df := list fragment.

Definition set_Name (f : fragment) (n : string) : fragment :=
  {| Chromosome := Chromosome f; Start := Start f; End_ := End_ f;
     Name := n; Score := Score f |}.

(** The cell metadata: a [pd.DataFrame] with the barcodes as index and
    columns of annotations. *)
Record DataFrame := {
  df_index : list string;
  df_columns : list (string * list string);
}.

(** A [pd.Series]: index labels with their values. *)
Definition Series := list (string * string).

(** [df.loc[:, column]]. *)
Definition loc_column (df : DataFrame) (column : string) : result Series :=
  match Dict.get (df_columns df) column with
  | Some vals => Return (zip (df_index df) vals)
  | None => Raise (KeyError column)
  end.

(** [series[series.isin([value])].index.tolist()]. *)
Definition index_where (s : Series) (value : string) : list string :=
  (filter (λ iv, iv.2 = value) s).*1.

(** [df.loc[df['Name'].isin(names)]]. *)
Definition Name_isin (names : list string) (df : fragments_df) : fragments_df :=
  filter (λ f, Name f ∈ names) df.

(** [sorted(list(set(series)))]: the distinct values in increasing order. *)
Definition sorted_set (s : Series) : list string :=
  merge_sort String.le (remove_dups s.*2).

(** Chromosome sizes: rows Chromosome, Start, End, given as a data frame or
    already as a [pr.PyRanges]. *)
Definition chrom_rows := list (string * Z * Z).

Inductive chromsizes_arg :=
  | ChromDataFrame (rows : chrom_rows)
  | ChromPyRanges (rows : chrom_rows).

(** What [pd.read_csv(path, sep='\t', header=None)] returns: rows of
    [width] cells, the columns numbered from 0. *)
Record csv_table := {
  width : nat;
  rows : list (list string);
}.

(** A [pr.PyRanges] built from a data frame with named columns. *)
Record PyRanges := {
  columns : list string;
  records : list (list string);
}.

(** ** The world outside the module *)

Inductive log_level := INFO | ERROR.

(** The calls the module makes to the outside, in the order it makes them. *)
Inductive call :=
  | Log (level : log_level) (msg : string) (args : list string)
  | ReadBed (path : string)
  | ReadCsv (path : string)
  | Makedirs (path : string)
  | ToBigwig (path : string) (group : fragments_df) (chromsizes : chrom_rows)
             (rpm : option bool) (value_col : option string)
  | ToBed (path : string) (group : fragments_df)
  | RayInit (num_cpus : option Z)
  | RayShutdown
  | CheckOutput (cmd : string).

(** How the outside answers, for a state [W] of the outside world.  A
    subprocess answers with its exit status and captured output. *)
Record Externals (W : Type) := {
  pr_read_bed : W → string → io_error + fragments_df;
  pd_read_csv : W → string → io_error + csv_table;
  os_path_exists : W → string → bool;
  os_makedirs : W → string → io_error + W;
  pr_to_bigwig : W → string → fragments_df → chrom_rows → option bool →
                 option string → io_error + W;
  pr_to_bed : W → string → fragments_df → io_error + W;
  shell : W → string → Z * string * W;
  (** Whether [ray.get], once a task has failed, still finds the tasks
      submitted after it run. *)
  ray_get_waits : W → bool;
}.
Arguments pr_read_bed {W} _ _ _.
Arguments pd_read_csv {W} _ _ _.
Arguments os_path_exists {W} _ _ _.
Arguments os_makedirs {W} _ _ _.
Arguments pr_to_bigwig {W} _ _ _ _ _ _ _.
Arguments pr_to_bed {W} _ _ _ _.
Arguments shell {W} _ _ _.
Arguments ray_get_waits {W} _ _.

(** ** Computations *)

(** The end of a computation: its result, the world it leaves and the calls it
    made. *)
Record Run (W A : Type) := mkRun {
  outcome : result A;
  world : W;
  calls : list call;
}.
Arguments mkRun {W A} _ _ _.
Arguments outcome {W A} _.
Arguments world {W A} _.
Arguments calls {W A} _.

Definition M (W A : Type) := W → Run W A.

Section monad.
Context {W : Type}.

Definition ret {A} (a : A) : M W A := λ w, mkRun (Return a) w [].

Definition raise {A} (e : exn) : M W A := λ w, mkRun (Raise e) w [].

Definition bind {A B} (m : M W A) (k : A → M W B) : M W B := λ w,
  let r := m w in
  match outcome r with
  | Raise e => mkRun (Raise e) (world r) (calls r)
  | Return a =>
      let r' := k a (world r) in
      mkRun (outcome r') (world r') (calls r ++ calls r')
  end.

Definition emit (c : call) : M W unit := λ w, mkRun (Return tt) w [c].

Definition lift {A} (r : result A) : M W A :=
  match r with
  | Raise e => raise e
  | Return a => ret a
  end.

(** [try: m except CalledProcessError as e: handler e]. *)
Definition try_except_CalledProcessError {A} (m : M W A)
    (handler : Z → string → string → M W A) : M W A := λ w,
  let r := m w in
  match outcome r with
  | Raise (CalledProcessError code cmd out) =>
      let r' := handler code cmd out (world r) in
      mkRun (outcome r') (world r') (calls r ++ calls r')
  | _ => r
  end.

(** Reading a local variable, which raises when nothing was assigned yet. *)
Definition local {A} (name : string) (v : option A) : M W A :=
  match v with
  | Some a => ret a
  | None => raise (UnboundLocalError name)
  end.
End monad.

#[global] Instance M_ret {W} : MRet (M W) := @ret W.
#[global] Instance M_bind {W} : MBind (M W) := λ A B k m, bind m k.

(** ** Calling a Python function

    Arguments are bound to parameters as Python does: positional arguments
    first, then each keyword argument to the parameter of that name, then the
    defaults. *)
Inductive pyarg :=
  | ArgNone
  | ArgStr (s : string)
  | ArgBool (b : bool)
  | ArgFragments (df : fragments_df)
  | ArgChrom (rows : chrom_rows).

Definition signature := list (string * option pyarg).

Fixpoint bind_positional (params : signature) (pos : list pyarg)
    : result (list (string * pyarg)) :=
  match pos, params with
  | [], _ => Return []
  | _ :: _, [] => Raise (TypeError "too many positional arguments")
  | a :: pos', (p, _) :: params' =>
      match bind_positional params' pos' with
      | Return bound => Return ((p, a) :: bound)
      | Raise e => Raise e
      end
  end.

Fixpoint bind_keywords (params : signature) (bound : list (string * pyarg))
    (kw : list (string * pyarg)) : result (list (string * pyarg)) :=
  match kw with
  | [] => Return bound
  | (k, v) :: kw' =>
      if negb (bool_decide (k ∈ params.*1)) then
        Raise (TypeError ("got an unexpected keyword argument " +:+ k))
      else if bool_decide (k ∈ bound.*1) then
        Raise (TypeError ("got multiple values for argument " +:+ k))
      else bind_keywords params (bound ++ [(k, v)]) kw'
  end.

Fixpoint bind_defaults (params : signature) (bound : list (string * pyarg))
    : result (list pyarg) :=
  match params with
  | [] => Return []
  | (p, default) :: params' =>
      match Dict.get bound p, default with
      | None, None => Raise (TypeError ("missing required argument " +:+ p))
      | Some v, _ | None, Some v =>
          match bind_defaults params' bound with
          | Return vs => Return (v :: vs)
          | Raise e => Raise e
          end
      end
  end.

(** The values of the parameters, in the order of the signature. *)
Definition bind_args (params : signature) (pos : list pyarg)
    (kw : list (string * pyarg)) : result (list pyarg) :=
  match bind_positional params pos with
  | Raise e => Raise e
  | Return bound =>
      match bind_keywords params bound kw with
      | Raise e => Raise e
      | Return bound' => bind_defaults params bound'
      end
  end.

(** [PyRanges.to_bigwig(self, path=None, chromosome_sizes=None, rpm=True,
    divide=None, value_col=None, dryrun=False, chain=False)]. *)
Definition to_bigwig_signature : signature :=
  [("path", Some ArgNone); ("chromosome_sizes", Some ArgNone);
   ("rpm", Some (ArgBool true)); ("divide", Some ArgNone);
   ("value_col", Some ArgNone); ("dryrun", Some (ArgBool false));
   ("chain", Some (ArgBool false))].

(** [PyRanges.to_bed(self, path=None, keep=True, compression="infer",
    chain=False)]. *)
Definition to_bed_signature : signature :=
  [("path", Some ArgNone); ("keep", Some (ArgBool true));
   ("compression", Some (ArgStr "infer")); ("chain", Some (ArgBool false))].

Definition arg_of_bool (b : option bool) : pyarg :=
  match b with
  | Some b => ArgBool b
  | None => ArgNone
  end.

(** ** The external calls *)

Section externals.
Context {W : Type} (E : Externals W).

Definition log_info (msg : string) : M W unit := emit (Log INFO msg []).
Definition log_error (msg : string) : M W unit := emit (Log ERROR msg []).

(** [pr.read_bed(path, as_df=True)]. *)
Definition read_bed (path : string) : M W fragments_df := λ w,
  match pr_read_bed E w path with
  | inl e => mkRun (Raise (IOError e)) w [ReadBed path]
  | inr df => mkRun (Return df) w [ReadBed path]
  end.

(** [pd.read_csv(path, sep='\t', header=None)]. *)
Definition read_csv (path : string) : M W csv_table := λ w,
  match pd_read_csv E w path with
  | inl e => mkRun (Raise (IOError e)) w [ReadCsv path]
  | inr t => mkRun (Return t) w [ReadCsv path]
  end.

Definition path_exists (path : string) : M W bool := λ w,
  mkRun (Return (os_path_exists E w path)) w [].

Definition makedirs (path : string) : M W unit := λ w,
  match os_makedirs E w path with
  | inl e => mkRun (Raise (IOError e)) w [Makedirs path]
  | inr w' => mkRun (Return tt) w' [Makedirs path]
  end.

(** [self.to_bigwig] with positional arguments [pos] and keyword arguments
    [kw], where [self] is the [PyRanges] of [self_rows]. *)
Definition to_bigwig (self_rows : fragments_df) (pos : list pyarg)
    (kw : list (string * pyarg)) : M W unit :=
  match bind_args to_bigwig_signature pos kw with
  | Raise e => raise e
  | Return [ArgStr path; ArgChrom chromsizes; rpm; _; value_col; _; _] =>
      let rpm :=
        match rpm with ArgBool b => Some b | _ => None end in
      let value_col :=
        match value_col with ArgStr c => Some c | _ => None end in
      λ w,
        let c := ToBigwig path self_rows chromsizes rpm value_col in
        match pr_to_bigwig E w path self_rows chromsizes rpm value_col with
        | inl e => mkRun (Raise (IOError e)) w [c]
        | inr w' => mkRun (Return tt) w' [c]
        end
  | Return _ => raise (NotModelled "to_bigwig without a path and sizes")
  end.

(** [self.to_bed], likewise. *)
Definition to_bed (self_rows : fragments_df) (pos : list pyarg)
    (kw : list (string * pyarg)) : M W unit :=
  match bind_args to_bed_signature pos kw with
  | Raise e => raise e
  | Return [ArgStr path; _; _; _] =>
      λ w,
        match pr_to_bed E w path self_rows with
        | inl e => mkRun (Raise (IOError e)) w [ToBed path self_rows]
        | inr w' => mkRun (Return tt) w' [ToBed path self_rows]
        end
  | Return _ => raise (NotModelled "to_bed without a path")
  end.

(** [subprocess.check_output(args=cmd, shell=True, stderr=STDOUT)]: the
    captured output, or [CalledProcessError] on a non-zero exit status. *)
Definition check_output (cmd : string) : M W string := λ w,
  let '(code, out, w') := shell E w cmd in
  if decide (code = 0) then mkRun (Return out) w' [CheckOutput cmd]
  else mkRun (Raise (CalledProcessError code cmd out)) w' [CheckOutput cmd].
End externals.

(** ** Sequences of computations *)

Section sequences.
Context {W : Type}.

(** A list comprehension whose body may raise. *)
Fixpoint for_each {A B} (f : A → M W B) (l : list A) : M W (list B) :=
  match l with
  | [] => mret []
  | x :: l' => y ← f x; ys ← for_each f l'; mret (y :: ys)
  end.

(** [l[i]] and [d[k]]. *)
Definition list_getitem {A} (l : list A) (i : nat) : M W A :=
  match l !! i with
  | Some a => mret a
  | None => raise IndexError
  end.

Definition dict_getitem {V} (d : dict V) (k : string) : M W V :=
  match Dict.get d k with
  | Some v => mret v
  | None => raise (KeyError k)
  end.

End sequences.

(** ** The tasks given to ray *)

Section tasks.
Context {W : Type} (E : Externals W).

Definition failed {A} (r : result A) : bool :=
  match r with
  | Raise _ => true
  | Return _ => false
  end.

(** The tasks submitted to ray, run here one after the other in the order of
    submission; each leaves its result or its exception.  [ray.get] waits for
    the results, but raises as soon as it sees a task that has failed: a task
    submitted after a failed one may not have been started by then.  The run
    holds what the tasks have done when [ray.get] ends; whether ray has run
    such a task by then is up to ray ([ray_get_waits], asked before each
    such task). *)
Fixpoint run_tasks {A} (seen_failure : bool) (tasks : list (M W A)) (w : W)
    : list (result A) * W * list call :=
  match tasks with
  | [] => ([], w, [])
  | t :: tasks' =>
      if seen_failure && negb (ray_get_waits E w) then ([], w, [])
      else
        let r := t w in
        let '(rs, w', cs) :=
          run_tasks (seen_failure || failed (outcome r)) tasks' (world r) in
        (outcome r :: rs, w', calls r ++ cs)
  end.

(** The values of the results, or the first exception among them. *)
Fixpoint collect {A} (rs : list (result A)) : result (list A) :=
  match rs with
  | [] => Return []
  | Raise e :: _ => Raise e
  | Return a :: rs' =>
      match collect rs' with
      | Return l => Return (a :: l)
      | Raise e => Raise e
      end
  end.

(** [ray.get([task.remote(...) for ...])]. *)
Definition ray_get {A} (tasks : list (M W A)) : M W (list A) := λ w,
  let '(rs, w', cs) := run_tasks false tasks w in
  mkRun (collect rs) w' cs.
End tasks.

(** ** The arguments of [exportPseudoBulk] *)

(** [path_to_fragments]: [None], a path, or a dictionary from sample id to
    path. *)
Inductive path_arg :=
  | PathNone
  | PathStr (path : string)
  | PathDict (d : dict string).

(** A [cisTopicObject], through the two attributes the module reads. *)
Record cisTopicObject := {
  obj_cell_data : DataFrame;
  obj_path_to_fragments : path_arg;
}.

(** [input_data]: a [cisTopicObject], a [pd.DataFrame], or something else. *)
Inductive input_arg :=
  | InCisTopicObject (obj : cisTopicObject)
  | InDataFrame (df : DataFrame)
  | InOther.

Definition barcode_chars : string := "-1234567890".

(** [list(set([i.split('-')[-1] for i in index]))]; only membership in it is
    ever asked. *)
Definition cell_suffixes_of (df : DataFrame) : list string :=
  remove_dups (PyStr.last_field "-" <$> df_index df).

Definition as_pyranges (c : chromsizes_arg) : chrom_rows :=
  match c with
  | ChromDataFrame rows => rows
  | ChromPyRanges rows => rows
  end.

(** ** [exportPseudoBulk_ray] and [exportPseudoBulk] *)

Section export.
Context {W : Type} (E : Externals W).

(** One group.  The annotations type [group], [bigwig_path] and [bed_path]
    as [str], so [str(group)] is [group] and both [isinstance] tests hold.
    [pr.PyRanges(group_fragments)] keeps the rows of the frame. *)
Definition exportPseudoBulk_ray (group_var : Series) (group : string)
    (fragments : fragments_df) (chromsizes : chrom_rows)
    (bigwig_path bed_path : string)
    (normalize_bigwig remove_duplicates : option bool)
    : M W (dict (list string)) :=
  log_info ("Creating pseudobulk for " +:+ group);;
  let barcodes := index_where group_var group in
  let group_fragments := Name_isin barcodes fragments in
  let group_pr := group_fragments in
  let bigwig_path_group := bigwig_path +:+ group +:+ ".bw" in
  let bed_path_group := bed_path +:+ group +:+ ".bed.gz" in
  (if decide (remove_duplicates = Some true) then
     to_bigwig E group_pr []
       [("path", ArgStr bigwig_path_group);
        ("chromosome_sizes", ArgChrom chromsizes);
        ("rpm", arg_of_bool normalize_bigwig)]
   else
     to_bigwig E group_pr [ArgFragments group_pr]
       [("path", ArgStr bigwig_path_group);
        ("chromsizes", ArgChrom chromsizes);
        ("rpm", arg_of_bool normalize_bigwig);
        ("value_col", ArgStr "Score")]);;
  to_bed E group_pr []
    [("path", ArgStr bed_path_group); ("keep", ArgBool true);
     ("compression", ArgStr "infer"); ("chain", ArgBool false)];;
  log_info (group +:+ " done!");;
  mret [(group, [bigwig_path_group; bed_path_group])].

(** Lines 65-77, "Get fragments file": the locals [cell_data] and
    [cell_suffixes] as they stand afterwards.  The name [cisTopic_obj] is
    neither a parameter nor assigned anywhere in the module. *)
Definition get_fragments_file (input_data : input_arg)
    (path_to_fragments : path_arg)
    : M W (option DataFrame * option (list string)) :=
  match input_data with
  | InCisTopicObject _ => raise (NameError "cisTopic_obj")
  | InDataFrame df =>
      (match path_to_fragments with
       | PathNone => log_error "Please, provide path_to_fragments."
       | _ => mret tt
       end);;
      mret (Some df, Some (cell_suffixes_of df))
  | InOther => mret (None, None)
  end.

(** Lines 81-84, the loop over the sample ids: the value of [sample_id]
    when the loop is over. *)
Fixpoint check_suffixes (input_data : input_arg)
    (cell_suffixes : option (list string)) (keys : list string)
    (sample_id : option string) : M W (option string) :=
  match keys with
  | [] => mret sample_id
  | k :: keys' =>
      (match input_data with
       | InDataFrame _ =>
           suffixes ← local "cell_suffixes" cell_suffixes;
           if bool_decide (k ∈ suffixes) then mret tt
           else log_error "Check that your cell suffixes match with the keys in your path_to_fragments dictionary"
       | _ => mret tt
       end);;
      check_suffixes input_data cell_suffixes keys' (Some k)
  end.

(** Lines 87-91: the barcodes are corrected when the first one has a
    ['-'], and the sample id is appended. *)
Definition correct_barcodes (sample_id : string) (fragments : fragments_df)
    : M W fragments_df :=
  first ← match fragments with
          | [] => raise (LookupError "0")
          | f :: _ => mret (Name f)
          end;
  fragments ←
    (if decide (PyStr.find first "-" ≠ -1) then
       log_info "Barcode correction";;
       let corrected :=
         (λ f, set_Name f (PyStr.rstrip barcode_chars (Name f))) <$> fragments in
       log_info "Barcode correction completed";;
       mret corrected
     else mret fragments);
  mret ((λ f, set_Name f (Name f +:+ "-" +:+ sample_id)) <$> fragments).

(** Lines 93-97, taken when the dictionary has more than one sample. *)
Definition merge_fragments (n_samples : nat) (sample_id : string)
    (fragments : fragments_df) : M W fragments_df :=
  let fragments_df_dict := Dict.set [] sample_id fragments in
  fragments_df_list ←
    for_each (λ x, k ← list_getitem (Dict.keys fragments_df_dict) x;
                   dict_getitem fragments_df_dict k)
             (seq 0 n_samples);
  log_info "Merging fragments";;
  first ← list_getitem fragments_df_list 0;
  mret (first ++ concat (drop 1 fragments_df_list)).

(** Lines 85-97, which follow the loop (they are not in its body): read the
    file of [sample_id], correct and filter the barcodes, and merge when
    the dictionary has several samples. *)
Definition load_fragments (d : dict string) (sample_id : option string)
    (cell_data : option DataFrame) : M W (option fragments_df) :=
  sid ← local "sample_id" sample_id;
  path ← dict_getitem d sid;
  log_info ("Reading fragments from " +:+ path);;
  sid ← local "sample_id" sample_id;
  path ← dict_getitem d sid;
  fragments ← read_bed E path;
  fragments ← correct_barcodes sid fragments;
  cd ← local "cell_data" cell_data;
  let fragments := Name_isin (df_index cd) fragments in
  if decide (1 < length d)%nat then
    merged ← merge_fragments (length d) sid fragments;
    mret (Some merged)
  else mret (Some fragments).

(** Lines 79-102, "Get fragments": the local [fragments_df] as it stands
    afterwards. *)
Definition get_fragments (input_data : input_arg)
    (path_to_fragments : path_arg) (cell_data : option DataFrame)
    (cell_suffixes : option (list string)) : M W (option fragments_df) :=
  match path_to_fragments with
  | PathDict d =>
      sample_id ← check_suffixes input_data cell_suffixes (Dict.keys d) None;
      load_fragments d sample_id cell_data
  | _ =>
      match input_data with
      | InCisTopicObject _ =>
          log_info "Reading fragments";;
          fragments ← match path_to_fragments with
                      | PathStr path => read_bed E path
                      | _ => raise (NotModelled "read_bed of a non-str")
                      end;
          cd ← local "cell_data" cell_data;
          mret (Some (Name_isin (df_index cd) fragments))
      | _ => mret None
      end
  end.

Definition ensure_dir (path : string) : M W unit :=
  there ← path_exists E path;
  if there : bool then mret tt else makedirs E path.

(** [{list(paths[x].keys())[0]: paths[x][list(paths[x].keys())[0]][i]
      for x in range(len(paths))}]. *)
Definition paths_dict (i : nat) (paths : list (dict (list string)))
    : M W (dict string) :=
  items ← for_each (λ x,
                      p ← list_getitem paths x;
                      k ← list_getitem (Dict.keys p) 0;
                      p ← list_getitem paths x;
                      p' ← list_getitem paths x;
                      k' ← list_getitem (Dict.keys p') 0;
                      v ← dict_getitem p k';
                      y ← list_getitem v i;
                      mret (k, y))
                   (seq 0 (length paths));
  mret (Dict.of_items items).

(** Lines 104-128: groups, output folders, one task per group, and the two
    dictionaries.  [fragments_df] is read inside the comprehension, once
    per group. *)
Definition export_groups (cell_data : option DataFrame)
    (fragments : option fragments_df) (variable : string)
    (chromsizes : chromsizes_arg) (bed_path bigwig_path : string)
    (n_cpu : option Z) (normalize_bigwig remove_duplicates : option bool)
    : M W (dict string * dict string) :=
  cd ← local "cell_data" cell_data;
  group_var ← lift (loc_column cd variable);
  let groups := sorted_set group_var in
  let chromsizes := as_pyranges chromsizes in
  ensure_dir bed_path;;
  ensure_dir bigwig_path;;
  emit (RayInit n_cpu);;
  tasks ← for_each (λ group,
                      match fragments with
                      | Some df =>
                          mret (exportPseudoBulk_ray group_var group df
                                  chromsizes bigwig_path bed_path
                                  normalize_bigwig remove_duplicates)
                      | None => raise (NameError "fragments_df")
                      end) groups;
  paths ← ray_get E tasks;
  emit RayShutdown;;
  bw_paths ← paths_dict 0 paths;
  bed_paths ← paths_dict 1 paths;
  mret (bw_paths, bed_paths).

Definition exportPseudoBulk (input_data : input_arg) (variable : string)
    (chromsizes : chromsizes_arg) (bed_path bigwig_path : string)
    (path_to_fragments : path_arg) (n_cpu : option Z)
    (normalize_bigwig remove_duplicates : option bool)
    : M W (dict string * dict string) :=
  locals ← get_fragments_file input_data path_to_fragments;
  fragments ← get_fragments input_data path_to_fragments locals.1 locals.2;
  export_groups locals.1 fragments variable chromsizes bed_path bigwig_path
    n_cpu normalize_bigwig remove_duplicates.
End export.

(** ** The class [MACS_callPeak], [MACS_callPeak_ray] and [peakCalling] *)

Definition narrow_peak_columns : list string :=
  ["Chromosome"; "Start"; "End"; "Name"; "Score"; "Strand"; "FC_summit";
   "-log10_pval"; "-log10_qval"; "Summit"].

Definition callpeak_template : string :=
  " callpeak --treatment %s --name %s  --outdir %s --format %s --gsize %s --qvalue %s --nomodel --shift %s --extsize %s --keep-dup %s --call-summits --nolambda".

Module MACS_callPeak.

(** An instance; [narrow_peak] is [None] until [callpeak] assigns it. *)
Record t := {
  macs_path : string;
  treatment : string;
  name : string;
  outdir : string;
  format : pyval;
  gsize : string;
  shift : pyval;
  ext_size : pyval;
  keep_dup : pyval;
  qvalue : pyval;
  narrow_peak : option PyRanges;
}.

Definition set_narrow_peak (self : t) (p : PyRanges) : t :=
  {| macs_path := macs_path self; treatment := treatment self;
     name := name self; outdir := outdir self; format := format self;
     gsize := gsize self; shift := shift self; ext_size := ext_size self;
     keep_dup := keep_dup self; qvalue := qvalue self;
     narrow_peak := Some p |}.

(** The file [load_narrow_peak] reads. *)
Definition narrow_peak_file (outdir name : string) : string :=
  outdir +:+ name +:+ "_peaks.narrowPeak".

(** The arguments of the [%] in [callpeak], in order. *)
Definition cmd_args (self : t) : list pyval :=
  [PyStr (treatment self); PyStr (name self); PyStr (outdir self);
   format self; PyStr (gsize self); qvalue self; shift self; ext_size self;
   keep_dup self].

Section methods.
Context {W : Type} (E : Externals W).

(** Assigning ten column names raises unless the frame has ten columns. *)
Definition load_narrow_peak (self : t) : M W PyRanges :=
  narrow_peak ← read_csv E (narrow_peak_file (outdir self) (name self));
  if decide (width narrow_peak = length narrow_peak_columns) then
    mret {| columns := narrow_peak_columns; records := rows narrow_peak |}
  else raise (ValueError "Length mismatch")
  .

Definition callpeak (self : t) : M W t :=
  let cmd := macs_path self +:+ callpeak_template in
  cmd ← lift (py_format cmd (cmd_args self));
  emit (Log INFO ("Calling peaks for " +:+ name self +:+ " with %s") [cmd]);;
  try_except_CalledProcessError (check_output E cmd)
    (λ code cmd out, raise (RuntimeError cmd code out));;
  narrow_peak ← load_narrow_peak self;
  mret (set_narrow_peak self narrow_peak).

Definition init (macs_path bed_path name outdir genome_size : string)
    (input_format shift ext_size keep_dup q_value : pyval) : M W t :=
  callpeak {| macs_path := macs_path; treatment := bed_path; name := name;
              outdir := outdir; format := input_format;
              gsize := genome_size; shift := shift; ext_size := ext_size;
              keep_dup := keep_dup; qvalue := q_value;
              narrow_peak := None |}.
End methods.
End MACS_callPeak.

Section peak_calling.
Context {W : Type} (E : Externals W).

Definition MACS_callPeak_ray (macs_path bed_path name outdir genome_size : string)
    (input_format shift ext_size keep_dup q_value : pyval)
    : M W MACS_callPeak.t :=
  MACS_peak_calling ←
    MACS_callPeak.init E macs_path bed_path name outdir genome_size
      input_format shift ext_size keep_dup q_value;
  log_info (name +:+ " done!");;
  mret MACS_peak_calling.

(** [obj.narrow_peak]. *)
Definition get_narrow_peak (obj : MACS_callPeak.t) : M W PyRanges :=
  match MACS_callPeak.narrow_peak obj with
  | Some p => mret p
  | None => raise (AttributeError "narrow_peak")
  end.

Definition peakCalling (macs_path : string) (bed_paths : dict string)
    (outdir genome_size : string) (n_cpu : option Z)
    (input_format shift ext_size keep_dup q_value : pyval)
    : M W (dict PyRanges) :=
  emit (RayInit n_cpu);;
  tasks ← for_each (λ name,
                      bed_path ← dict_getitem bed_paths name;
                      mret (MACS_callPeak_ray macs_path bed_path name outdir
                              genome_size input_format shift ext_size
                              keep_dup q_value))
                   (Dict.keys bed_paths);
  narrow_peaks ← ray_get E tasks;
  emit RayShutdown;;
  items ← for_each (λ i,
                      k ← list_getitem (Dict.keys bed_paths) i;
                      obj ← list_getitem narrow_peaks i;
                      p ← get_narrow_peak obj;
                      mret (k, p))
                   (seq 0 (length narrow_peaks));
  mret (Dict.of_items items).
End peak_calling.

(** ** A small file system, to run the model on

    Files by path, kept as the tables or ranges they were written from; the
    subprocess is given as a function of the command line. *)

Module Toy.

Inductive file :=
  | Fragments (rows : fragments_df)
  | Table (t : csv_table)
  | BigWig (rows : fragments_df) (chromsizes : chrom_rows)
           (rpm : option bool) (value_col : option string)
  | Directory.

Definition fs := dict file.

Definition externals (sh : fs → string → Z * string * fs) : Externals fs := {|
  pr_read_bed w path :=
    match Dict.get w path with
    | Some (Fragments rows) => inr rows
    | Some _ => inl ParserError
    | None => inl FileNotFoundError
    end;
  pd_read_csv w path :=
    match Dict.get w path with
    | Some (Table t) => inr t
    | Some _ => inl ParserError
    | None => inl FileNotFoundError
    end;
  os_path_exists w path := bool_decide (path ∈ Dict.keys w);
  os_makedirs w path := inr (Dict.set w path Directory);
  pr_to_bigwig w path rows chromsizes rpm value_col :=
    inr (Dict.set w path (BigWig rows chromsizes rpm value_col));
  pr_to_bed w path rows := inr (Dict.set w path (Fragments rows));
  shell := sh;
  ray_get_waits _ := false;
|}.

(** A peak caller that exits with [status] and leaves the files [out]. *)
Definition caller (status : Z) (out : list (string * file))
    : fs → string → Z * string * fs :=
  λ w _, (status, "", foldl (λ w kv, Dict.set w kv.1 kv.2) w out).

(** [true], the shell command: exits with status 0 whatever its
    arguments, and writes nothing. *)
Definition sh_true : fs → string → Z * string * fs := caller 0 [].

Definition cells : DataFrame := {|
  df_index := ["AAAC-s1"; "TTTG-s1"; "CCCA-s1"];
  df_columns := [("celltype", ["T_cell"; "B_cell"; "T_cell"])];
|}.

Definition frag (chrom : string) (s e : Z) (barcode : string) : fragment :=
  {| Chromosome := chrom; Start := s; End_ := e; Name := barcode; Score := 1 |}.

Definition fragments : fragments_df :=
  [frag "chr1" 100 180 "AAAC-1"; frag "chr1" 150 300 "TTTG-1";
   frag "chr2" 10 90 "GGGG-1"; frag "chr2" 40 95 "CCCA-1"].

Definition disk : fs := [("s1.fragments.tsv.gz", Fragments fragments)].

Definition sizes : chromsizes_arg :=
  ChromPyRanges [("chr1", 0, 1000); ("chr2", 0, 500)].

Definition peak_row : list string :=
  ["chr1"; "100"; "300"; "T_cell_peak_1"; "88"; "."; "5.1"; "11.2"; "8.8"; "60"].

Definition peaks : csv_table := {| width := 10; rows := [peak_row] |}.

Definition self : MACS_callPeak.t := {|
  MACS_callPeak.macs_path := "macs2";
  MACS_callPeak.treatment := "bed/T_cell.bed.gz";
  MACS_callPeak.name := "T_cell";
  MACS_callPeak.outdir := "out/";
  MACS_callPeak.format := PyStr "BEDPE";
  MACS_callPeak.gsize := "hs";
  MACS_callPeak.shift := PyInt 73;
  MACS_callPeak.ext_size := PyInt 146;
  MACS_callPeak.keep_dup := PyStr "all";
  MACS_callPeak.qvalue := PyFloat "0.05";
  MACS_callPeak.narrow_peak := None;
|}.

End Toy.

(** * Properties *)

(** ** Running computations *)

Definition with_calls {W A} (cs : list call) (r : Run W A) : Run W A :=
  mkRun (outcome r) (world r) (cs ++ calls r).

Section running.
Context {W : Type}.
Implicit Types w : W.

Lemma run_eta {A} (r : Run W A) : r = mkRun (outcome r) (world r) (calls r).
Proof. by destruct r. Qed.

Lemma run_bind {A B} (m : M W A) (k : A → M W B) w :
  (m ≫= k) w =
    match outcome (m w) with
    | Raise e => mkRun (Raise e) (world (m w)) (calls (m w))
    | Return a => with_calls (calls (m w)) (k a (world (m w)))
    end.
Proof. reflexivity. Qed.

Lemma run_bind_Return {A B} (m : M W A) (k : A → M W B) w a w1 cs :
  m w = mkRun (Return a) w1 cs → (m ≫= k) w = with_calls cs (k a w1).
Proof. intros Hm. rewrite run_bind, Hm. reflexivity. Qed.

Lemma run_bind_Raise {A B} (m : M W A) (k : A → M W B) w e w1 cs :
  m w = mkRun (Raise e) w1 cs → (m ≫= k) w = mkRun (Raise e) w1 cs.
Proof. intros Hm. rewrite run_bind, Hm. reflexivity. Qed.

Lemma run_mret {A} (a : A) w : (mret a : M W A) w = mkRun (Return a) w [].
Proof. reflexivity. Qed.

Lemma run_emit_bind {B} (c : call) (k : unit → M W B) w :
  (emit c ≫= k) w = with_calls [c] (k tt w).
Proof. reflexivity. Qed.

Lemma run_mret_bind {A B} (a : A) (k : A → M W B) w :
  (mret a ≫= k) w = k a w.
Proof. rewrite run_bind. simpl. unfold with_calls. simpl. by destruct (k a w). Qed.

Lemma run_ret_bind {A B} (a : A) (k : A → M W B) w :
  (ret a ≫= k) w = k a w.
Proof. apply run_mret_bind. Qed.

Lemma bind_ext_r {A B} (m : M W A) (k1 k2 : A → M W B) w :
  (∀ a w', k1 a w' = k2 a w') → (m ≫= k1) w = (m ≫= k2) w.
Proof. intros Hk. rewrite !run_bind. destruct (outcome (m w)); [done|]. by rewrite Hk. Qed.

Lemma with_calls_nil {A} (r : Run W A) : with_calls [] r = r.
Proof. by destruct r. Qed.

Lemma with_calls_app {A} cs1 cs2 (r : Run W A) :
  with_calls cs1 (with_calls cs2 r) = with_calls (cs1 ++ cs2) r.
Proof. unfold with_calls. simpl. by rewrite (assoc_L (++)). Qed.

(** A computation that returns did so through each of its two halves. *)
Lemma bind_Return_inv {A B} (m : M W A) (k : A → M W B) w b :
  outcome ((m ≫= k) w) = Return b →
  ∃ a, outcome (m w) = Return a
     ∧ outcome (k a (world (m w))) = Return b
     ∧ (m ≫= k) w = with_calls (calls (m w)) (k a (world (m w))).
Proof.
  rewrite run_bind. destruct (outcome (m w)) as [e|a] eqn:Hm; [done|].
  intros Hk. exists a. done.
Qed.

End running.

(** ** Strings *)

Section strings.
Import PyStr.

Lemma find_from_spec c s i :
  0 ≤ i →
  (find_from c s i = -1 ↔ c ∉ String.list_ascii_of_string s)
  ∧ (find_from c s i ≠ -1 → i ≤ find_from c s i).
Proof.
  revert i. induction s as [|a s IH]; intros i Hi; simpl.
  - split; [|done]. split; [|done]. intros _. apply not_elem_of_nil.
  - destruct (decide (a = c)) as [->|Hne].
    + split; [|lia]. split; [lia|]. intros []. left.
    + destruct (IH (i + 1)) as [IH1 IH2]; [lia|]. split.
      * rewrite IH1, not_elem_of_cons. intuition congruence.
      * intros H. specialize (IH2 H). lia.
Qed.

(** [s.find('-') != -1] says that [s] has a ['-']. *)
Lemma find_ne_minus_one s c :
  find s c ≠ -1 ↔ c ∈ String.list_ascii_of_string s.
Proof.
  unfold find. destruct (find_from_spec c s 0) as [H _]; [done|].
  rewrite H. split; [|tauto].
  intros Hnn. by destruct (decide (c ∈ String.list_ascii_of_string s)).
Qed.

Lemma mem_spec c chars :
  mem c chars = true ↔ c ∈ String.list_ascii_of_string chars.
Proof. unfold mem. apply bool_decide_eq_true. Qed.

Lemma last_char_cons a c s :
  last_char (String a (String c s)) = last_char (String c s).
Proof. reflexivity. Qed.

Lemma last_char_elem s c :
  last_char s = Some c → c ∈ String.list_ascii_of_string s.
Proof.
  induction s as [|a [|b s] IH]; simpl in *; [done| |].
  - intros [= ->]. left.
  - intros H. right. by apply IH.
Qed.

Lemma last_char_is_Some a s : is_Some (last_char (String a s)).
Proof.
  revert a. induction s as [|b s IH]; intros a; [by eexists|].
  rewrite last_char_cons. apply IH.
Qed.

(** [rstrip] computes what [is_rstrip] asks for... *)
Lemma rstrip_is_rstrip chars s : is_rstrip chars s (rstrip chars s).
Proof.
  induction s as [|a s (t & Hs & Ht & Hp)]; simpl.
  - exists EmptyString. split; [done|]. split; [|done].
    intros c H. by apply elem_of_nil in H.
  - destruct (rstrip chars s) as [|b p] eqn:Hr.
    + change (s = t) in Hs. subst t. destruct (mem a chars) eqn:Hm.
      * exists (String a s). split; [done|]. split; [|done].
        intros c. simpl. rewrite elem_of_cons. intros [->|?]; [|by apply Ht].
        by apply mem_spec.
      * exists s. split; [done|]. split; [done|].
        simpl. intros c [= <-] Hin. apply mem_spec in Hin. congruence.
    + exists t. split; [by rewrite Hs|]. split; [done|].
      intros c. rewrite last_char_cons. apply Hp.
Qed.

(** ... and nothing else does. *)
Lemma is_rstrip_unique chars s p1 p2 :
  is_rstrip chars s p1 → is_rstrip chars s p2 → p1 = p2.
Proof.
  revert s p2. induction p1 as [|a p1 IH]; intros s p2 (t1 & Hs1 & Ht1 & Hp1) (t2 & Hs2 & Ht2 & Hp2).
  - destruct p2 as [|b p2]; [done|]. exfalso.
    destruct (last_char_is_Some b p2) as [c Hc].
    apply (Hp2 c Hc), Ht1. change (s = t1) in Hs1. subst t1 s.
    apply last_char_elem in Hc. clear -Hc.
    revert Hc. generalize (String b p2). intros p. induction p as [|x p IHp]; simpl.
    + intros H. by apply elem_of_nil in H.
    + rewrite !elem_of_cons. intuition.
  - destruct p2 as [|b p2].
    + exfalso. destruct (last_char_is_Some a p1) as [c Hc].
      apply (Hp1 c Hc), Ht2. change (s = t2) in Hs2. subst t2 s.
      apply last_char_elem in Hc. clear -Hc.
      revert Hc. generalize (String a p1). intros p. induction p as [|x p IHp]; simpl.
      * intros H. by apply elem_of_nil in H.
      * rewrite !elem_of_cons. intuition.
    + subst s. change (String a (p1 +:+ t1) = String b (p2 +:+ t2)) in Hs2.
      injection Hs2 as -> Hs2. f_equal.
      apply (IH (p1 +:+ t1)).
      * exists t1. split; [done|]. split; [done|].
        intros c Hc. apply Hp1. destruct p1; [done|]. by rewrite last_char_cons.
      * exists t2. split; [done|]. split; [done|].
        intros c Hc. apply Hp2. destruct p2; [done|]. by rewrite last_char_cons.
Qed.

(** The characters that [rstrip("-1234567890")] removes. *)
Lemma barcode_chars_spec c :
  c ∈ String.list_ascii_of_string barcode_chars ↔
  c = "-"%char ∨ ∃ d : nat, (d < 10)%nat ∧ c = ascii_of_nat (48 + d).
Proof.
  unfold barcode_chars. simpl. rewrite !elem_of_cons, elem_of_nil. split.
  - intros [->|[->|[->|[->|[->|[->|[->|[->|[->|[->|[->|[]]]]]]]]]]]];
      [by left|right..].
    all: first
      [ exists 0%nat; split; [lia|reflexivity] | exists 1%nat; split; [lia|reflexivity]
      | exists 2%nat; split; [lia|reflexivity] | exists 3%nat; split; [lia|reflexivity]
      | exists 4%nat; split; [lia|reflexivity] | exists 5%nat; split; [lia|reflexivity]
      | exists 6%nat; split; [lia|reflexivity] | exists 7%nat; split; [lia|reflexivity]
      | exists 8%nat; split; [lia|reflexivity] | exists 9%nat; split; [lia|reflexivity] ].
  - intros [->|(d & Hd & ->)]; [by left|].
    do 10 (destruct d as [|d];
           [vm_compute; repeat ((left; reflexivity) || right)|]).
    lia.
Qed.
End strings.

(** ** Barcode correction *)

Example rstrip_barcode :
  PyStr.rstrip barcode_chars "AAACGAAT-1" = "AAACGAAT"
  ∧ PyStr.rstrip barcode_chars "AAACGAAT-12-3" = "AAACGAAT"
  ∧ PyStr.rstrip barcode_chars "AAACGAAT" = "AAACGAAT"
  ∧ PyStr.rstrip barcode_chars "lane7-1" = "lane".
Proof. repeat split; reflexivity. Qed.

Example correct_barcodes_run :
  outcome (correct_barcodes "s1" Toy.fragments Toy.disk) =
    Return [Toy.frag "chr1" 100 180 "AAAC-s1"; Toy.frag "chr1" 150 300 "TTTG-s1";
            Toy.frag "chr2" 10 90 "GGGG-s1"; Toy.frag "chr2" 40 95 "CCCA-s1"].
Proof. reflexivity. Qed.

(** Only the first barcode is looked at: here it has no ['-'], so the
    second keeps its ["-1"]. *)
Example correct_barcodes_first_decides :
  outcome (correct_barcodes "s1"
             [Toy.frag "chr1" 1 2 "AAAC"; Toy.frag "chr1" 3 4 "TTTG-1"] Toy.disk) =
    Return [Toy.frag "chr1" 1 2 "AAAC-s1"; Toy.frag "chr1" 3 4 "TTTG-1-s1"].
Proof. reflexivity. Qed.

(** Lines 87-91 on a table with a first record.  The barcodes are corrected
    if and only if the Name of the first record has a ['-'].  When it has,
    every record's Name loses its longest suffix made of the characters ['-']
    and ['0'] to ['9'], and then gets ['-' + sample_id] appended; when it has
    not, every Name is kept as loaded and gets ['-' + sample_id] appended.
    Nothing else of a record changes and no exception is raised. *)
Lemma correct_barcodes_names {W} (sample_id : string) (f : fragment)
    (rest : fragments_df) (w : W) :
  let loaded := f :: rest in
  let r := correct_barcodes sample_id loaded w in
  ∃ named,
    outcome r = Return named ∧ world r = w ∧
    if decide ("-"%char ∈ String.list_ascii_of_string (Name f)) then
      Forall2 (λ x y, ∃ p, PyStr.is_rstrip barcode_chars (Name x) p
                         ∧ y = set_Name x (p +:+ "-" +:+ sample_id))
              loaded named
    else named = (λ x, set_Name x (Name x +:+ "-" +:+ sample_id)) <$> loaded.
Proof.
  intros loaded r. subst r. unfold correct_barcodes. subst loaded.
  rewrite run_bind. cbn [outcome world calls mret M_ret ret].
  rewrite with_calls_nil.
  destruct (decide ("-"%char ∈ String.list_ascii_of_string (Name f))) as [Hin|Hnin];
    destruct (decide (PyStr.find (Name f) "-" ≠ -1)) as [Hf|Hf];
    try (apply find_ne_minus_one in Hf; contradiction);
    try (exfalso; apply Hf, find_ne_minus_one, Hin).
  - eexists. split; [reflexivity|]. split; [reflexivity|].
    rewrite <- list_fmap_compose. apply Forall2_fmap_r, Forall_Forall2_diag, Forall_forall.
    intros x _. exists (PyStr.rstrip barcode_chars (Name x)).
    split; [apply rstrip_is_rstrip|reflexivity].
  - eexists. split; [reflexivity|]. split; reflexivity.
Qed.

(** ** A [cisTopicObject] as input *)

(** C8.  With a [cisTopicObject] as [input_data], [exportPseudoBulk] raises
    [NameError] for [cisTopic_obj] at once: nothing was read, written or
    logged, and the world is as it was. *)
Theorem exportPseudoBulk_cisTopicObject_NameError {W} (E : Externals W)
    (obj : cisTopicObject) (variable : string) (chromsizes : chromsizes_arg)
    (bed_path bigwig_path : string) (path_to_fragments : path_arg)
    (n_cpu : option Z) (normalize_bigwig remove_duplicates : option bool) (w : W) :
  exportPseudoBulk E (InCisTopicObject obj) variable chromsizes bed_path
    bigwig_path path_to_fragments n_cpu normalize_bigwig remove_duplicates w
  = mkRun (Raise (NameError "cisTopic_obj")) w [].
Proof. reflexivity. Qed.

(** ** Missing paths and unknown sample ids *)

Definition suffix_error : call :=
  Log ERROR "Check that your cell suffixes match with the keys in your path_to_fragments dictionary" [].

Definition no_path_error : call :=
  Log ERROR "Please, provide path_to_fragments." [].

Lemma check_suffixes_run {W} (df : DataFrame) (suffixes keys : list string)
    (sample_id : option string) (w : W) :
  check_suffixes (InDataFrame df) (Some suffixes) keys sample_id w =
    mkRun (Return (from_option Some sample_id (last keys))) w
          ((λ _, suffix_error) <$> filter (λ k, k ∉ suffixes) keys).
Proof.
  revert sample_id. induction keys as [|k keys IH]; intros sample_id; [done|].
  cbn [check_suffixes]. rewrite run_bind.
  assert (Hlast : from_option Some (Some k) (last keys)
                  = from_option Some sample_id (last (k :: keys))).
  { destruct keys as [|k' keys']; [done|]. rewrite last_cons_cons.
    destruct (proj2 (last_is_Some (k' :: keys'))) as [x Hx]; [done|].
    by rewrite Hx. }
  rewrite filter_cons. destruct (decide (k ∉ suffixes)) as [Hk|Hk].
  - assert (bool_decide (k ∈ suffixes) = false) as Hb by by apply bool_decide_eq_false.
    simpl. rewrite Hb. simpl. rewrite IH, Hlast. reflexivity.
  - assert (bool_decide (k ∈ suffixes) = true) as Hb.
    { apply bool_decide_eq_true. by destruct (decide (k ∈ suffixes)). }
    simpl. rewrite Hb. simpl. rewrite IH, Hlast. reflexivity.
Qed.

(** C9.  With a data frame as [input_data]: when [path_to_fragments] is
    [None], the first block only logs an error, leaves [cell_data] and
    [cell_suffixes] assigned, and the function goes on with the rest of its
    body; when it is a dictionary, the loop over its keys logs one error for
    each key that is no barcode suffix, raises nothing, and the function goes
    on with the statements after the loop. *)
Theorem exportPseudoBulk_logs_and_continues {W} (E : Externals W)
    (df : DataFrame) (variable : string) (chromsizes : chromsizes_arg)
    (bed_path bigwig_path : string) (n_cpu : option Z)
    (normalize_bigwig remove_duplicates : option bool) (w : W) :
  let rest fragments :=
    export_groups E (Some df) fragments variable chromsizes bed_path
      bigwig_path n_cpu normalize_bigwig remove_duplicates in
  (get_fragments_file (InDataFrame df) PathNone w
     = mkRun (Return (Some df, Some (cell_suffixes_of df))) w [no_path_error]
   ∧ exportPseudoBulk E (InDataFrame df) variable chromsizes bed_path
       bigwig_path PathNone n_cpu normalize_bigwig remove_duplicates w
     = with_calls [no_path_error] (rest None w))
  ∧ ∀ d : dict string,
      let unknown := filter (λ k, k ∉ cell_suffixes_of df) (Dict.keys d) in
      let errors := (λ _, suffix_error) <$> unknown in
      check_suffixes (InDataFrame df) (Some (cell_suffixes_of df)) (Dict.keys d) None w
        = mkRun (Return (last (Dict.keys d))) w errors
      ∧ exportPseudoBulk E (InDataFrame df) variable chromsizes bed_path
          bigwig_path (PathDict d) n_cpu normalize_bigwig remove_duplicates w
        = with_calls errors
            ((load_fragments E d (last (Dict.keys d)) (Some df) ≫= rest) w).
Proof.
  intros rest. split; [split; reflexivity|].
  intros d unknown errors.
  assert (Hloop : check_suffixes (InDataFrame df) (Some (cell_suffixes_of df))
                    (Dict.keys d) None w
                  = mkRun (Return (last (Dict.keys d))) w errors).
  { rewrite check_suffixes_run. f_equal. by destruct (last (Dict.keys d)). }
  split; [exact Hloop|].
  unfold exportPseudoBulk.
  rewrite (run_bind_Return _ _ w (Some df, Some (cell_suffixes_of df)) w [])
    by reflexivity.
  rewrite with_calls_nil. cbn [get_fragments fst snd].
  rewrite run_bind.
  rewrite (run_bind_Return _ _ _ _ _ _ Hloop).
  unfold with_calls at 1. cbn [outcome world calls].
  destruct (outcome (load_fragments E d (last (Dict.keys d)) (Some df) w)) eqn:Hl.
  - rewrite run_bind, Hl. unfold with_calls. cbn [outcome world calls]. reflexivity.
  - rewrite run_bind, Hl. unfold with_calls. cbn [outcome world calls].
    by rewrite (assoc_L (++)).
Qed.

(** ** Formatting *)

(** The exceptions [%] raises. *)
Definition format_error (e : exn) : Prop :=
  match e with
  | TypeError _ | ValueError _ | NotModelled _ => True
  | _ => False
  end.

Lemma py_format_Raise fmt args e :
  py_format fmt args = Raise e → format_error e.
Proof.
  enough (H : (∀ args e, py_format fmt args = Raise e → format_error e)
            ∧ ∀ c rest, fmt = String c rest →
                ∀ args e, py_format rest args = Raise e → format_error e)
    by (destruct H as [H _]; apply H).
  clear args e. induction fmt as [|a fmt [IH1 IH2]].
  - split; [|done]. intros [|v args] e; simpl; [done|]. by intros [= <-].
  - split; [|by intros c rest [= _ <-]].
    intros args e. simpl. destruct (decide (a = "%"%char)) as [_|_].
    + destruct fmt as [|b fmt']; [by intros [= <-]|].
      destruct (decide (b = "%"%char)) as [_|_].
      { destruct (py_format fmt' args) as [e'|] eqn:Hf; [|done].
        intros [= <-]. by eapply IH2. }
      destruct (decide (b = "s"%char)) as [_|_].
      { destruct args as [|v args]; [by intros [= <-]|].
        destruct (py_format fmt' args) as [e'|] eqn:Hf; [|done].
        intros [= <-]. by eapply IH2. }
      destruct (PyStr.mem b conversion_chars); by intros [= <-].
    + destruct (py_format fmt args) as [e'|] eqn:Hf; [|done].
      intros [= <-]. by eapply IH1.
Qed.

(** A format without [%] is copied, and wants no arguments. *)
Lemma py_format_prefix prefix fmt args :
  "%"%char ∉ String.list_ascii_of_string prefix →
  py_format (prefix +:+ fmt) args =
    match py_format fmt args with
    | Return s => Return (prefix +:+ s)
    | Raise e => Raise e
    end.
Proof.
  induction prefix as [|a prefix IH]; intros Hp.
  - change (EmptyString +:+ fmt) with fmt. by destruct (py_format fmt args).
  - simpl in Hp. apply not_elem_of_cons in Hp as [Ha Hp].
    change (String a prefix +:+ fmt) with (String a (prefix +:+ fmt)).
    cbn [py_format]. destruct (decide (a = "%"%char)); [congruence|].
    rewrite IH by done. by destruct (py_format fmt args).
Qed.

(** ** [MACS_callPeak.callpeak] *)

Definition callpeak_cmd (self : MACS_callPeak.t) : result string :=
  py_format (MACS_callPeak.macs_path self +:+ callpeak_template)
    (MACS_callPeak.cmd_args self).

Definition callpeak_log (self : MACS_callPeak.t) (cmd : string) : call :=
  Log INFO ("Calling peaks for " +:+ MACS_callPeak.name self +:+ " with %s") [cmd].

Definition loaded_peaks (t : csv_table) : PyRanges :=
  {| columns := narrow_peak_columns; records := rows t |}.

Definition is_RuntimeError {A} (r : result A) : Prop :=
  ∃ cmd code out, r = Raise (RuntimeError cmd code out).

Section callpeak.
Context {W : Type} (E : Externals W).
Import MACS_callPeak.

(** Every way [callpeak] can end. *)
Lemma callpeak_run (self : t) (w : W) :
  callpeak E self w =
    match callpeak_cmd self with
    | Raise e => mkRun (Raise e) w []
    | Return cmd =>
        let '(code, out, w') := shell E w cmd in
        if decide (code = 0) then
          match pd_read_csv E w' (narrow_peak_file (outdir self) (name self)) with
          | inl e =>
              mkRun (Raise (IOError e)) w'
                [callpeak_log self cmd; CheckOutput cmd;
                 ReadCsv (narrow_peak_file (outdir self) (name self))]
          | inr tab =>
              mkRun (if decide (width tab = 10%nat)
                     then Return (set_narrow_peak self (loaded_peaks tab))
                     else Raise (ValueError "Length mismatch")) w'
                [callpeak_log self cmd; CheckOutput cmd;
                 ReadCsv (narrow_peak_file (outdir self) (name self))]
          end
        else mkRun (Raise (RuntimeError cmd code out)) w'
               [callpeak_log self cmd; CheckOutput cmd]
    end.
Proof.
  unfold callpeak. fold (callpeak_cmd self).
  destruct (callpeak_cmd self) as [e|cmd]; [reflexivity|].
  cbn [lift]. rewrite run_ret_bind, run_emit_bind. fold (callpeak_log self cmd).
  rewrite run_bind.
  unfold try_except_CalledProcessError, check_output.
  destruct (shell E w cmd) as [[code out] w'] eqn:Hsh.
  destruct (decide (code = 0)) as [->|Hcode]; [|reflexivity].
  cbn [outcome world calls]. unfold load_narrow_peak, read_csv.
  rewrite !run_bind. cbn beta.
  destruct (pd_read_csv E w' _) as [e|tab]; [reflexivity|].
  cbn [outcome world calls].
  change (length narrow_peak_columns) with 10%nat.
  destruct (decide (width tab = 10%nat)); reflexivity.
Qed.
End callpeak.

Example callpeak_cmd_run :
  callpeak_cmd Toy.self =
    Return "macs2 callpeak --treatment bed/T_cell.bed.gz --name T_cell  --outdir out/ --format BEDPE --gsize hs --qvalue 0.05 --nomodel --shift 73 --extsize 146 --keep-dup all --call-summits --nolambda".
Proof. reflexivity. Qed.

(** C1, as stated, fails: the command [true callpeak ...] exits with status
    0 and leaves no narrowPeak file, and [callpeak] raises the reader's
    [FileNotFoundError]. *)
Lemma callpeak_exit_zero_raises :
  let E := Toy.externals Toy.sh_true in
  ∃ cmd out w',
    callpeak_cmd Toy.self = Return cmd
    ∧ shell E Toy.disk cmd = (0, out, w')
    ∧ outcome (MACS_callPeak.callpeak E Toy.self Toy.disk)
      = Raise (IOError FileNotFoundError).
Proof. do 3 eexists. repeat split; reflexivity. Qed.

(** C1, amended.  [callpeak] raises [RuntimeError] if and only if it invokes
    the subprocess and the subprocess exits with a non-zero status.  When the
    subprocess exits with status zero, [callpeak] reads
    [outdir + name + '_peaks.narrowPeak']: if that gives a table of ten
    columns, no exception is raised and [self.narrow_peak] holds the table
    under the ten narrowPeak column names; if the read fails, the reader's
    exception is raised, which is no [RuntimeError]. *)
Theorem callpeak_RuntimeError_iff_nonzero_exit {W} (E : Externals W)
    (self : MACS_callPeak.t) (w : W) :
  let r := MACS_callPeak.callpeak E self w in
  let file :=
    MACS_callPeak.narrow_peak_file (MACS_callPeak.outdir self)
      (MACS_callPeak.name self) in
  (is_RuntimeError (outcome r) ↔
     ∃ cmd, callpeak_cmd self = Return cmd ∧ (shell E w cmd).1.1 ≠ 0)
  ∧ (∀ cmd out w',
       callpeak_cmd self = Return cmd →
       shell E w cmd = (0, out, w') →
       CheckOutput cmd ∈ calls r
       ∧ world r = w'
       ∧ match pd_read_csv E w' file with
         | inr tab =>
             width tab = 10%nat →
             outcome r = Return (MACS_callPeak.set_narrow_peak self (loaded_peaks tab))
         | inl e => outcome r = Raise (IOError e)
         end).
Proof.
  intros r file. subst r. rewrite callpeak_run. split.
  - destruct (callpeak_cmd self) as [e|cmd] eqn:Hcmd.
    + split.
      * intros (c & code & out & [= ->]).
        by apply py_format_Raise in Hcmd.
      * by intros (c & [=] & _).
    + destruct (shell E w cmd) as [[code out] w'] eqn:Hsh.
      destruct (decide (code = 0)) as [->|Hcode].
      * split.
        -- intros (c & code & out' & Hr). exfalso.
           destruct (pd_read_csv E w' _) as [e|tab]; simpl in Hr; [done|].
           by destruct (decide (width tab = 10%nat)).
        -- intros (c & [= <-] & Hne). by rewrite Hsh in Hne.
      * split.
        -- intros _. exists cmd. by rewrite Hsh.
        -- intros _. by exists cmd, code, out.
  - intros cmd out w' -> ->. rewrite decide_True by done. fold file.
    destruct (pd_read_csv E w' file) as [e|tab].
    + cbn [outcome world calls]. split; [|done].
      apply elem_of_cons; right. apply elem_of_cons; by left.
    + cbn [outcome world calls]. split; [|split; [done|]].
      * apply elem_of_cons; right. apply elem_of_cons; by left.
      * intros ->. reflexivity.
Qed.

Lemma callpeak_RuntimeError_iff_nonzero_exit_witness :
  let E := Toy.externals
             (Toy.caller 0 [("out/T_cell_peaks.narrowPeak", Toy.Table Toy.peaks)]) in
  outcome (MACS_callPeak.callpeak E Toy.self Toy.disk)
  = Return (MACS_callPeak.set_narrow_peak Toy.self (loaded_peaks Toy.peaks)).
Proof.
  intros E.
  destruct (callpeak_RuntimeError_iff_nonzero_exit E Toy.self Toy.disk) as [_ H].
  destruct (H _ _ _ eq_refl eq_refl) as (_ & _ & Hload).
  exact (Hload eq_refl).
Defined.

(** ** Dictionaries *)

Section dict_facts.
Context {V : Type}.
Implicit Types d : dict V.

Lemma dict_set_fresh d k (v : V) :
  k ∉ Dict.keys d → Dict.set d k v = d ++ [(k, v)].
Proof.
  unfold Dict.keys. induction d as [|[k' v'] d IH]; simpl; [done|].
  rewrite not_elem_of_cons. intros [Hne Hk].
  rewrite decide_False by congruence. by rewrite IH.
Qed.

Lemma dict_of_items_app d items :
  NoDup (Dict.keys d ++ items.*1) →
  foldl (λ d kv, Dict.set d kv.1 kv.2) d items = d ++ items.
Proof.
  revert d. induction items as [|[k v] items IH]; intros d Hnd; simpl.
  - by rewrite (right_id_L [] (++)).
  - simpl in Hnd. apply NoDup_app in Hnd as (Hd & Hdis & Hitems).
    apply NoDup_cons in Hitems as [Hk Hitems].
    rewrite dict_set_fresh.
    + rewrite IH; [by rewrite <- (assoc_L (++))|].
      unfold Dict.keys. rewrite fmap_app. simpl.
      rewrite <- (assoc_L (++)). simpl.
      apply NoDup_app. split; [done|]. split; [|by apply NoDup_cons].
      intros x Hx. by apply Hdis.
    + intros Hin. apply (Hdis _ Hin). left.
Qed.

(** A comprehension over distinct keys keeps its items as they come. *)
Lemma dict_of_items_NoDup (items : list (string * V)) :
  NoDup items.*1 → Dict.of_items items = items.
Proof. intros Hnd. unfold Dict.of_items. by rewrite dict_of_items_app. Qed.

Lemma dict_get_first k (v : V) (rest : dict V) :
  Dict.get ((k, v) :: rest) k = Some v.
Proof. simpl. by rewrite decide_True. Qed.

(** In a dictionary, every item is what its key looks up. *)
Lemma dict_get_item d k (v : V) :
  Dict.wf d → (k, v) ∈ d → Dict.get d k = Some v.
Proof.
  unfold Dict.wf, Dict.keys. induction d as [|[k' v'] d IH]; simpl.
  - intros _ H. by apply elem_of_nil in H.
  - intros [Hk Hnd]%NoDup_cons [[= -> ->]|Hin]%elem_of_cons.
    + by rewrite decide_True.
    + rewrite decide_False; [by apply IH|].
      intros ->. apply Hk. apply list_elem_of_fmap. by exists (k, v).
Qed.
End dict_facts.

(** ** Comprehensions and tasks *)

(** The tasks all returned: [ran tasks w results w' cs]. *)
Inductive ran {W A} : list (M W A) → W → list A → W → list call → Prop :=
  | ran_nil w : ran [] w [] w []
  | ran_cons t tasks w a w1 cs1 results w2 cs2 :
      t w = mkRun (Return a) w1 cs1 →
      ran tasks w1 results w2 cs2 →
      ran (t :: tasks) w (a :: results) w2 (cs1 ++ cs2).

(** Every call of the trace satisfies [φ], whatever the world. *)
Definition quiet {W A} (φ : call → Prop) (m : M W A) : Prop :=
  ∀ w, Forall φ (calls (m w)).

Section sequence_facts.
Context {W : Type}.
Implicit Types w : W.

Lemma calls_bind {A B} (m : M W A) (k : A → M W B) w :
  calls ((m ≫= k) w) =
    calls (m w) ++ match outcome (m w) with
                   | Return a => calls (k a (world (m w)))
                   | Raise _ => []
                   end.
Proof.
  rewrite run_bind. destruct (outcome (m w)); simpl; [|done].
  by rewrite (right_id_L [] (++)).
Qed.

Lemma quiet_ret {A} φ (a : A) : quiet (W:=W) φ (ret a).
Proof. intros w. constructor. Qed.

Lemma quiet_mret {A} φ (a : A) : quiet (W:=W) φ (mret a).
Proof. intros w. constructor. Qed.

Lemma quiet_raise {A} φ e : quiet (W:=W) (A:=A) φ (raise e).
Proof. intros w. constructor. Qed.

Lemma quiet_emit φ c : φ c → quiet (W:=W) φ (emit c).
Proof. intros Hc w. by repeat constructor. Qed.

Lemma quiet_bind {A B} φ (m : M W A) (k : A → M W B) :
  quiet φ m → (∀ a, quiet φ (k a)) → quiet φ (m ≫= k).
Proof.
  intros Hm Hk w. rewrite calls_bind. apply Forall_app. split; [apply Hm|].
  destruct (outcome (m w)); [constructor|apply Hk].
Qed.

Lemma quiet_list_getitem {A} φ (l : list A) i : quiet (W:=W) φ (list_getitem l i).
Proof. unfold list_getitem. destruct (l !! i); [apply quiet_mret|apply quiet_raise]. Qed.

Lemma quiet_for_each {A B} φ (f : A → M W B) l :
  (∀ x, quiet φ (f x)) → quiet φ (for_each f l).
Proof.
  intros Hf. induction l as [|x l IH]; [apply quiet_mret|].
  cbn [for_each]. apply quiet_bind; [apply Hf|]. intros y.
  apply quiet_bind; [apply IH|]. intros ys. apply quiet_mret.
Qed.

(** A comprehension over [range(len(l))] that indexes [l] is one over [l]. *)
Lemma for_each_range {A B} (f : nat → M W B) (g : A → M W B) (l : list A) w :
  (∀ i a w, l !! i = Some a → f i w = g a w) →
  for_each f (seq 0 (length l)) w = for_each g l w.
Proof.
  enough (H : ∀ j w, (∀ i a w, l !! i = Some a → f (j + i)%nat w = g a w) →
                     for_each f (seq j (length l)) w = for_each g l w)
    by (apply (H 0%nat)).
  clear w. induction l as [|a l IH]; intros j w Hfg; [done|].
  cbn [length seq for_each]. rewrite !run_bind.
  replace (f j w) with (g a w)
    by (symmetry; rewrite <- (Nat.add_0_r j) at 1; by apply Hfg).
  destruct (outcome (g a w)); [done|]. f_equal.
  rewrite !run_bind, (IH (S j)); [done|].
  intros i b w' Hi. replace (S j + i)%nat with (j + S i)%nat by lia.
  by apply Hfg.
Qed.

(** A comprehension whose body returns a value without any effect. *)
Lemma for_each_pure {A B} (f : A → M W B) (g : A → B) l w :
  (∀ x w, x ∈ l → f x w = mkRun (Return (g x)) w []) →
  for_each f l w = mkRun (Return (g <$> l)) w [].
Proof.
  revert w. induction l as [|x l IH]; intros w Hf; [done|].
  cbn [for_each]. rewrite (run_bind_Return _ _ _ _ _ _ (Hf x w ltac:(left))).
  rewrite with_calls_nil.
  rewrite (run_bind_Return _ _ _ _ _ _ (IH w ltac:(intros; apply Hf; by right))).
  reflexivity.
Qed.

(** Every call of [ray.get] is a call of one of its tasks. *)
Lemma run_tasks_Forall {A} φ (E : Externals W) (tasks : list (M W A)) :
  Forall (quiet φ) tasks →
  ∀ seen_failure w, Forall φ (run_tasks E seen_failure tasks w).2.
Proof.
  induction 1 as [|t tasks Ht _ IH]; intros seen_failure w; [constructor|].
  cbn [run_tasks].
  destruct (seen_failure && negb (ray_get_waits E w)); [constructor|]. cbn zeta.
  specialize (IH (seen_failure || failed (outcome (t w))) (world (t w))).
  destruct (run_tasks E _ tasks (world (t w))) as [[rs w'] cs].
  cbn [snd] in *. apply Forall_app. split; [apply Ht|exact IH].
Qed.

Lemma ray_get_calls {A} (E : Externals W) (tasks : list (M W A)) w :
  calls (ray_get E tasks w) = (run_tasks E false tasks w).2.
Proof. unfold ray_get. by destruct (run_tasks E false tasks w) as [[rs w'] cs]. Qed.

(** While no task has failed, [ray.get] runs the next one. *)
Lemma ray_get_cons_Return {A} (E : Externals W) (t : M W A) tasks w a :
  outcome (t w) = Return a →
  ray_get E (t :: tasks) w =
    let r := ray_get E tasks (world (t w)) in
    mkRun (match outcome r with
           | Return l => Return (a :: l)
           | Raise e => Raise e
           end) (world r) (calls (t w) ++ calls r).
Proof.
  intros Ht. unfold ray_get. cbn [run_tasks andb]. cbn zeta. rewrite Ht.
  cbn [orb failed]. by destruct (run_tasks E false tasks (world (t w))) as [[rs w'] cs].
Qed.

Lemma ray_get_cons_Raise {A} (E : Externals W) (t : M W A) tasks w e :
  outcome (t w) = Raise e →
  outcome (ray_get E (t :: tasks) w) = Raise e.
Proof.
  intros Ht. unfold ray_get. cbn [run_tasks andb]. cbn zeta. rewrite Ht.
  by destruct (run_tasks E _ tasks (world (t w))) as [[rs w'] cs].
Qed.

(** When [ray.get] returns, every task returned. *)
Lemma ray_get_Return_inv {A} (E : Externals W) (tasks : list (M W A)) w results :
  outcome (ray_get E tasks w) = Return results →
  ∃ w' cs, ran tasks w results w' cs
         ∧ ray_get E tasks w = mkRun (Return results) w' cs.
Proof.
  revert w results. induction tasks as [|t tasks IH]; intros w results.
  - intros [= <-]. exists w, []. split; [constructor|done].
  - destruct (outcome (t w)) as [e|a] eqn:Ht.
    + by rewrite (ray_get_cons_Raise E t tasks w e Ht).
    + rewrite (ray_get_cons_Return E t tasks w a Ht). cbn zeta. cbn [outcome].
      destruct (outcome (ray_get E tasks (world (t w)))) as [e|l] eqn:Hl; [done|].
      intros [= <-]. destruct (IH _ _ Hl) as (w' & cs & Hran & Hrun).
      exists w', (calls (t w) ++ cs). split.
      * econstructor; [|exact Hran]. rewrite (run_eta (t w)). by rewrite Ht.
      * rewrite Hrun. reflexivity.
Qed.

(** And when every task returns, so does [ray.get]. *)
Lemma ran_ray_get {A} (E : Externals W) (tasks : list (M W A)) w results w' cs :
  ran tasks w results w' cs →
  ray_get E tasks w = mkRun (Return results) w' cs.
Proof.
  induction 1 as [|t tasks w a w1 cs1 results w2 cs2 Ht _ IH]; [done|].
  etrans; [apply (ray_get_cons_Return E t tasks w a); by rewrite Ht|].
  rewrite Ht. cbn [world calls]. rewrite IH. reflexivity.
Qed.

End sequence_facts.

(** ** [peakCalling]: the commands *)

(** The command lines among the calls of a trace. *)
Definition commands (cs : list call) : list string :=
  omap (λ c, match c with CheckOutput cmd => Some cmd | _ => None end) cs.

Definition not_a_command (c : call) : Prop :=
  match c with CheckOutput _ => False | _ => True end.

(** The command line as the documentation of MACS2 has it, with the values
    in the places of the [%s]. *)
Definition macs_command (macs_path bed_path name outdir genome_size : string)
    (input_format shift ext_size keep_dup q_value : pyval) : string :=
  macs_path +:+ " callpeak --treatment " +:+ bed_path +:+ " --name " +:+ name
  +:+ "  --outdir " +:+ outdir +:+ " --format " +:+ py_str input_format
  +:+ " --gsize " +:+ genome_size +:+ " --qvalue " +:+ py_str q_value
  +:+ " --nomodel --shift " +:+ py_str shift +:+ " --extsize " +:+ py_str ext_size
  +:+ " --keep-dup " +:+ py_str keep_dup +:+ " --call-summits --nolambda".

(** The instance [__init__] fills in before it calls [callpeak]. *)
Definition new_MACS_callPeak (macs_path bed_path name outdir genome_size : string)
    (input_format shift ext_size keep_dup q_value : pyval) : MACS_callPeak.t :=
  {| MACS_callPeak.macs_path := macs_path; MACS_callPeak.treatment := bed_path;
     MACS_callPeak.name := name; MACS_callPeak.outdir := outdir;
     MACS_callPeak.format := input_format; MACS_callPeak.gsize := genome_size;
     MACS_callPeak.shift := shift; MACS_callPeak.ext_size := ext_size;
     MACS_callPeak.keep_dup := keep_dup; MACS_callPeak.qvalue := q_value;
     MACS_callPeak.narrow_peak := None |}.

Lemma commands_app cs1 cs2 : commands (cs1 ++ cs2) = commands cs1 ++ commands cs2.
Proof. apply omap_app. Qed.

Lemma commands_quiet cs : Forall not_a_command cs → commands cs = [].
Proof.
  induction 1 as [|c cs Hc _ IH]; [done|]. unfold commands. simpl.
  destruct c; try done. 
Qed.

(** Where [macs_path] has no [%], the [%] of [callpeak] builds the command
    line of the documentation. *)
Lemma callpeak_cmd_no_percent macs_path bed_path name outdir genome_size
    input_format shift ext_size keep_dup q_value :
  "%"%char ∉ String.list_ascii_of_string macs_path →
  callpeak_cmd (new_MACS_callPeak macs_path bed_path name outdir genome_size
                  input_format shift ext_size keep_dup q_value)
  = Return (macs_command macs_path bed_path name outdir genome_size
              input_format shift ext_size keep_dup q_value).
Proof.
  intros Hp. unfold callpeak_cmd. cbn [new_MACS_callPeak MACS_callPeak.macs_path].
  rewrite py_format_prefix by done. reflexivity.
Qed.

Section peak_calling_facts.
Context {W : Type} (E : Externals W).
Context (macs_path outdir genome_size : string).
Context (input_format shift ext_size keep_dup q_value : pyval).

(** The task of one item of [bed_paths]. *)
Definition peak_task (item : string * string) : M W MACS_callPeak.t :=
  MACS_callPeak_ray E macs_path item.2 item.1 outdir genome_size input_format
    shift ext_size keep_dup q_value.

Definition peak_object (item : string * string) : MACS_callPeak.t :=
  new_MACS_callPeak macs_path item.2 item.1 outdir genome_size input_format
    shift ext_size keep_dup q_value.

Definition done_log (name : string) : call := Log INFO (name +:+ " done!") [].

Lemma peak_task_run (item : string * string) (w : W) :
  peak_task item w =
    let r := MACS_callPeak.callpeak E (peak_object item) w in
    match outcome r with
    | Raise e => mkRun (Raise e) (world r) (calls r)
    | Return obj => mkRun (Return obj) (world r) (calls r ++ [done_log item.1])
    end.
Proof.
  unfold peak_task, MACS_callPeak_ray, MACS_callPeak.init.
  rewrite run_bind. fold (new_MACS_callPeak macs_path item.2 item.1 outdir
                            genome_size input_format shift ext_size keep_dup q_value).
  fold (peak_object item).
  by destruct (outcome (MACS_callPeak.callpeak E (peak_object item) w)).
Qed.

Lemma callpeak_commands (self : MACS_callPeak.t) (w : W) :
  commands (calls (MACS_callPeak.callpeak E self w)) =
    match callpeak_cmd self with
    | Return cmd => [cmd]
    | Raise _ => []
    end.
Proof.
  rewrite callpeak_run. destruct (callpeak_cmd self) as [e|cmd]; [done|].
  destruct (shell E w cmd) as [[code out] w'].
  destruct (decide (code = 0)); [|done].
  by destruct (pd_read_csv E w' _).
Qed.

Lemma peak_task_commands (item : string * string) (w : W) :
  commands (calls (peak_task item w)) =
    match callpeak_cmd (peak_object item) with
    | Return cmd => [cmd]
    | Raise _ => []
    end.
Proof.
  rewrite peak_task_run. cbn zeta. rewrite <- (callpeak_commands _ w).
  destruct (outcome (MACS_callPeak.callpeak E (peak_object item) w)); [done|].
  cbn [calls]. rewrite commands_app. simpl. by rewrite (right_id_L [] (++)).
Qed.

(** The comprehension that submits the tasks, one per key, in key order. *)
Lemma peak_tasks_run (bed_paths : dict string) (w : W) :
  Dict.wf bed_paths →
  for_each (λ name,
              bed_path ← dict_getitem bed_paths name;
              mret (MACS_callPeak_ray E macs_path bed_path name outdir
                      genome_size input_format shift ext_size keep_dup q_value))
           (Dict.keys bed_paths) w
  = mkRun (Return (peak_task <$> bed_paths)) w [].
Proof.
  intros Hwf.
  enough (H : ∀ items : list (string * string), items ⊆ bed_paths →
            for_each (λ name,
                        bed_path ← dict_getitem bed_paths name;
                        mret (MACS_callPeak_ray E macs_path bed_path name outdir
                                genome_size input_format shift ext_size keep_dup
                                q_value))
                     items.*1 w
            = mkRun (Return (peak_task <$> items)) w [])
    by (apply H; done).
  intros items. induction items as [|[name bed] items IH]; intros Hsub; [done|].
  cbn [fmap list_fmap for_each fst].
  assert (Hget : Dict.get bed_paths name = Some bed).
  { apply dict_get_item; [done|]. apply Hsub. left. }
  rewrite (run_bind_Return _ _ w (peak_task (name, bed)) w []).
  - rewrite with_calls_nil. rewrite (run_bind_Return _ _ _ _ _ _ (IH ltac:(intros x Hx; apply Hsub; by right))).
    reflexivity.
  - unfold dict_getitem. rewrite Hget. reflexivity.
Qed.

(** The tasks start their commands in the order of submission; the tasks
    that ray does not run once one has failed start none. *)
Lemma run_tasks_commands (items : list (string * string)) seen_failure (w : W) :
  commands (run_tasks E seen_failure (peak_task <$> items) w).2 `sublist_of`
    mjoin ((λ item, match callpeak_cmd (peak_object item) with
                    | Return cmd => [cmd]
                    | Raise _ => []
                    end) <$> items).
Proof.
  revert seen_failure w.
  induction items as [|item items IH]; intros seen_failure w; [done|].
  cbn [fmap list_fmap mjoin list_join run_tasks].
  destruct (seen_failure && negb (ray_get_waits E w)); [apply sublist_nil_l|].
  cbn zeta. fold (fmap peak_task items).
  specialize (IH (seen_failure || failed (outcome (peak_task item w)))
                 (world (peak_task item w))).
  destruct (run_tasks E _ (peak_task <$> items) (world (peak_task item w)))
    as [[rs w'] cs].
  cbn [snd] in *. rewrite commands_app, peak_task_commands. by apply sublist_app.
Qed.

Lemma ran_commands (items : list (string * string)) (w : W) objs w' cs :
  ran (peak_task <$> items) w objs w' cs →
  commands cs =
    mjoin ((λ item, match callpeak_cmd (peak_object item) with
                    | Return cmd => [cmd]
                    | Raise _ => []
                    end) <$> items).
Proof.
  revert w objs cs. induction items as [|item items IH]; intros w objs cs Hran.
  - by inversion Hran.
  - inversion Hran as [|t tasks w0 obj w1 cs1 objs' w2 cs2 Ht Hran']; subst.
    cbn [fmap list_fmap mjoin list_join]. rewrite commands_app.
    rewrite <- (peak_task_commands item w), Ht. cbn [calls]. f_equal.
    by eapply IH.
Qed.

Lemma peakCalling_run (bed_paths : dict string) (n_cpu : option Z) (w : W) :
  Dict.wf bed_paths →
  peakCalling E macs_path bed_paths outdir genome_size n_cpu input_format
    shift ext_size keep_dup q_value w
  = with_calls [RayInit n_cpu]
      ((narrow_peaks ← ray_get E (peak_task <$> bed_paths);
        emit RayShutdown;;
        items ← for_each (λ i,
                            k ← list_getitem (Dict.keys bed_paths) i;
                            obj ← list_getitem narrow_peaks i;
                            p ← get_narrow_peak obj;
                            mret (k, p))
                         (seq 0 (length narrow_peaks));
        mret (Dict.of_items items)) w).
Proof.
  intros Hwf. unfold peakCalling. rewrite run_emit_bind. f_equal.
  rewrite (run_bind_Return _ _ _ _ _ _ (peak_tasks_run bed_paths w Hwf)).
  by rewrite with_calls_nil.
Qed.

Lemma documented_commands (bed_paths : dict string) :
  "%"%char ∉ String.list_ascii_of_string macs_path →
  mjoin ((λ item, match callpeak_cmd (peak_object item) with
                  | Return cmd => [cmd]
                  | Raise _ => []
                  end) <$> bed_paths)
  = (λ item, macs_command macs_path item.2 item.1 outdir genome_size
               input_format shift ext_size keep_dup q_value) <$> bed_paths.
Proof.
  intros Hp. induction bed_paths as [|item items IH]; [done|].
  cbn [fmap list_fmap mjoin list_join]. unfold peak_object at 1.
  rewrite callpeak_cmd_no_percent by done. simpl. f_equal. exact IH.
Qed.

(** X1.  Where [macs_path] has no [%], the subprocesses that a run of
    [peakCalling] starts are, in key order, those of items of [bed_paths],
    at most one for an item, each with the command line of the
    documentation; a run that returns has started the subprocess of every
    item. *)
Lemma peakCalling_commands (bed_paths : dict string) (n_cpu : option Z) (w : W) :
  Dict.wf bed_paths →
  "%"%char ∉ String.list_ascii_of_string macs_path →
  let r := peakCalling E macs_path bed_paths outdir genome_size n_cpu
             input_format shift ext_size keep_dup q_value w in
  let documented :=
    (λ item, macs_command macs_path item.2 item.1 outdir genome_size
               input_format shift ext_size keep_dup q_value) <$> bed_paths in
  commands (calls r) `sublist_of` documented
  ∧ ∀ d, outcome r = Return d → commands (calls r) = documented.
Proof.
  intros Hwf Hp r documented. subst r documented.
  rewrite peakCalling_run by done.
  unfold with_calls. cbn [outcome calls]. rewrite commands_app. cbn [commands omap app].
  rewrite calls_bind, commands_app.
  assert (Hrest : commands
            match outcome (ray_get E (peak_task <$> bed_paths) w) with
            | Return narrow_peaks =>
                calls ((emit RayShutdown;;
                        items ← for_each (λ i,
                                   k ← list_getitem (Dict.keys bed_paths) i;
                                   obj ← list_getitem narrow_peaks i;
                                   p ← get_narrow_peak obj;
                                   mret (k, p))
                                 (seq 0 (length narrow_peaks));
                        mret (Dict.of_items items))
                         (world (ray_get E (peak_task <$> bed_paths) w)))
            | Raise _ => []
            end = []).
  { apply commands_quiet.
    destruct (outcome (ray_get E _ w)) as [e|objs]; [constructor|].
    apply quiet_bind; [by apply quiet_emit|]. intros _.
    apply quiet_bind; [|intros; apply quiet_mret].
    apply quiet_for_each. intros i.
    apply quiet_bind; [apply quiet_list_getitem|]. intros k.
    apply quiet_bind; [apply quiet_list_getitem|]. intros obj.
    apply quiet_bind; [|intros; apply quiet_mret].
    unfold get_narrow_peak. destruct (MACS_callPeak.narrow_peak obj);
      [apply quiet_mret|apply quiet_raise]. }
  rewrite Hrest, (right_id_L [] (++)), <- documented_commands by done.
  split; [rewrite ray_get_calls; apply run_tasks_commands|].
  intros d Hret.
  apply bind_Return_inv in Hret as (objs & Hobjs & _ & _).
  apply ray_get_Return_inv in Hobjs as (w' & cs & Hran & Hrun).
  rewrite Hrun. cbn [calls]. by eapply ran_commands.
Qed.
(** ** [peakCalling]: the result *)

(** What the claim describes: for each item of [bed_paths] in turn, the peak
    caller is run on the item's bed file and exits with status 0; the table
    then read from [outdir + name + '_peaks.narrowPeak'] has ten columns, and
    the result holds it under [name]. *)
Inductive narrow_peaks_of : W → dict string → dict PyRanges → Prop :=
  | peaks_nil w : narrow_peaks_of w [] []
  | peaks_cons w name bed_path rest cmd out w' tab d :
      callpeak_cmd (peak_object (name, bed_path)) = Return cmd →
      shell E w cmd = (0, out, w') →
      pd_read_csv E w' (MACS_callPeak.narrow_peak_file outdir name) = inr tab →
      width tab = 10%nat →
      narrow_peaks_of w' rest d →
      narrow_peaks_of w ((name, bed_path) :: rest) ((name, loaded_peaks tab) :: d).

Lemma narrow_peaks_of_keys w bed_paths d :
  narrow_peaks_of w bed_paths d → Dict.keys d = Dict.keys bed_paths.
Proof. induction 1; [done|]. unfold Dict.keys in *. simpl. by f_equal. Qed.

Lemma peak_task_Return_inv (item : string * string) (w : W) obj :
  outcome (peak_task item w) = Return obj →
  ∃ cmd out w' tab,
    callpeak_cmd (peak_object item) = Return cmd
    ∧ shell E w cmd = (0, out, w')
    ∧ pd_read_csv E w' (MACS_callPeak.narrow_peak_file outdir item.1) = inr tab
    ∧ width tab = 10%nat
    ∧ MACS_callPeak.narrow_peak obj = Some (loaded_peaks tab)
    ∧ world (peak_task item w) = w'.
Proof.
  rewrite peak_task_run. cbn zeta. rewrite callpeak_run.
  destruct (callpeak_cmd (peak_object item)) as [e|cmd]; [done|].
  destruct (shell E w cmd) as [[code out] w'] eqn:Hsh.
  destruct (decide (code = 0)) as [->|]; [|done].
  change (MACS_callPeak.outdir (peak_object item)) with outdir.
  change (MACS_callPeak.name (peak_object item)) with item.1.
  destruct (pd_read_csv E w' _) as [e|tab] eqn:Hread; [done|].
  cbn [outcome world calls].
  destruct (decide (width tab = 10%nat)) as [Hw|]; [|done].
  intros [= <-]. by exists cmd, out, w', tab.
Qed.

Lemma ran_length {A} (tasks : list (M W A)) w results w' cs :
  ran tasks w results w' cs → length results = length tasks.
Proof. induction 1; simpl; congruence. Qed.

Lemma ran_narrow_peaks (items : dict string) w objs w' cs ps :
  ran (peak_task <$> items) w objs w' cs →
  Forall2 (λ obj p, MACS_callPeak.narrow_peak obj = Some p) objs ps →
  narrow_peaks_of w items (zip items.*1 ps).
Proof.
  revert w objs cs ps. induction items as [|[name bed] items IH];
    intros w objs cs ps Hran Hps.
  - inversion Hran; subst. inversion Hps; subst. constructor.
  - inversion Hran as [|t tasks w0 obj w1 cs1 objs' w2 cs2 Ht Hran']; subst.
    inversion Hps as [|obj0 p objs0 ps' Hp Hps']; subst.
    destruct (peak_task_Return_inv (name, bed) w obj) as
      (cmd & out & w'' & tab & Hcmd & Hsh & Hread & Hwidth & Hobj & Hw);
      [by rewrite Ht|].
    rewrite Ht in Hw. simpl in Hw. subst w''.
    rewrite Hobj in Hp. injection Hp as <-.
    simpl. econstructor; eauto.
Qed.

Lemma get_narrow_peaks_Return_inv (keys : list string)
    (objs : list MACS_callPeak.t) (w : W) items :
  length keys = length objs →
  outcome (for_each (λ ko : string * MACS_callPeak.t,
                       p ← get_narrow_peak ko.2; mret (ko.1, p))
                    (zip keys objs) w) = Return items →
  ∃ ps, items = zip keys ps
      ∧ Forall2 (λ obj p, MACS_callPeak.narrow_peak obj = Some p) objs ps.
Proof.
  revert objs w items. induction keys as [|k keys IH]; intros [|obj objs] w items Hlen;
    try done.
  - intros [= <-]. by exists [].
  - cbn [zip zip_with for_each]. intros Hret.
    apply bind_Return_inv in Hret as (kp & Hkp & Hret & _).
    apply bind_Return_inv in Hret as (rest & Hrest & Hret & _).
    injection Hret as <-.
    unfold get_narrow_peak in Hkp. cbn [snd fst] in Hkp.
    destruct (MACS_callPeak.narrow_peak obj) as [p|] eqn:Hp; [|done].
    rewrite run_mret_bind in Hkp. injection Hkp as <-.
    apply IH in Hrest as (ps & -> & Hps); [|simpl in Hlen; lia].
    exists (p :: ps). split; [done|]. by constructor.
Qed.

(** C6.  When [peakCalling] returns, its dictionary has the keys of
    [bed_paths], in the same order, and under each key the [PyRanges] of the
    table read from [outdir + name + '_peaks.narrowPeak'] after the peak
    caller ran on that key's bed file. *)
Theorem peakCalling_narrow_peaks (bed_paths : dict string) (n_cpu : option Z)
    (w : W) (d : dict PyRanges) :
  Dict.wf bed_paths →
  outcome (peakCalling E macs_path bed_paths outdir genome_size n_cpu
             input_format shift ext_size keep_dup q_value w) = Return d →
  Dict.keys d = Dict.keys bed_paths ∧ narrow_peaks_of w bed_paths d.
Proof.
  intros Hwf. rewrite peakCalling_run by done. unfold with_calls. cbn [outcome].
  intros Hret.
  apply bind_Return_inv in Hret as (objs & Hobjs & Hret & _).
  apply ray_get_Return_inv in Hobjs as (w' & cs & Hran & Hrun).
  rewrite Hrun in Hret. cbn [world] in Hret.
  rewrite run_emit_bind in Hret. unfold with_calls in Hret. cbn [outcome] in Hret.
  apply bind_Return_inv in Hret as (items & Hitems & Hret & _).
  injection Hret as <-.
  assert (Hlen : length (Dict.keys bed_paths) = length objs).
  { apply ran_length in Hran. unfold Dict.keys.
    rewrite Hran, !length_fmap. done. }
  replace (length objs) with (length (zip (Dict.keys bed_paths) objs)) in Hitems
    by (rewrite length_zip_with; lia).
  rewrite (for_each_range _
             (λ ko : string * MACS_callPeak.t,
                p ← get_narrow_peak ko.2; mret (ko.1, p))) in Hitems.
  - apply get_narrow_peaks_Return_inv in Hitems as (ps & -> & Hps); [|done].
    assert (Hd : narrow_peaks_of w bed_paths (zip (Dict.keys bed_paths) ps))
      by (eapply ran_narrow_peaks; eauto).
    rewrite dict_of_items_NoDup.
    + split; [|done]. by eapply narrow_peaks_of_keys.
    + apply narrow_peaks_of_keys in Hd.
      change (NoDup (Dict.keys (zip (Dict.keys bed_paths) ps))).
      rewrite Hd. exact Hwf.
  - intros i [k obj] w0 Hi.
    apply lookup_zip_with_Some in Hi as (k' & obj' & [= <- <-] & Hk & Hobj).
    unfold list_getitem. rewrite Hk, Hobj. by rewrite !run_mret_bind.
Qed.
End peak_calling_facts.

Definition two_groups : dict string :=
  [("T_cell", "bed/T_cell.bed.gz"); ("B_cell", "bed/B_cell.bed.gz")].

(** A peak caller that exits with status 0 and leaves both narrowPeak files. *)
Definition good_caller : Toy.fs → string → Z * string * Toy.fs :=
  Toy.caller 0 [("out/T_cell_peaks.narrowPeak", Toy.Table Toy.peaks);
                ("out/B_cell_peaks.narrowPeak", Toy.Table Toy.peaks)].

Lemma peakCalling_narrow_peaks_witness :
  narrow_peaks_of (Toy.externals good_caller) "macs2" "out/" "hs"
    (PyStr "BEDPE") (PyInt 73) (PyInt 146) (PyStr "all") (PyFloat "0.05")
    Toy.disk two_groups
    [("T_cell", loaded_peaks Toy.peaks); ("B_cell", loaded_peaks Toy.peaks)].
Proof.
  apply (peakCalling_narrow_peaks (Toy.externals good_caller) "macs2" "out/" "hs"
           (PyStr "BEDPE") (PyInt 73) (PyInt 146) (PyStr "all") (PyFloat "0.05")
           two_groups (Some 1) Toy.disk).
  - apply (bool_decide_unpack _). vm_compute. exact I.
  - vm_compute. reflexivity.
Defined.

Example peakCalling_commands_run :
  commands (calls (peakCalling (Toy.externals good_caller) "macs2" two_groups
                     "out/" "hs" (Some 1) (PyStr "BEDPE") (PyInt 73) (PyInt 146)
                     (PyStr "all") (PyFloat "0.05") Toy.disk))
  = ["macs2 callpeak --treatment bed/T_cell.bed.gz --name T_cell  --outdir out/ --format BEDPE --gsize hs --qvalue 0.05 --nomodel --shift 73 --extsize 146 --keep-dup all --call-summits --nolambda";
     "macs2 callpeak --treatment bed/B_cell.bed.gz --name B_cell  --outdir out/ --format BEDPE --gsize hs --qvalue 0.05 --nomodel --shift 73 --extsize 146 --keep-dup all --call-summits --nolambda"].
Proof. vm_compute. reflexivity. Qed.

(** C5 fails on the code where [macs_path] has a [%]: [callpeak] appends its
    template to [macs_path] and only then applies [%], so the [%/] of the
    path is read as a conversion.  [ValueError] is raised for each group
    before any subprocess is started; for a [macs_path] without [%] the
    command lines are the claimed ones. *)
Lemma peakCalling_percent_in_macs_path :
  let r := peakCalling (Toy.externals good_caller) "/opt/100%/bin/macs2"
             two_groups "out/" "hs" (Some 1) (PyStr "BEDPE") (PyInt 73)
             (PyInt 146) (PyStr "all") (PyFloat "0.05") Toy.disk in
  outcome r = Raise (ValueError "unsupported format character")
  ∧ commands (calls r) = [].
Proof. split; vm_compute; reflexivity. Qed.

(** ** The files written *)

(** The calls that write a file. *)
Definition is_write (c : call) : Prop :=
  match c with
  | ToBigwig _ _ _ _ _ | ToBed _ _ => True
  | _ => False
  end.

#[global] Instance is_write_dec c : Decision (is_write c).
Proof. destruct c; simpl; apply _. Defined.

Definition writes (cs : list call) : list call := filter is_write cs.

(** The bed files and the bigwig files written, in order. *)
Definition bed_files (cs : list call) : list string :=
  omap (λ c, match c with ToBed path _ => Some path | _ => None end) cs.

Definition bigwig_files (cs : list call) : list string :=
  omap (λ c, match c with ToBigwig path _ _ _ _ => Some path | _ => None end) cs.

(** The fragments files read, in order. *)
Definition reads (cs : list call) : list string :=
  omap (λ c, match c with ReadBed path => Some path | _ => None end) cs.

Definition bigwig_file (bigwig_path group : string) : string :=
  bigwig_path +:+ group +:+ ".bw".

Definition bed_file (bed_path group : string) : string :=
  bed_path +:+ group +:+ ".bed.gz".

(** The two writes of a group, for the rows [group_rows]. *)
Definition group_writes (bigwig_path bed_path : string) (chromsizes : chrom_rows)
    (normalize_bigwig : option bool) (group : string) (group_rows : fragments_df)
    : list call :=
  [ToBigwig (bigwig_file bigwig_path group) group_rows chromsizes normalize_bigwig None;
   ToBed (bed_file bed_path group) group_rows].

Lemma writes_app cs1 cs2 : writes (cs1 ++ cs2) = writes cs1 ++ writes cs2.
Proof. apply filter_app. Qed.

Lemma writes_quiet cs : Forall (λ c, ¬ is_write c) cs → writes cs = [].
Proof.
  induction 1 as [|c cs Hc _ IH]; [done|].
  unfold writes. rewrite filter_cons_False by done. exact IH.
Qed.

Lemma reads_app cs1 cs2 : reads (cs1 ++ cs2) = reads cs1 ++ reads cs2.
Proof. apply omap_app. Qed.

Lemma bed_files_writes cs : bed_files (writes cs) = bed_files cs.
Proof.
  induction cs as [|c cs IH]; [done|]. unfold writes, bed_files in *.
  rewrite filter_cons. destruct c; simpl; try done. f_equal. exact IH.
Qed.

Lemma bigwig_files_writes cs : bigwig_files (writes cs) = bigwig_files cs.
Proof.
  induction cs as [|c cs IH]; [done|]. unfold writes, bigwig_files in *.
  rewrite filter_cons. destruct c; simpl; try done. f_equal. exact IH.
Qed.

(** ** Groups *)

Lemma sorted_set_NoDup (s : Series) : NoDup (sorted_set s).
Proof.
  unfold sorted_set. rewrite merge_sort_Permutation. apply NoDup_remove_dups.
Qed.

Lemma elem_of_sorted_set (s : Series) (g : string) :
  g ∈ sorted_set s ↔ g ∈ s.*2.
Proof.
  unfold sorted_set. rewrite merge_sort_Permutation. apply elem_of_remove_dups.
Qed.

Lemma sorted_set_Sorted (s : Series) : Sorted String.le (sorted_set s).
Proof. apply Sorted_merge_sort. apply _. Qed.

Lemma elem_of_index_where (s : Series) (value barcode : string) :
  barcode ∈ index_where s value ↔ (barcode, value) ∈ s.
Proof.
  unfold index_where. rewrite list_elem_of_fmap. split.
  - intros ([b v] & -> & [Hv Hin]%list_elem_of_filter). simpl in *. by subst.
  - intros Hin. exists (barcode, value). split; [done|].
    by apply list_elem_of_filter.
Qed.

(** The rows of a group: the named records whose barcode is in the index of
    the cell metadata and is annotated with [group]. *)
Definition rows_of (cell_data : DataFrame) (group_var : Series)
    (named : fragments_df) (group : string) : fragments_df :=
  filter (λ f, Name f ∈ df_index cell_data ∧ (Name f, group) ∈ group_var) named.

Lemma group_rows_of (cell_data : DataFrame) (group_var : Series)
    (named : fragments_df) (group : string) :
  Name_isin (index_where group_var group) (Name_isin (df_index cell_data) named)
  = rows_of cell_data group_var named group.
Proof.
  unfold Name_isin, rows_of.
  rewrite (list_filter_filter (λ f, Name f ∈ index_where group_var group)
             (λ f, Name f ∈ df_index cell_data)).
  apply list_filter_iff. intros f. rewrite elem_of_index_where. tauto.
Qed.

(** Distinct groups have distinct files. *)
Lemma string_length_app (s1 s2 : string) :
  String.length (s1 +:+ s2) = (String.length s1 + String.length s2)%nat.
Proof.
  induction s1 as [|a s1 IH]; [done|].
  change (String a s1 +:+ s2) with (String a (s1 +:+ s2)). simpl. by rewrite IH.
Qed.

Lemma string_app_inj_r (s g1 g2 : string) : g1 +:+ s = g2 +:+ s → g1 = g2.
Proof.
  revert g2. induction g1 as [|a g1 IH]; intros [|b g2] H; [done| | |].
  - apply (f_equal String.length) in H. rewrite !string_length_app in H.
    simpl in H. lia.
  - apply (f_equal String.length) in H. rewrite !string_length_app in H.
    simpl in H. lia.
  - change (String a (g1 +:+ s) = String b (g2 +:+ s)) in H.
    injection H as -> H. f_equal. by apply IH.
Qed.

Lemma bed_file_inj bed_path : Inj (=) (=) (bed_file bed_path).
Proof.
  intros g1 g2 H. unfold bed_file in H.
  apply (inj (String.app bed_path)) in H. by apply string_app_inj_r in H.
Qed.

Lemma bigwig_file_inj bigwig_path : Inj (=) (=) (bigwig_file bigwig_path).
Proof.
  intros g1 g2 H. unfold bigwig_file in H.
  apply (inj (String.app bigwig_path)) in H. by apply string_app_inj_r in H.
Qed.

Lemma last_char_app (s1 s2 : string) :
  s2 ≠ EmptyString → PyStr.last_char (s1 +:+ s2) = PyStr.last_char s2.
Proof.
  intros Hs2. induction s1 as [|a s1 IH]; [done|].
  change (String a s1 +:+ s2) with (String a (s1 +:+ s2)).
  destruct (s1 +:+ s2) as [|b s] eqn:Hs; [|by rewrite last_char_cons].
  destruct s1 as [|c s1'];
    [change (s2 = EmptyString) in Hs
    |change (String c (s1' +:+ s2) = EmptyString) in Hs]; congruence.
Qed.

Lemma string_app_ne_empty (s1 s2 : string) :
  s2 ≠ EmptyString → s1 +:+ s2 ≠ EmptyString.
Proof.
  intros Hs2 H. apply (f_equal String.length) in H.
  rewrite string_length_app in H. destruct s2; [done|]. simpl in H. lia.
Qed.

(** A bed file is never a bigwig file: one ends in [z], the other in [w]. *)
Lemma bed_file_ne_bigwig_file bed_path bigwig_path g1 g2 :
  bed_file bed_path g1 ≠ bigwig_file bigwig_path g2.
Proof.
  intros H. apply (f_equal PyStr.last_char) in H. unfold bed_file, bigwig_file in H.
  rewrite !last_char_app in H by (try apply string_app_ne_empty; done).
  done.
Qed.

(** ** [exportPseudoBulk_ray] *)

Definition start_log (group : string) : call :=
  Log INFO ("Creating pseudobulk for " +:+ group) [].

Section export_task.
Context {W : Type} (E : Externals W).

(** The call of [to_bigwig] with keywords only. *)
Lemma to_bigwig_keywords_run (rows : fragments_df) (path : string)
    (chromsizes : chrom_rows) (normalize_bigwig : option bool) (w : W) :
  to_bigwig E rows []
    [("path", ArgStr path); ("chromosome_sizes", ArgChrom chromsizes);
     ("rpm", arg_of_bool normalize_bigwig)] w
  = match pr_to_bigwig E w path rows chromsizes normalize_bigwig None with
    | inl e =>
        mkRun (Raise (IOError e)) w
          [ToBigwig path rows chromsizes normalize_bigwig None]
    | inr w' =>
        mkRun (Return tt) w' [ToBigwig path rows chromsizes normalize_bigwig None]
    end.
Proof.
  unfold to_bigwig.
  assert (Hb : bind_args to_bigwig_signature []
                 [("path", ArgStr path); ("chromosome_sizes", ArgChrom chromsizes);
                  ("rpm", arg_of_bool normalize_bigwig)]
               = Return [ArgStr path; ArgChrom chromsizes;
                         arg_of_bool normalize_bigwig; ArgNone; ArgNone;
                         ArgBool false; ArgBool false])
    by (vm_compute; reflexivity).
  rewrite Hb. by destruct normalize_bigwig.
Qed.

(** The call of [to_bigwig] that passes the ranges by position: they are
    bound to [path], which the keyword [path] then gives again. *)
Lemma to_bigwig_positional_run (rows : fragments_df) (path : string)
    (chromsizes : chrom_rows) (normalize_bigwig : option bool) (w : W) :
  to_bigwig E rows [ArgFragments rows]
    [("path", ArgStr path); ("chromsizes", ArgChrom chromsizes);
     ("rpm", arg_of_bool normalize_bigwig); ("value_col", ArgStr "Score")] w
  = mkRun (Raise (TypeError "got multiple values for argument path")) w [].
Proof.
  unfold to_bigwig.
  assert (Hb : bind_args to_bigwig_signature [ArgFragments rows]
                 [("path", ArgStr path); ("chromsizes", ArgChrom chromsizes);
                  ("rpm", arg_of_bool normalize_bigwig);
                  ("value_col", ArgStr "Score")]
               = Raise (TypeError "got multiple values for argument path"))
    by (vm_compute; reflexivity).
  by rewrite Hb.
Qed.

Lemma to_bed_run (rows : fragments_df) (path : string) (w : W) :
  to_bed E rows []
    [("path", ArgStr path); ("keep", ArgBool true);
     ("compression", ArgStr "infer"); ("chain", ArgBool false)] w
  = match pr_to_bed E w path rows with
    | inl e => mkRun (Raise (IOError e)) w [ToBed path rows]
    | inr w' => mkRun (Return tt) w' [ToBed path rows]
    end.
Proof.
  unfold to_bed.
  assert (Hb : bind_args to_bed_signature []
                 [("path", ArgStr path); ("keep", ArgBool true);
                  ("compression", ArgStr "infer"); ("chain", ArgBool false)]
               = Return [ArgStr path; ArgBool true; ArgStr "infer"; ArgBool false])
    by (vm_compute; reflexivity).
  by rewrite Hb.
Qed.

(** Every way the task of a group can end.  Unless [remove_duplicates] is
    [True], the call of [to_bigwig] gives [path] twice, by position and by
    keyword. *)
Lemma exportPseudoBulk_ray_run (group_var : Series) (group : string)
    (fragments : fragments_df) (chromsizes : chrom_rows)
    (bigwig_path bed_path : string)
    (normalize_bigwig remove_duplicates : option bool) (w : W) :
  exportPseudoBulk_ray E group_var group fragments chromsizes bigwig_path
    bed_path normalize_bigwig remove_duplicates w =
    match remove_duplicates with
    | Some true =>
        match pr_to_bigwig E w (bigwig_file bigwig_path group)
                (Name_isin (index_where group_var group) fragments)
                chromsizes normalize_bigwig None with
        | inl e =>
            mkRun (Raise (IOError e)) w
              [start_log group;
               ToBigwig (bigwig_file bigwig_path group)
                 (Name_isin (index_where group_var group) fragments)
                 chromsizes normalize_bigwig None]
        | inr w1 =>
            match pr_to_bed E w1 (bed_file bed_path group)
                    (Name_isin (index_where group_var group) fragments) with
            | inl e =>
                mkRun (Raise (IOError e)) w1
                  (start_log group
                   :: group_writes bigwig_path bed_path chromsizes
                        normalize_bigwig group
                        (Name_isin (index_where group_var group) fragments))
            | inr w2 =>
                mkRun (Return [(group, [bigwig_file bigwig_path group;
                                        bed_file bed_path group])]) w2
                  (start_log group
                   :: group_writes bigwig_path bed_path chromsizes
                        normalize_bigwig group
                        (Name_isin (index_where group_var group) fragments)
                   ++ [done_log group])
            end
        end
    | _ =>
        mkRun (Raise (TypeError "got multiple values for argument path")) w
          [start_log group]
    end.
Proof.
  unfold exportPseudoBulk_ray, log_info. rewrite run_emit_bind.
  fold (start_log group) (bigwig_file bigwig_path group) (bed_file bed_path group).
  fold (done_log group).
  destruct remove_duplicates as [[|]|].
  - rewrite decide_True by done. rewrite run_bind, to_bigwig_keywords_run.
    destruct (pr_to_bigwig E w _ _ _ _ _) as [e|w1]; [reflexivity|].
    cbn [outcome world calls]. rewrite run_bind, to_bed_run.
    destruct (pr_to_bed E w1 _ _) as [e|w2]; reflexivity.
  - rewrite decide_False by done. rewrite run_bind, to_bigwig_positional_run.
    reflexivity.
  - rewrite decide_False by done. rewrite run_bind, to_bigwig_positional_run.
    reflexivity.
Qed.
End export_task.

(** ** Loading the fragments *)

Definition reading_log (path : string) : call :=
  Log INFO ("Reading fragments from " +:+ path) [].

Definition not_write (c : call) : Prop := ¬ is_write c.

Definition not_read (c : call) : Prop :=
  match c with ReadBed _ => False | _ => True end.

Lemma reads_quiet cs : Forall not_read cs → reads cs = [].
Proof.
  induction 1 as [|c cs Hc _ IH]; [done|]. unfold reads in *. simpl.
  destruct c; try done.
Qed.

Section loading.
Context {W : Type} (E : Externals W).
Implicit Types w : W.

(** With two samples or more, the list of line 95 asks the one-item
    dictionary for its second key. *)
Lemma merge_fragments_IndexError (n_samples : nat) (sample_id : string)
    (fragments : fragments_df) w :
  (1 < n_samples)%nat →
  merge_fragments n_samples sample_id fragments w = mkRun (Raise IndexError) w [].
Proof.
  intros Hn. destruct n_samples as [|[|n]]; [lia|lia|].
  unfold merge_fragments. cbn [seq for_each Dict.set Dict.keys fmap list_fmap fst].
  assert (H0 : (list_getitem [sample_id] 0
                ≫= λ k : string, dict_getitem [(sample_id, fragments)] k) w
               = mkRun (Return fragments) w []).
  { unfold list_getitem. cbn [lookup list_lookup]. rewrite run_mret_bind.
    unfold dict_getitem. by rewrite dict_get_first. }
  apply run_bind_Raise.
  rewrite (run_bind_Return _ _ _ _ _ _ H0), with_calls_nil.
  apply run_bind_Raise. apply run_bind_Raise. reflexivity.
Qed.

Lemma correct_barcodes_world (sample_id : string) (fragments : fragments_df) w :
  world (correct_barcodes sample_id fragments w) = w.
Proof.
  unfold correct_barcodes. destruct fragments as [|f rest]; [reflexivity|].
  rewrite run_mret_bind. by destruct (decide (PyStr.find (Name f) "-" ≠ -1)).
Qed.

Lemma correct_barcodes_calls (sample_id : string) (fragments : fragments_df) w :
  Forall (λ c, not_write c ∧ not_read c) (calls (correct_barcodes sample_id fragments w)).
Proof.
  unfold correct_barcodes. destruct fragments as [|f rest]; [constructor|].
  rewrite run_mret_bind. destruct (decide (PyStr.find (Name f) "-" ≠ -1)).
  - repeat constructor; by intros [].
  - constructor.
Qed.

(** Every way lines 85-97 can end. *)
Lemma load_fragments_run (d : dict string) (sample_id : option string)
    (cell_data : option DataFrame) w :
  load_fragments E d sample_id cell_data w =
    match sample_id with
    | None => mkRun (Raise (UnboundLocalError "sample_id")) w []
    | Some sid =>
        match Dict.get d sid with
        | None => mkRun (Raise (KeyError sid)) w []
        | Some path =>
            match pr_read_bed E w path with
            | inl e => mkRun (Raise (IOError e)) w [reading_log path; ReadBed path]
            | inr loaded =>
                with_calls
                  ([reading_log path; ReadBed path]
                   ++ calls (correct_barcodes sid loaded w))
                  (match outcome (correct_barcodes sid loaded w), cell_data with
                   | Raise e, _ => mkRun (Raise e) w []
                   | Return _, None => mkRun (Raise (UnboundLocalError "cell_data")) w []
                   | Return named, Some cd =>
                       if decide (1 < length d)%nat
                       then mkRun (Raise IndexError) w []
                       else mkRun (Return (Some (Name_isin (df_index cd) named))) w []
                   end)
            end
        end
    end.
Proof.
  unfold load_fragments. destruct sample_id as [sid|]; [|reflexivity].
  cbn [local]. rewrite run_ret_bind. unfold dict_getitem.
  destruct (Dict.get d sid) as [path|] eqn:Hget; [|reflexivity].
  rewrite run_mret_bind. unfold log_info. rewrite run_emit_bind.
  fold (reading_log path). rewrite run_ret_bind. cbn beta.
  rewrite Hget, run_mret_bind.
  destruct (pr_read_bed E w path) as [e|loaded] eqn:Hread.
  { rewrite (run_bind_Raise _ _ w (IOError e) w [ReadBed path]); [reflexivity|].
    unfold read_bed. by rewrite Hread. }
  rewrite (run_bind_Return _ _ w loaded w [ReadBed path])
    by (unfold read_bed; by rewrite Hread).
  rewrite with_calls_app.
  change ([reading_log path] ++ [ReadBed path])
    with [reading_log path; ReadBed path].
  rewrite <- (with_calls_app [reading_log path; ReadBed path]
                (calls (correct_barcodes sid loaded w))).
  f_equal. rewrite run_bind, correct_barcodes_world.
  destruct (outcome (correct_barcodes sid loaded w)) as [e|named].
  { unfold with_calls. simpl. by rewrite (right_id_L [] (++)). }
  f_equal. destruct cell_data as [cd|]; [|reflexivity].
  cbn [local]. rewrite run_ret_bind.
  destruct (decide (1 < length d)%nat) as [Hn|Hn]; [|reflexivity].
  by rewrite run_bind, merge_fragments_IndexError.
Qed.
End loading.

(** ** The groups and their tasks *)

(** Neither a write of a file nor a read of fragments. *)
Definition silent (c : call) : Prop := not_write c ∧ not_read c.

Lemma silent_writes cs : Forall silent cs → writes cs = [].
Proof. intros H. apply writes_quiet. eapply Forall_impl; [exact H|]. by intros c []. Qed.

Lemma silent_reads cs : Forall silent cs → reads cs = [].
Proof. intros H. apply reads_quiet. eapply Forall_impl; [exact H|]. by intros c []. Qed.

Section export_facts.
Context {W : Type} (E : Externals W).
Implicit Types w : W.

Lemma for_each_fmap {A B C} (f : B → M W C) (h : A → B) (l : list A) w :
  for_each f (h <$> l) w = for_each (λ x, f (h x)) l w.
Proof.
  revert w. induction l as [|x l IH]; intros w; [done|].
  cbn [fmap list_fmap for_each]. rewrite !run_bind.
  destruct (outcome (f (h x) w)); [done|]. f_equal.
  rewrite !run_bind. fold (fmap h l). by rewrite IH.
Qed.

Lemma ensure_dir_quiet (path : string) : quiet silent (ensure_dir E path).
Proof.
  intros w. unfold ensure_dir. rewrite calls_bind. unfold path_exists.
  cbn [outcome world calls app]. destruct (os_path_exists E w path); [constructor|].
  unfold makedirs. destruct (os_makedirs E w path); cbn [calls];
    (constructor; [split; [intros []|exact I]|constructor]).
Qed.

(** The tasks of the groups, when they all returned. *)
Lemma ran_export_tasks (group_var : Series) (fragments : fragments_df)
    (chromsizes : chrom_rows) (bigwig_path bed_path : string)
    (normalize_bigwig remove_duplicates : option bool)
    (groups : list string) w paths w' cs :
  ran ((λ group, exportPseudoBulk_ray E group_var group fragments chromsizes
                   bigwig_path bed_path normalize_bigwig remove_duplicates)
       <$> groups) w paths w' cs →
  (groups = [] ∨ remove_duplicates = Some true)
  ∧ paths = (λ g, [(g, [bigwig_file bigwig_path g; bed_file bed_path g])]) <$> groups
  ∧ writes cs =
      mjoin ((λ g, group_writes bigwig_path bed_path chromsizes normalize_bigwig g
                     (Name_isin (index_where group_var g) fragments)) <$> groups)
  ∧ reads cs = [].
Proof.
  revert w paths cs. induction groups as [|g groups IH]; intros w paths cs Hran.
  - inversion Hran; subst. by split; [left|].
  - inversion Hran as [|t tasks w0 a w1 cs1 paths' w2 cs2 Ht Hran']; subst.
    apply IH in Hran' as (_ & -> & Hw & Hr).
    rewrite exportPseudoBulk_ray_run in Ht.
    destruct remove_duplicates as [[|]|]; try done.
    destruct (pr_to_bigwig E w _ _ _ _ _) as [e|w1']; [done|].
    destruct (pr_to_bed E w1' _ _) as [e|w2']; [done|].
    injection Ht as <- <- <-.
    split; [by right|]. split; [done|]. split.
    + rewrite writes_app. cbn [fmap list_fmap mjoin list_join]. rewrite Hw.
      by f_equal.
    + rewrite reads_app, Hr. reflexivity.
Qed.

Lemma paths_dict_run (i : nat) (groups : list string)
    (files : string → list string) (file : string → string) w :
  NoDup groups →
  (∀ g, files g !! i = Some (file g)) →
  paths_dict i ((λ g, [(g, files g)]) <$> groups) w
  = mkRun (Return ((λ g, (g, file g)) <$> groups)) w [].
Proof.
  intros Hnd Hfile. unfold paths_dict.
  rewrite (run_bind_Return _ _ w ((λ g, (g, file g)) <$> groups) w []).
  - rewrite with_calls_nil, run_mret. rewrite dict_of_items_NoDup; [done|].
    rewrite <- list_fmap_compose. by rewrite list_fmap_id.
  - rewrite (for_each_range _
               (λ p : dict (list string),
                  k ← list_getitem (Dict.keys p) 0;
                  k' ← list_getitem (Dict.keys p) 0;
                  v ← dict_getitem p k';
                  y ← list_getitem v i;
                  mret (k, y))).
    + rewrite for_each_fmap. apply for_each_pure. intros g w0 _.
      unfold list_getitem, dict_getitem.
      cbn [Dict.keys fmap list_fmap fst lookup list_lookup].
      rewrite !run_mret_bind, dict_get_first, run_mret_bind, Hfile.
      by rewrite run_mret_bind.
    + intros x p w0 Hx.
      assert (Hp : list_getitem (W:=W) ((λ g, [(g, files g)]) <$> groups) x = mret p)
        by (unfold list_getitem; by rewrite Hx).
      rewrite Hp, run_mret_bind. apply bind_ext_r. intros k w1.
      by rewrite !run_mret_bind.
Qed.
End export_facts.

Section export_inversion.
Context {W : Type} (E : Externals W).
Implicit Types w : W.

Lemma writes_with_calls {A} cs (r : Run W A) :
  writes (calls (with_calls cs r)) = writes cs ++ writes (calls r).
Proof. apply writes_app. Qed.

Lemma reads_with_calls {A} cs (r : Run W A) :
  reads (calls (with_calls cs r)) = reads cs ++ reads (calls r).
Proof. apply reads_app. Qed.

(** Lines 104-128, when they return. *)
Lemma export_groups_Return_inv (cell_data : option DataFrame)
    (fragments : option fragments_df) (variable : string)
    (chromsizes : chromsizes_arg) (bed_path bigwig_path : string)
    (n_cpu : option Z) (normalize_bigwig remove_duplicates : option bool)
    w res :
  outcome (export_groups E cell_data fragments variable chromsizes bed_path
             bigwig_path n_cpu normalize_bigwig remove_duplicates w) = Return res →
  ∃ cd group_var,
    cell_data = Some cd
    ∧ loc_column cd variable = Return group_var
    ∧ (sorted_set group_var = [] ∨ (is_Some fragments ∧ remove_duplicates = Some true))
    ∧ writes (calls (export_groups E cell_data fragments variable chromsizes
                       bed_path bigwig_path n_cpu normalize_bigwig
                       remove_duplicates w))
      = mjoin ((λ g, group_writes bigwig_path bed_path (as_pyranges chromsizes)
                       normalize_bigwig g
                       (Name_isin (index_where group_var g) (default [] fragments)))
               <$> sorted_set group_var)
    ∧ reads (calls (export_groups E cell_data fragments variable chromsizes
                      bed_path bigwig_path n_cpu normalize_bigwig
                      remove_duplicates w)) = []
    ∧ res = ((λ g, (g, bigwig_file bigwig_path g)) <$> sorted_set group_var,
             (λ g, (g, bed_file bed_path g)) <$> sorted_set group_var).
Proof.
  unfold export_groups. destruct cell_data as [cd|]; [|done].
  cbn [local]. rewrite run_ret_bind.
  destruct (loc_column cd variable) as [e|group_var] eqn:Hgv; [done|].
  cbn [lift]. rewrite run_ret_bind.
  intros H. exists cd, group_var. split; [done|]. split; [done|].
  apply bind_Return_inv in H as ([] & Hd1 & H & ->).
  apply bind_Return_inv in H as ([] & Hd2 & H & ->).
  rewrite run_emit_bind in H |- *.
  rewrite !writes_with_calls, !reads_with_calls.
  rewrite (silent_writes _ (ensure_dir_quiet E bed_path w)).
  rewrite (silent_reads _ (ensure_dir_quiet E bed_path w)).
  rewrite (silent_writes _ (ensure_dir_quiet E bigwig_path _)).
  rewrite (silent_reads _ (ensure_dir_quiet E bigwig_path _)).
  change (writes [RayInit n_cpu]) with (@nil call).
  change (reads [RayInit n_cpu]) with (@nil string).
  cbn [app].
  set (w2 := world (ensure_dir E bigwig_path (world (ensure_dir E bed_path w)))) in *.
  unfold with_calls in H at 1. cbn [outcome] in H.
  set (groups := sorted_set group_var) in *.
  set (task := λ group, exportPseudoBulk_ray E group_var group (default [] fragments)
                          (as_pyranges chromsizes) bigwig_path bed_path
                          normalize_bigwig remove_duplicates).
  assert (Htasks :
    for_each (λ group,
                match fragments with
                | Some df =>
                    mret (exportPseudoBulk_ray E group_var group df
                            (as_pyranges chromsizes) bigwig_path bed_path
                            normalize_bigwig remove_duplicates)
                | None => raise (NameError "fragments_df")
                end) groups w2
    = mkRun (Return (task <$> groups)) w2 []
    ∧ (groups = [] ∨ is_Some fragments)).
  { destruct fragments as [df|].
    - split; [by apply for_each_pure|right; by eexists].
    - destruct groups as [|g groups']; [by split; [|left]|].
      exfalso. revert H. apply not_eq_sym.
      by rewrite (run_bind_Raise _ _ w2 (NameError "fragments_df") w2 []). }
  destruct Htasks as [Htasks Hfr].
  rewrite (run_bind_Return _ _ _ _ _ _ Htasks) in H |- *.
  rewrite with_calls_nil in H |- *.
  apply bind_Return_inv in H as (paths & Hp & H & ->).
  apply ray_get_Return_inv in Hp as (w3 & cs & Hran & Hrun).
  rewrite Hrun in H |- *. cbn [world calls] in H |- *.
  apply ran_export_tasks in Hran as (Hrd & -> & Hw & Hr).
  rewrite run_emit_bind in H |- *. cbn beta in H |- *.
  assert (Hnd : NoDup groups) by apply sorted_set_NoDup.
  rewrite (run_bind_Return _ _ _ _ _ _
             (paths_dict_run 0 groups
                (λ g, [bigwig_file bigwig_path g; bed_file bed_path g])
                (bigwig_file bigwig_path) w3 Hnd (λ g, eq_refl))) in H |- *.
  rewrite with_calls_nil in H |- *.
  rewrite (run_bind_Return _ _ _ _ _ _
             (paths_dict_run 1 groups
                (λ g, [bigwig_file bigwig_path g; bed_file bed_path g])
                (bed_file bed_path) w3 Hnd (λ g, eq_refl))) in H |- *.
  rewrite with_calls_nil in H |- *.
  cbn in H. injection H as <-.
  rewrite !writes_with_calls, !reads_with_calls, Hw, Hr.
  split; [destruct Hrd, Hfr; eauto|].
  change (writes [RayShutdown]) with (@nil call).
  change (reads [RayShutdown]) with (@nil string).
  rewrite run_mret. cbn [calls app].
  change (writes []) with (@nil call). change (reads []) with (@nil string).
  by rewrite (right_id_L [] (++)).
Qed.
End export_inversion.

(** ** [exportPseudoBulk], when it returns *)

Section export_returns.
Context {W : Type} (E : Externals W).
Implicit Types w : W.

Lemma get_fragments_file_DataFrame (df : DataFrame) (path_to_fragments : path_arg) w :
  ∃ logs,
    get_fragments_file (InDataFrame df) path_to_fragments w
    = mkRun (Return (Some df, Some (cell_suffixes_of df))) w logs
    ∧ Forall silent logs.
Proof.
  destruct path_to_fragments.
  - exists [no_path_error]. split; [reflexivity|].
    repeat constructor. by intros [].
  - by exists [].
  - by exists [].
Qed.

Lemma silent_fmap_suffix_error {A} (l : list A) :
  Forall silent ((λ _, suffix_error) <$> l).
Proof.
  apply Forall_fmap, Forall_forall. intros x _. split; [by intros []|exact I].
Qed.

(** "Get fragments" for a data frame, when it returns: either nothing was
    loaded, or the dictionary has one sample, whose file was read. *)
Lemma get_fragments_DataFrame_Return_inv (cd : DataFrame)
    (path_to_fragments : path_arg) (suffixes : list string) w fragments :
  outcome (get_fragments E (InDataFrame cd) path_to_fragments (Some cd)
             (Some suffixes) w) = Return fragments →
  world (get_fragments E (InDataFrame cd) path_to_fragments (Some cd)
           (Some suffixes) w) = w
  ∧ writes (calls (get_fragments E (InDataFrame cd) path_to_fragments (Some cd)
                     (Some suffixes) w)) = []
  ∧ ((fragments = None
      ∧ reads (calls (get_fragments E (InDataFrame cd) path_to_fragments
                        (Some cd) (Some suffixes) w)) = [])
     ∨ ∃ sid file loaded named,
         path_to_fragments = PathDict [(sid, file)]
         ∧ pr_read_bed E w file = inr loaded
         ∧ outcome (correct_barcodes sid loaded w) = Return named
         ∧ fragments = Some (Name_isin (df_index cd) named)
         ∧ reads (calls (get_fragments E (InDataFrame cd) path_to_fragments
                           (Some cd) (Some suffixes) w)) = [file]).
Proof.
  destruct path_to_fragments as [|path|d].
  - intros [= <-]. split; [done|]. split; [done|]. by left.
  - intros [= <-]. split; [done|]. split; [done|]. by left.
  - unfold get_fragments.
    rewrite (run_bind_Return _ _ _ _ _ _
               (check_suffixes_run cd suffixes (Dict.keys d) None w)).
    rewrite writes_with_calls, reads_with_calls.
    rewrite (silent_writes _ (silent_fmap_suffix_error _)).
    rewrite (silent_reads _ (silent_fmap_suffix_error _)).
    cbn [app]. unfold with_calls at 1 2. cbn [outcome world].
    rewrite load_fragments_run.
    destruct (last (Dict.keys d)) as [sid|] eqn:Hlast; [|done].
    cbn [from_option].
    destruct (Dict.get d sid) as [file|] eqn:Hget; [|done].
    destruct (pr_read_bed E w file) as [e|loaded] eqn:Hread; [done|].
    rewrite writes_with_calls, reads_with_calls.
    rewrite !writes_app, !reads_app.
    assert (Hcb := correct_barcodes_calls sid loaded w).
    rewrite (writes_quiet (calls (correct_barcodes sid loaded w)))
      by (eapply Forall_impl; [exact Hcb|]; by intros c []).
    rewrite (reads_quiet (calls (correct_barcodes sid loaded w)))
      by (eapply Forall_impl; [exact Hcb|]; by intros c []).
    unfold with_calls at 1 2. cbn [outcome world].
    destruct (outcome (correct_barcodes sid loaded w)) as [e|named] eqn:Hnamed;
      [done|].
    destruct (decide (1 < length d)%nat) as [Hn|Hn]; [done|].
    intros [= <-]. split; [done|]. split; [done|]. right.
    exists sid, file, loaded, named.
    destruct d as [|[k v] [|kv d]].
    + done.
    + simpl in Hlast, Hget. injection Hlast as ->.
      rewrite decide_True in Hget by done. injection Hget as ->. done.
    + simpl in Hn. lia.
Qed.

(** Everything a returning [exportPseudoBulk] has done. *)
Lemma exportPseudoBulk_Return_inv (input_data : input_arg) (variable : string)
    (chromsizes : chromsizes_arg) (bed_path bigwig_path : string)
    (path_to_fragments : path_arg) (n_cpu : option Z)
    (normalize_bigwig remove_duplicates : option bool) w res :
  outcome (exportPseudoBulk E input_data variable chromsizes bed_path bigwig_path
             path_to_fragments n_cpu normalize_bigwig remove_duplicates w)
  = Return res →
  ∃ cd group_var named,
    input_data = InDataFrame cd
    ∧ loc_column cd variable = Return group_var
    ∧ (sorted_set group_var = [] ∨
       ∃ sid file loaded,
         path_to_fragments = PathDict [(sid, file)]
         ∧ pr_read_bed E w file = inr loaded
         ∧ outcome (correct_barcodes sid loaded w) = Return named
         ∧ remove_duplicates = Some true
         ∧ reads (calls (exportPseudoBulk E input_data variable chromsizes
                           bed_path bigwig_path path_to_fragments n_cpu
                           normalize_bigwig remove_duplicates w)) = [file])
    ∧ writes (calls (exportPseudoBulk E input_data variable chromsizes bed_path
                       bigwig_path path_to_fragments n_cpu normalize_bigwig
                       remove_duplicates w))
      = mjoin ((λ g, group_writes bigwig_path bed_path (as_pyranges chromsizes)
                       normalize_bigwig g (rows_of cd group_var named g))
               <$> sorted_set group_var)
    ∧ res = ((λ g, (g, bigwig_file bigwig_path g)) <$> sorted_set group_var,
             (λ g, (g, bed_file bed_path g)) <$> sorted_set group_var).
Proof.
  unfold exportPseudoBulk. intros H.
  apply bind_Return_inv in H as (locals & Hloc & H & ->).
  apply bind_Return_inv in H as (fragments & Hfr & H & ->).
  apply export_groups_Return_inv in H
    as (cd & group_var & Hcd & Hgv & Hcase & Hw & Hr & ->).
  destruct input_data as [obj|df|]; [done| |].
  2: { injection Hloc as <-. done. }
  destruct (get_fragments_file_DataFrame df path_to_fragments w)
    as (logs & Hrun & Hlogs).
  rewrite Hrun in *. injection Hloc as <-. cbn [fst snd world calls] in *.
  injection Hcd as ->.
  rewrite !writes_with_calls, !reads_with_calls, Hw, Hr.
  rewrite (silent_writes _ Hlogs), (silent_reads _ Hlogs). cbn [app].
  exists cd, group_var.
  apply get_fragments_DataFrame_Return_inv in Hfr as (_ & -> & Hfr).
  cbn [app].
  destruct Hfr as [[-> ->]|(sid & file & loaded & named & -> & Hread & Hnamed & -> & ->)].
  - exists []. destruct Hcase as [Hg|[[? [=]] _]]. rewrite Hg.
    split; [done|]. split; [done|]. split; [by left|]. split; done.
  - exists named. split; [done|]. split; [done|]. split; [|split; [|done]].
    + destruct Hcase as [Hg|[_ Hrd]]; [by left|right].
      by exists sid, file, loaded.
    + f_equal. apply list_fmap_ext. intros _ g _.
      change (default [] (Some (Name_isin (df_index cd) named)))
        with (Name_isin (df_index cd) named).
      by rewrite group_rows_of.
Qed.

(** The files of a returning run, read off its writes. *)
Lemma bed_files_group_writes bigwig_path bed_path chromsizes nb
    (groups : list string) (rows : string → fragments_df) :
  bed_files (mjoin ((λ g, group_writes bigwig_path bed_path chromsizes nb g (rows g))
                    <$> groups)) = bed_file bed_path <$> groups.
Proof.
  induction groups as [|g groups IH]; [done|].
  cbn [fmap list_fmap mjoin list_join]. unfold bed_files in *.
  rewrite omap_app. simpl. f_equal. exact IH.
Qed.

Lemma bigwig_files_group_writes bigwig_path bed_path chromsizes nb
    (groups : list string) (rows : string → fragments_df) :
  bigwig_files (mjoin ((λ g, group_writes bigwig_path bed_path chromsizes nb g (rows g))
                       <$> groups)) = bigwig_file bigwig_path <$> groups.
Proof.
  induction groups as [|g groups IH]; [done|].
  cbn [fmap list_fmap mjoin list_join]. unfold bigwig_files in *.
  rewrite omap_app. simpl. f_equal. exact IH.
Qed.

(** C7.  When [exportPseudoBulk] returns, it returns two dictionaries keyed
    by the groups, in sorted order: the first gives each group its bigwig
    file, the second its bed file, and the values of the two are the bigwig
    files and the bed files written by this run. *)
Theorem exportPseudoBulk_returns_paths (input_data : input_arg)
    (variable : string) (chromsizes : chromsizes_arg)
    (bed_path bigwig_path : string) (path_to_fragments : path_arg)
    (n_cpu : option Z) (normalize_bigwig remove_duplicates : option bool)
    w (bw_paths bed_paths : dict string) :
  let r := exportPseudoBulk E input_data variable chromsizes bed_path
             bigwig_path path_to_fragments n_cpu normalize_bigwig
             remove_duplicates w in
  outcome r = Return (bw_paths, bed_paths) →
  ∃ cd group_var,
    input_data = InDataFrame cd
    ∧ loc_column cd variable = Return group_var
    ∧ Dict.keys bw_paths = sorted_set group_var
    ∧ Dict.keys bed_paths = sorted_set group_var
    ∧ (∀ g, g ∈ sorted_set group_var →
         Dict.get bw_paths g = Some (bigwig_file bigwig_path g)
         ∧ Dict.get bed_paths g = Some (bed_file bed_path g))
    ∧ Dict.values bw_paths = bigwig_files (calls r)
    ∧ Dict.values bed_paths = bed_files (calls r).
Proof.
  intros r Hret. subst r.
  apply exportPseudoBulk_Return_inv in Hret
    as (cd & group_var & named & -> & Hgv & _ & Hw & [= -> ->]).
  exists cd, group_var.
  assert (Hbed := bed_files_writes (calls (exportPseudoBulk E (InDataFrame cd)
    variable chromsizes bed_path bigwig_path path_to_fragments n_cpu
    normalize_bigwig remove_duplicates w))).
  assert (Hbw := bigwig_files_writes (calls (exportPseudoBulk E (InDataFrame cd)
    variable chromsizes bed_path bigwig_path path_to_fragments n_cpu
    normalize_bigwig remove_duplicates w))).
  rewrite Hw, bed_files_group_writes in Hbed.
  rewrite Hw, bigwig_files_group_writes in Hbw.
  rewrite <- Hbed, <- Hbw. unfold Dict.keys, Dict.values.
  rewrite <- !list_fmap_compose.
  split; [done|]. split; [done|].
  split; [apply list_fmap_id|]. split; [apply list_fmap_id|].
  split; [|done].
  intros g Hg. split.
  - apply dict_get_item.
    + unfold Dict.wf, Dict.keys. rewrite <- list_fmap_compose.
      replace ((fst ∘ (λ g, (g, bigwig_file bigwig_path g))) <$> sorted_set group_var)
        with (sorted_set group_var) by (symmetry; apply list_fmap_id).
      apply sorted_set_NoDup.
    + apply list_elem_of_fmap. by exists g.
  - apply dict_get_item.
    + unfold Dict.wf, Dict.keys. rewrite <- list_fmap_compose.
      replace ((fst ∘ (λ g, (g, bed_file bed_path g))) <$> sorted_set group_var)
        with (sorted_set group_var) by (symmetry; apply list_fmap_id).
      apply sorted_set_NoDup.
    + apply list_elem_of_fmap. by exists g.
Qed.
End export_returns.

(** ** Several samples *)

Section several_samples.
Context {W : Type} (E : Externals W).
Implicit Types w : W.

Lemma check_suffixes_InOther (suffixes : option (list string))
    (keys : list string) (sample_id : option string) w :
  check_suffixes InOther suffixes keys sample_id w
  = mkRun (Return (from_option Some sample_id (last keys))) w [].
Proof.
  revert sample_id. induction keys as [|k keys IH]; intros sample_id; [done|].
  cbn [check_suffixes]. rewrite run_mret_bind, IH. f_equal.
  destruct keys as [|k' keys']; [done|]. rewrite last_cons_cons.
  destruct (proj2 (last_is_Some (k' :: keys'))) as [x Hx]; [done|].
  by rewrite Hx.
Qed.

(** With several samples, lines 85-97 end in an exception, after at most
    one read. *)
Lemma load_fragments_several (d : dict string) (sample_id : option string)
    (cell_data : option DataFrame) w :
  (1 < length d)%nat →
  (∃ e, outcome (load_fragments E d sample_id cell_data w) = Raise e)
  ∧ writes (calls (load_fragments E d sample_id cell_data w)) = []
  ∧ (length (reads (calls (load_fragments E d sample_id cell_data w))) ≤ 1)%nat
  ∧ ∀ cd sid file f rest,
      cell_data = Some cd → sample_id = Some sid → Dict.get d sid = Some file →
      pr_read_bed E w file = inr (f :: rest) →
      outcome (load_fragments E d sample_id cell_data w) = Raise IndexError
      ∧ reads (calls (load_fragments E d sample_id cell_data w)) = [file].
Proof.
  intros Hn. rewrite load_fragments_run.
  destruct sample_id as [sid|].
  2: { split; [by eexists|]. split; [done|]. split; [simpl; lia|]. by intros. }
  destruct (Dict.get d sid) as [file|] eqn:Hget.
  2: { split; [by eexists|]. split; [done|]. split; [simpl; lia|].
       intros cd sid' file' f rest _ [= <-]. by rewrite Hget. }
  destruct (pr_read_bed E w file) as [e|loaded] eqn:Hread.
  { split; [by eauto|]. split; [done|]. split; [simpl; lia|].
    intros cd sid' file' f rest _ [= <-]. rewrite Hget. intros [= <-].
    by rewrite Hread. }
  rewrite writes_with_calls, reads_with_calls, !writes_app, !reads_app.
  assert (Hcb := correct_barcodes_calls sid loaded w).
  rewrite (writes_quiet (calls (correct_barcodes sid loaded w)))
    by (eapply Forall_impl; [exact Hcb|]; by intros c []).
  rewrite (reads_quiet (calls (correct_barcodes sid loaded w)))
    by (eapply Forall_impl; [exact Hcb|]; by intros c []).
  unfold with_calls at 1 2. cbn [outcome].
  destruct (outcome (correct_barcodes sid loaded w)) as [e|named] eqn:Hnamed.
  { split; [by eauto|]. split; [done|]. split; [simpl; lia|].
    intros cd sid' file' f rest _ [= <-]. rewrite Hget. intros [= <-].
    rewrite Hread. intros [= ->]. exfalso.
    unfold correct_barcodes in Hnamed. rewrite run_mret_bind in Hnamed.
    by destruct (decide (PyStr.find (Name f) "-" ≠ -1)). }
  destruct cell_data as [cd|].
  - rewrite decide_True by done.
    split; [by eauto|]. split; [done|]. split; [simpl; lia|].
    intros cd' sid' file' f rest _ [= <-]. rewrite Hget. by intros [= <-].
  - split; [by eauto|]. split; [done|]. split; [simpl; lia|]. by intros.
Qed.

(** C3, which the code does not meet.  With a dictionary of several samples
    [exportPseudoBulk] never returns and writes no file, and it reads at most
    one fragments file; with a data frame as input and a readable file for
    the last sample id, it reads that one file and raises [IndexError]. *)
Theorem exportPseudoBulk_several_samples (input_data : input_arg)
    (variable : string) (chromsizes : chromsizes_arg)
    (bed_path bigwig_path : string) (d : dict string) (n_cpu : option Z)
    (normalize_bigwig remove_duplicates : option bool) w :
  (1 < length d)%nat →
  let r := exportPseudoBulk E input_data variable chromsizes bed_path
             bigwig_path (PathDict d) n_cpu normalize_bigwig
             remove_duplicates w in
  (∃ e, outcome r = Raise e)
  ∧ writes (calls r) = []
  ∧ (length (reads (calls r)) ≤ 1)%nat
  ∧ ∀ cd sid file f rest,
      input_data = InDataFrame cd → last (Dict.keys d) = Some sid →
      Dict.get d sid = Some file → pr_read_bed E w file = inr (f :: rest) →
      outcome r = Raise IndexError ∧ reads (calls r) = [file].
Proof.
  intros Hn r. subst r. unfold exportPseudoBulk.
  destruct input_data as [obj|df|].
  - split; [by eexists|]. split; [done|]. split; [simpl; lia|]. by intros.
  - destruct (get_fragments_file_DataFrame df (PathDict d) w) as (logs & Hrun & Hlogs).
    rewrite (run_bind_Return _ _ _ _ _ _ Hrun). cbn [fst snd get_fragments].
    assert (Hgf :
      (check_suffixes (InDataFrame df) (Some (cell_suffixes_of df)) (Dict.keys d) None
       ≫= λ sample_id, load_fragments E d sample_id (Some df)) w
      = with_calls ((λ _, suffix_error) <$>
                      filter (λ k, k ∉ cell_suffixes_of df) (Dict.keys d))
          (load_fragments E d (last (Dict.keys d)) (Some df) w)).
    { rewrite (run_bind_Return _ _ _ _ _ _
                 (check_suffixes_run df (cell_suffixes_of df) (Dict.keys d) None w)).
      by destruct (last (Dict.keys d)). }
    destruct (load_fragments_several d (last (Dict.keys d)) (Some df) w Hn)
      as ((e & He) & Hw & Hr & Hspec).
    rewrite run_bind.
    replace (outcome ((check_suffixes (InDataFrame df) (Some (cell_suffixes_of df))
                         (Dict.keys d) None
                       ≫= λ sample_id, load_fragments E d sample_id (Some df)) w))
      with (Raise (A:=option fragments_df) e) by (by rewrite Hgf).
    rewrite Hgf. unfold with_calls. cbn [outcome world calls].
    rewrite !writes_app, !reads_app, Hw.
    rewrite (silent_writes _ Hlogs), (silent_reads _ Hlogs).
    rewrite (silent_writes _ (silent_fmap_suffix_error _)).
    rewrite (silent_reads _ (silent_fmap_suffix_error _)).
    cbn [app]. split; [by eexists|]. split; [done|]. split; [done|].
    intros cd sid file f rest [= <-] Hlast Hget Hread.
    destruct (Hspec df sid file f rest eq_refl Hlast Hget Hread) as [He' Hr'].
    rewrite He' in He. injection He as <-. done.
  - cbn [get_fragments_file]. rewrite run_mret_bind. cbn [fst snd get_fragments].
    rewrite run_bind.
    rewrite (run_bind_Return _ _ _ _ _ _
               (check_suffixes_InOther None (Dict.keys d) None w)).
    rewrite with_calls_nil.
    destruct (load_fragments_several d (from_option Some None (last (Dict.keys d)))
                None w Hn) as ((e & He) & Hw & Hr & _).
    rewrite He. cbn [outcome world calls].
    split; [by eexists|]. split; [done|]. split; [done|]. by intros.
Qed.
End several_samples.

(** ** Runs on the small file system *)

Definition one_sample : path_arg := PathDict [("s1", "s1.fragments.tsv.gz")].

(** The run of [exportPseudoBulk] on [Toy.cells] and [Toy.disk]. *)
Definition toy_export : Run Toy.fs (dict string * dict string) :=
  exportPseudoBulk (Toy.externals Toy.sh_true) (InDataFrame Toy.cells) "celltype"
    Toy.sizes "bed/" "bw/" one_sample (Some 1) (Some true) (Some true) Toy.disk.

Definition toy_paths : dict string * dict string :=
  ([("B_cell", "bw/B_cell.bw"); ("T_cell", "bw/T_cell.bw")],
   [("B_cell", "bed/B_cell.bed.gz"); ("T_cell", "bed/T_cell.bed.gz")]).

Example toy_export_returns : outcome toy_export = Return toy_paths.
Proof. vm_compute. reflexivity. Qed.

Lemma exportPseudoBulk_returns_paths_witness :
  Dict.values toy_paths.1 = bigwig_files (calls toy_export)
  ∧ Dict.values toy_paths.2 = bed_files (calls toy_export).
Proof.
  destruct (exportPseudoBulk_returns_paths (Toy.externals Toy.sh_true)
              (InDataFrame Toy.cells) "celltype" Toy.sizes "bed/" "bw/" one_sample
              (Some 1) (Some true) (Some true) Toy.disk toy_paths.1 toy_paths.2)
    as (cd & group_var & _ & _ & _ & _ & _ & Hbw & Hbed).
  - vm_compute. reflexivity.
  - split; [exact Hbw|exact Hbed].
Defined.

(** Two samples: cells of both, and a fragments file for each. *)
Definition cells_of_two_samples : DataFrame := {|
  df_index := ["AAAC-s1"; "TTTG-s1"; "CCCA-s2"];
  df_columns := [("celltype", ["T_cell"; "B_cell"; "T_cell"])];
|}.

Definition two_samples : dict string :=
  [("s1", "s1.fragments.tsv.gz"); ("s2", "s2.fragments.tsv.gz")].

Definition disk_of_two_samples : Toy.fs :=
  [("s1.fragments.tsv.gz",
    Toy.Fragments [Toy.frag "chr1" 100 180 "AAAC-1"; Toy.frag "chr1" 150 300 "TTTG-1"]);
   ("s2.fragments.tsv.gz",
    Toy.Fragments [Toy.frag "chr2" 40 95 "CCCA-1"])].

Definition toy_export_two_samples : Run Toy.fs (dict string * dict string) :=
  exportPseudoBulk (Toy.externals Toy.sh_true) (InDataFrame cells_of_two_samples)
    "celltype" Toy.sizes "bed/" "bw/" (PathDict two_samples) (Some 1) (Some true)
    (Some true) disk_of_two_samples.

Lemma exportPseudoBulk_several_samples_witness :
  outcome toy_export_two_samples = Raise IndexError
  ∧ reads (calls toy_export_two_samples) = ["s2.fragments.tsv.gz"]
  ∧ writes (calls toy_export_two_samples) = [].
Proof.
  destruct (exportPseudoBulk_several_samples (Toy.externals Toy.sh_true)
              (InDataFrame cells_of_two_samples) "celltype" Toy.sizes "bed/" "bw/"
              two_samples (Some 1) (Some true) (Some true) disk_of_two_samples)
    as (_ & Hw & _ & Hspec).
  - vm_compute. lia.
  - destruct (Hspec cells_of_two_samples "s2" "s2.fragments.tsv.gz"
                (Toy.frag "chr2" 40 95 "CCCA-1") [] eq_refl eq_refl eq_refl eq_refl)
      as [He Hr].
    split; [exact He|]. split; [exact Hr|exact Hw].
Defined.

(** ** Further facts *)

Lemma peakCalling_commands_witness :
  commands (calls (peakCalling (Toy.externals good_caller) "macs2" two_groups
                     "out/" "hs" (Some 1) (PyStr "BEDPE") (PyInt 73) (PyInt 146)
                     (PyStr "all") (PyFloat "0.05") Toy.disk))
  = (λ item, macs_command "macs2" item.2 item.1 "out/" "hs" (PyStr "BEDPE")
               (PyInt 73) (PyInt 146) (PyStr "all") (PyFloat "0.05"))
    <$> two_groups.
Proof.
  destruct (peakCalling_commands (Toy.externals good_caller) "macs2" "out/" "hs"
              (PyStr "BEDPE") (PyInt 73) (PyInt 146) (PyStr "all") (PyFloat "0.05")
              two_groups (Some 1) Toy.disk) as [_ Hret].
  - apply (bool_decide_unpack _). vm_compute. exact I.
  - apply (bool_decide_unpack _). vm_compute. exact I.
  - eapply Hret. vm_compute. reflexivity.
Defined.

(** X2.  Unless [remove_duplicates] is [True], the task of a group raises
    [TypeError] at its call of [to_bigwig], which gives [path] by position and
    by keyword: it has only logged its start, and has written no file. *)
Theorem exportPseudoBulk_ray_keep_duplicates_TypeError {W} (E : Externals W)
    (group_var : Series) (group : string) (fragments : fragments_df)
    (chromsizes : chrom_rows) (bigwig_path bed_path : string)
    (normalize_bigwig remove_duplicates : option bool) (w : W) :
  remove_duplicates ≠ Some true →
  exportPseudoBulk_ray E group_var group fragments chromsizes bigwig_path
    bed_path normalize_bigwig remove_duplicates w
  = mkRun (Raise (TypeError "got multiple values for argument path")) w
      [start_log group].
Proof.
  intros Hrd. rewrite exportPseudoBulk_ray_run.
  by destruct remove_duplicates as [[|]|].
Qed.

Lemma exportPseudoBulk_ray_keep_duplicates_TypeError_witness :
  exportPseudoBulk_ray (Toy.externals Toy.sh_true)
    [("AAAC-s1", "T_cell")] "T_cell" [Toy.frag "chr1" 100 180 "AAAC-s1"]
    (as_pyranges Toy.sizes) "bw/" "bed/" (Some true) (Some false) Toy.disk
  = mkRun (Raise (TypeError "got multiple values for argument path")) Toy.disk
      [start_log "T_cell"].
Proof.
  apply exportPseudoBulk_ray_keep_duplicates_TypeError. discriminate.
Defined.

(** ** Traces, whatever the outcome *)

Section more_running.
Context {W : Type}.
Implicit Types w : W.

Lemma run_bind_outcome_Return {A B} (m : M W A) (k : A → M W B) w a :
  outcome (m w) = Return a →
  (m ≫= k) w = with_calls (calls (m w)) (k a (world (m w))).
Proof. intros H. by rewrite run_bind, H. Qed.

Lemma run_bind_outcome_Raise {A B} (m : M W A) (k : A → M W B) w e :
  outcome (m w) = Raise e →
  (m ≫= k) w = mkRun (Raise e) (world (m w)) (calls (m w)).
Proof. intros H. by rewrite run_bind, H. Qed.

Lemma quiet_bind_Return {A B} φ (m : M W A) (k : A → M W B) :
  quiet φ m →
  (∀ a w, outcome (m w) = Return a → quiet φ (k a)) →
  quiet φ (m ≫= k).
Proof.
  intros Hm Hk w. rewrite calls_bind. apply Forall_app. split; [apply Hm|].
  destruct (outcome (m w)) eqn:Ho; [constructor|by eapply Hk].
Qed.

Lemma quiet_lift {A} φ (r : result A) : quiet (W:=W) φ (lift r).
Proof. destruct r; [apply quiet_raise|apply quiet_ret]. Qed.

Lemma quiet_local {A} φ name (v : option A) : quiet (W:=W) φ (local name v).
Proof. destruct v; [apply quiet_ret|apply quiet_raise]. Qed.

Lemma quiet_dict_getitem {V} φ (d : dict V) k : quiet (W:=W) φ (dict_getitem d k).
Proof. unfold dict_getitem. destruct (Dict.get d k); [apply quiet_mret|apply quiet_raise]. Qed.

Lemma quiet_ray_get {A} φ (E : Externals W) (tasks : list (M W A)) :
  Forall (quiet φ) tasks → quiet φ (ray_get E tasks).
Proof. intros H w. rewrite ray_get_calls. by apply run_tasks_Forall. Qed.

Lemma for_each_Return_Forall {A B} (P : B → Prop) (f : A → M W B) l w bs :
  (∀ x w b, x ∈ l → outcome (f x w) = Return b → P b) →
  outcome (for_each f l w) = Return bs → Forall P bs.
Proof.
  revert w bs. induction l as [|x l IH]; intros w bs Hf.
  - intros [= <-]. constructor.
  - cbn [for_each]. intros H.
    apply bind_Return_inv in H as (b & Hb & H & _).
    apply bind_Return_inv in H as (bs' & Hbs & H & _).
    injection H as <-. constructor.
    + eapply Hf; [left|exact Hb].
    + eapply IH; [|exact Hbs]. intros y w' b' Hy. apply Hf. by right.
Qed.

(** A call that the first half never makes was made by the second. *)
Lemma bind_elem_of_inv {A B} φ c (m : M W A) (k : A → M W B) w :
  quiet φ m → ¬ φ c → c ∈ calls ((m ≫= k) w) →
  ∃ a, outcome (m w) = Return a
     ∧ c ∈ calls (k a (world (m w)))
     ∧ outcome ((m ≫= k) w) = outcome (k a (world (m w))).
Proof.
  intros Hm Hc. rewrite run_bind.
  assert (Hnot : c ∉ calls (m w)).
  { intros Hin. apply Hc. by eapply (proj1 (Forall_forall _ _) (Hm w)). }
  destruct (outcome (m w)) as [e|a]; [done|].
  unfold with_calls. cbn [calls outcome]. rewrite elem_of_app.
  intros [?|Hin]; [done|]. by exists a.
Qed.
End more_running.

(** The calls that only log. *)
Definition logs_pass (φ : call → Prop) : Prop := ∀ level msg args, φ (Log level msg args).

Section quiet_parts.
Context {W : Type} (E : Externals W).
Context (φ : call → Prop) (Hlog : logs_pass φ).

Lemma quiet_log_info msg : quiet (W:=W) φ (log_info msg).
Proof. apply quiet_emit, Hlog. Qed.

Lemma quiet_log_error msg : quiet (W:=W) φ (log_error msg).
Proof. apply quiet_emit, Hlog. Qed.

Lemma get_fragments_file_quiet input_data path_to_fragments :
  quiet (W:=W) φ (get_fragments_file input_data path_to_fragments).
Proof.
  destruct input_data as [obj|df|]; [apply quiet_raise| |apply quiet_mret].
  cbn [get_fragments_file]. apply quiet_bind; [|intros; apply quiet_mret].
  destruct path_to_fragments; [apply quiet_log_error|apply quiet_mret..].
Qed.

Lemma check_suffixes_quiet input_data cell_suffixes keys sample_id :
  quiet (W:=W) φ (check_suffixes input_data cell_suffixes keys sample_id).
Proof.
  revert sample_id. induction keys as [|k keys IH]; intros sample_id;
    [apply quiet_mret|].
  cbn [check_suffixes]. apply quiet_bind; [|intros; apply IH].
  destruct input_data as [obj|df|]; [apply quiet_mret| |apply quiet_mret].
  apply quiet_bind; [apply quiet_local|]. intros suffixes.
  destruct (bool_decide (k ∈ suffixes)); [apply quiet_mret|apply quiet_log_error].
Qed.

Lemma correct_barcodes_quiet sample_id fragments :
  quiet (W:=W) φ (correct_barcodes sample_id fragments).
Proof.
  unfold correct_barcodes. apply quiet_bind.
  { destruct fragments; [apply quiet_raise|apply quiet_mret]. }
  intros first. apply quiet_bind; [|intros; apply quiet_mret].
  destruct (decide (PyStr.find first "-" ≠ -1)); [|apply quiet_mret].
  apply quiet_bind; [apply quiet_log_info|]. intros _.
  apply quiet_bind; [apply quiet_log_info|]. intros _. apply quiet_mret.
Qed.

Lemma merge_fragments_quiet n_samples sample_id fragments :
  quiet (W:=W) φ (merge_fragments n_samples sample_id fragments).
Proof.
  unfold merge_fragments. apply quiet_bind.
  { apply quiet_for_each. intros x.
    apply quiet_bind; [apply quiet_list_getitem|]. intros k.
    apply quiet_dict_getitem. }
  intros l. apply quiet_bind; [apply quiet_log_info|]. intros _.
  apply quiet_bind; [apply quiet_list_getitem|]. intros first. apply quiet_mret.
Qed.

Lemma read_bed_quiet path : φ (ReadBed path) → quiet φ (read_bed E path).
Proof.
  intros Hr w. unfold read_bed. destruct (pr_read_bed E w path); by repeat constructor.
Qed.

Lemma load_fragments_quiet d sample_id cell_data :
  (∀ path, φ (ReadBed path)) → quiet φ (load_fragments E d sample_id cell_data).
Proof.
  intros Hr. unfold load_fragments.
  apply quiet_bind; [apply quiet_local|]. intros sid.
  apply quiet_bind; [apply quiet_dict_getitem|]. intros path.
  apply quiet_bind; [apply quiet_log_info|]. intros _.
  apply quiet_bind; [apply quiet_local|]. intros sid'.
  apply quiet_bind; [apply quiet_dict_getitem|]. intros path'.
  apply quiet_bind; [by apply read_bed_quiet|]. intros fragments.
  apply quiet_bind; [apply correct_barcodes_quiet|]. intros named.
  apply quiet_bind; [apply quiet_local|]. intros cd.
  destruct (decide (1 < length d)%nat); [|apply quiet_mret].
  apply quiet_bind; [apply merge_fragments_quiet|]. intros; apply quiet_mret.
Qed.

Lemma get_fragments_quiet input_data path_to_fragments cell_data cell_suffixes :
  (∀ path, φ (ReadBed path)) →
  quiet φ (get_fragments E input_data path_to_fragments cell_data cell_suffixes).
Proof.
  intros Hr. unfold get_fragments.
  assert (Hother : quiet φ
    (match input_data with
     | InCisTopicObject _ =>
         log_info "Reading fragments";;
         fragments ← match path_to_fragments with
                     | PathStr path => read_bed E path
                     | _ => raise (NotModelled "read_bed of a non-str")
                     end;
         cd ← local "cell_data" cell_data;
         mret (Some (Name_isin (df_index cd) fragments))
     | _ => mret None
     end)).
  { destruct input_data as [obj|df|]; [|apply quiet_mret..].
    apply quiet_bind; [apply quiet_log_info|]. intros _.
    apply quiet_bind.
    { destruct path_to_fragments; [apply quiet_raise|by apply read_bed_quiet|apply quiet_raise]. }
    intros fragments. apply quiet_bind; [apply quiet_local|]. intros; apply quiet_mret. }
  destruct path_to_fragments as [|path|d]; [exact Hother..|].
  apply quiet_bind; [apply check_suffixes_quiet|]. intros sample_id.
  by apply load_fragments_quiet.
Qed.

Lemma ensure_dir_passes path : φ (Makedirs path) → quiet φ (ensure_dir E path).
Proof.
  intros Hm. unfold ensure_dir. apply quiet_bind; [intros w; constructor|].
  intros [|]; [apply quiet_mret|]. intros w. unfold makedirs.
  destruct (os_makedirs E w path); by repeat constructor.
Qed.

Lemma paths_dict_quiet i paths : quiet (W:=W) φ (paths_dict i paths).
Proof.
  unfold paths_dict. apply quiet_bind; [|intros; apply quiet_mret].
  apply quiet_for_each. intros x.
  apply quiet_bind; [apply quiet_list_getitem|]. intros p.
  apply quiet_bind; [apply quiet_list_getitem|]. intros k.
  apply quiet_bind; [apply quiet_list_getitem|]. intros p1.
  apply quiet_bind; [apply quiet_list_getitem|]. intros p2.
  apply quiet_bind; [apply quiet_list_getitem|]. intros k'.
  apply quiet_bind; [apply quiet_dict_getitem|]. intros v.
  apply quiet_bind; [apply quiet_list_getitem|]. intros y. apply quiet_mret.
Qed.

Lemma exportPseudoBulk_ray_quiet group_var group fragments chromsizes
    bigwig_path bed_path normalize_bigwig remove_duplicates :
  (remove_duplicates = Some true →
   ∀ rows, φ (ToBigwig (bigwig_file bigwig_path group) rows chromsizes
                normalize_bigwig None)
           ∧ φ (ToBed (bed_file bed_path group) rows)) →
  quiet φ (exportPseudoBulk_ray E group_var group fragments chromsizes
             bigwig_path bed_path normalize_bigwig remove_duplicates).
Proof.
  intros Hw w. rewrite exportPseudoBulk_ray_run.
  destruct remove_duplicates as [[|]|]; [|repeat constructor; apply Hlog..].
  specialize (Hw eq_refl).
  destruct (pr_to_bigwig E w _ _ _ _ _) as [e|w1].
  { repeat constructor; [apply Hlog|apply Hw]. }
  destruct (pr_to_bed E w1 _ _) as [e|w2]; cbn [calls]; unfold group_writes;
    cbn [app]; repeat constructor; first [apply Hlog|apply Hw].
Qed.

(** Lines 104-128 make only calls that pass [φ], when the logs, the calls
    of [os.makedirs] and of ray, and the calls of the tasks do. *)
Lemma export_groups_quiet cell_data fragments variable chromsizes bed_path
    bigwig_path n_cpu normalize_bigwig remove_duplicates :
  φ (Makedirs bed_path) → φ (Makedirs bigwig_path) →
  φ (RayInit n_cpu) → φ RayShutdown →
  (∀ cd group_var group df,
     cell_data = Some cd → loc_column cd variable = Return group_var →
     group ∈ sorted_set group_var → fragments = Some df →
     quiet φ (exportPseudoBulk_ray E group_var group df (as_pyranges chromsizes)
                bigwig_path bed_path normalize_bigwig remove_duplicates)) →
  quiet φ (export_groups E cell_data fragments variable chromsizes bed_path
             bigwig_path n_cpu normalize_bigwig remove_duplicates).
Proof.
  intros Hm1 Hm2 Hi Hs Htask w. unfold export_groups.
  destruct cell_data as [cd|]; [|constructor].
  cbn [local]. rewrite run_ret_bind.
  destruct (loc_column cd variable) as [e|group_var] eqn:Hgv; [constructor|].
  cbn [lift]. rewrite run_ret_bind. revert w.
  apply quiet_bind; [by apply ensure_dir_passes|]. intros _.
  apply quiet_bind; [by apply ensure_dir_passes|]. intros _.
  apply quiet_bind; [by apply quiet_emit|]. intros _.
  apply quiet_bind_Return.
  { apply quiet_for_each. intros g.
    destruct fragments; [apply quiet_mret|apply quiet_raise]. }
  intros tasks w Htasks.
  apply (for_each_Return_Forall (quiet φ)) in Htasks.
  2: { intros g w' t Hg. destruct fragments as [df|]; [|done].
       intros [= <-]. by eapply Htask. }
  apply quiet_bind; [by apply quiet_ray_get|]. intros paths.
  apply quiet_bind; [by apply quiet_emit|]. intros _.
  apply quiet_bind; [apply paths_dict_quiet|]. intros bw.
  apply quiet_bind; [apply paths_dict_quiet|]. intros bed. apply quiet_mret.
Qed.

Lemma exportPseudoBulk_quiet input_data variable chromsizes bed_path bigwig_path
    path_to_fragments n_cpu normalize_bigwig remove_duplicates :
  (∀ path, φ (ReadBed path)) →
  φ (Makedirs bed_path) → φ (Makedirs bigwig_path) →
  φ (RayInit n_cpu) → φ RayShutdown →
  (∀ cd group_var group df,
     input_data = InDataFrame cd → loc_column cd variable = Return group_var →
     group ∈ sorted_set group_var →
     quiet φ (exportPseudoBulk_ray E group_var group df (as_pyranges chromsizes)
                bigwig_path bed_path normalize_bigwig remove_duplicates)) →
  quiet φ (exportPseudoBulk E input_data variable chromsizes bed_path bigwig_path
             path_to_fragments n_cpu normalize_bigwig remove_duplicates).
Proof.
  intros Hr Hm1 Hm2 Hi Hs Htask. unfold exportPseudoBulk.
  apply quiet_bind_Return; [apply get_fragments_file_quiet|].
  intros locals w Hlocals.
  apply quiet_bind; [by apply get_fragments_quiet|]. intros fragments.
  apply export_groups_quiet; try done.
  intros cd group_var group df Hcd Hgv Hg _. eapply Htask; [|done..].
  destruct input_data as [obj|df'|]; [done| |].
  - destruct path_to_fragments; injection Hlocals as <-; simpl in Hcd; congruence.
  - injection Hlocals as <-. done.
Qed.

End quiet_parts.

(** ** [exportPseudoBulk]: inputs it has no branch for *)

(** A log or a read of fragments: no directory is made, ray is not started,
    nothing is written. *)
Definition is_log_or_read (c : call) : Prop :=
  match c with
  | Log _ _ _ | ReadBed _ => True
  | _ => False
  end.

Section export_edges.
Context {W : Type} (E : Externals W).
Implicit Types w : W.

Lemma ensure_dir_exists path w :
  os_path_exists E w path = true → ensure_dir E path w = mkRun (Return tt) w [].
Proof.
  intros H. unfold ensure_dir, path_exists. rewrite run_bind.
  cbn [outcome world calls]. by rewrite H.
Qed.

Lemma load_fragments_without_cell_data d sample_id w :
  ∃ e, outcome (load_fragments E d sample_id None w) = Raise e.
Proof.
  rewrite load_fragments_run.
  destruct sample_id as [sid|]; [|by eexists].
  destruct (Dict.get d sid) as [path|]; [|by eexists].
  destruct (pr_read_bed E w path) as [e|loaded]; [by eexists|].
  unfold with_calls. cbn [outcome].
  destruct (outcome (correct_barcodes sid loaded w)); by eexists.
Qed.

Lemma correct_barcodes_nonempty sample_id f rest w :
  ∃ named, outcome (correct_barcodes sample_id (f :: rest) w) = Return named.
Proof.
  unfold correct_barcodes. rewrite run_mret_bind.
  destruct (decide (PyStr.find (Name f) "-" ≠ -1)); by eexists.
Qed.

Lemma export_groups_missing_column cd fragments variable chromsizes bed_path
    bigwig_path n_cpu normalize_bigwig remove_duplicates w :
  Dict.get (df_columns cd) variable = None →
  export_groups E (Some cd) fragments variable chromsizes bed_path bigwig_path
    n_cpu normalize_bigwig remove_duplicates w
  = mkRun (Raise (KeyError variable)) w [].
Proof.
  intros H. unfold export_groups. cbn [local]. rewrite run_ret_bind.
  unfold loc_column. by rewrite H.
Qed.

(** With one sample in the dictionary and a file that is read as a table
    with a first row, "Get fragments" reaches line 104 with the named and
    filtered records, after this one read. *)
Lemma exportPseudoBulk_one_sample_run cd variable chromsizes bed_path bigwig_path
    sid file n_cpu normalize_bigwig remove_duplicates w f rest :
  pr_read_bed E w file = inr (f :: rest) →
  ∃ named logs,
    outcome (correct_barcodes sid (f :: rest) w) = Return named
    ∧ Forall is_log_or_read logs
    ∧ reads logs = [file]
    ∧ writes logs = []
    ∧ exportPseudoBulk E (InDataFrame cd) variable chromsizes bed_path bigwig_path
        (PathDict [(sid, file)]) n_cpu normalize_bigwig remove_duplicates w
      = with_calls logs
          (export_groups E (Some cd) (Some (Name_isin (df_index cd) named))
             variable chromsizes bed_path bigwig_path n_cpu normalize_bigwig
             remove_duplicates w).
Proof.
  intros Hread.
  destruct (correct_barcodes_nonempty sid f rest w) as [named Hnamed].
  set (errors := (λ _ : string, suffix_error)
                   <$> filter (λ k, k ∉ cell_suffixes_of cd) [sid]).
  exists named,
    (errors ++ [reading_log file; ReadBed file]
     ++ calls (correct_barcodes sid (f :: rest) w)).
  assert (Herr : Forall is_log_or_read errors)
    by (apply Forall_fmap, Forall_forall; by intros x _).
  assert (Hcb : Forall is_log_or_read (calls (correct_barcodes sid (f :: rest) w)))
    by (by apply correct_barcodes_quiet).
  assert (Hcb' := correct_barcodes_calls sid (f :: rest) w).
  split; [done|]. split.
  { apply Forall_app. split; [done|]. by repeat constructor. }
  split.
  { rewrite !reads_app. rewrite (reads_quiet errors).
    - rewrite (reads_quiet (calls _)); [done|].
      eapply Forall_impl; [exact Hcb'|]. by intros c [].
    - apply Forall_fmap, Forall_forall. by intros x _. }
  split.
  { rewrite !writes_app. rewrite (writes_quiet errors).
    - rewrite (writes_quiet (calls _)); [done|].
      eapply Forall_impl; [exact Hcb'|]. by intros c [].
    - apply Forall_fmap, Forall_forall. intros x _ []. }
  unfold exportPseudoBulk.
  rewrite (run_bind_Return _ _ w (Some cd, Some (cell_suffixes_of cd)) w [])
    by reflexivity.
  rewrite with_calls_nil. cbn [fst snd get_fragments].
  assert (Hgf :
    (check_suffixes (InDataFrame cd) (Some (cell_suffixes_of cd))
       (Dict.keys [(sid, file)]) None
     ≫= λ sample_id, load_fragments E [(sid, file)] sample_id (Some cd)) w
    = mkRun (Return (Some (Name_isin (df_index cd) named))) w
        (errors ++ [reading_log file; ReadBed file]
         ++ calls (correct_barcodes sid (f :: rest) w))).
  { rewrite (run_bind_Return _ _ _ _ _ _
               (check_suffixes_run cd (cell_suffixes_of cd)
                  (Dict.keys [(sid, file)]) None w)).
    cbn [Dict.keys fmap list_fmap fst last from_option].
    rewrite load_fragments_run, dict_get_first, Hread, Hnamed.
    rewrite decide_False by (simpl; lia).
    unfold with_calls. cbn [outcome world calls].
    by rewrite !(right_id_L [] (++)). }
  by rewrite (run_bind_Return _ _ _ _ _ _ Hgf).
Qed.

(** X12.  An [input_data] that is neither a [cisTopicObject] nor a data frame
    (the annotation also allows a dictionary of data frames) leaves
    [cell_data] unassigned: the call never returns, and before it raises it
    has at most logged and read fragments.  Unless [path_to_fragments] is a
    dictionary, it raises [UnboundLocalError] for [cell_data] at line 104,
    having done nothing. *)
Theorem exportPseudoBulk_other_input (variable : string)
    (chromsizes : chromsizes_arg) (bed_path bigwig_path : string)
    (path_to_fragments : path_arg) (n_cpu : option Z)
    (normalize_bigwig remove_duplicates : option bool) w :
  let r := exportPseudoBulk E InOther variable chromsizes bed_path bigwig_path
             path_to_fragments n_cpu normalize_bigwig remove_duplicates w in
  (∃ e, outcome r = Raise e)
  ∧ Forall is_log_or_read (calls r)
  ∧ ((∀ d, path_to_fragments ≠ PathDict d) →
     r = mkRun (Raise (UnboundLocalError "cell_data")) w []).
Proof.
  intros r. subst r. unfold exportPseudoBulk. cbn [get_fragments_file].
  rewrite run_mret_bind. cbn [fst snd].
  destruct path_to_fragments as [|path|d].
  - cbn [get_fragments]. rewrite run_mret_bind.
    split; [by eexists|]. split; [constructor|done].
  - cbn [get_fragments]. rewrite run_mret_bind.
    split; [by eexists|]. split; [constructor|done].
  - cbn [get_fragments].
    destruct (load_fragments_without_cell_data d
                (from_option Some None (last (Dict.keys d))) w) as [e He].
    assert (Hgf :
      outcome ((check_suffixes InOther None (Dict.keys d) None
                ≫= λ sample_id, load_fragments E d sample_id None) w) = Raise e).
    { rewrite (run_bind_Return _ _ _ _ _ _
                 (check_suffixes_InOther None (Dict.keys d) None w)).
      by rewrite with_calls_nil. }
    rewrite (run_bind_outcome_Raise _ _ _ _ Hgf). cbn [outcome calls].
    split; [by eexists|]. split.
    + apply quiet_bind; [by apply check_suffixes_quiet|]. intros sample_id.
      by apply load_fragments_quiet.
    + intros H. by destruct (H d).
Qed.

(** X11.  An empty dictionary as [path_to_fragments]: the loop of line 81 has no
    pass, so [sample_id] is unassigned at line 85, which raises
    [UnboundLocalError] before anything is read or logged. *)
Theorem exportPseudoBulk_empty_dictionary (input_data : input_arg)
    (variable : string) (chromsizes : chromsizes_arg)
    (bed_path bigwig_path : string) (n_cpu : option Z)
    (normalize_bigwig remove_duplicates : option bool) w :
  (∀ obj, input_data ≠ InCisTopicObject obj) →
  exportPseudoBulk E input_data variable chromsizes bed_path bigwig_path
    (PathDict []) n_cpu normalize_bigwig remove_duplicates w
  = mkRun (Raise (UnboundLocalError "sample_id")) w [].
Proof.
  intros Hin. destruct input_data as [obj|df|]; [by destruct (Hin obj)|done..].
Qed.

(** X10.  A fragments file that is read as a table without rows: line 87 asks
    its column [Name] for the element 0, which raises a [LookupError]
    ([IndexError] or [KeyError]: the version of pandas decides which), after
    the errors of the loop, the log of line 85 and the read. *)
Theorem exportPseudoBulk_empty_fragments_file (cd : DataFrame)
    (variable : string) (chromsizes : chromsizes_arg)
    (bed_path bigwig_path : string) (d : dict string) (sid file : string)
    (n_cpu : option Z) (normalize_bigwig remove_duplicates : option bool) w :
  last (Dict.keys d) = Some sid →
  Dict.get d sid = Some file →
  pr_read_bed E w file = inr [] →
  exportPseudoBulk E (InDataFrame cd) variable chromsizes bed_path bigwig_path
    (PathDict d) n_cpu normalize_bigwig remove_duplicates w
  = mkRun (Raise (LookupError "0")) w
      (((λ _, suffix_error) <$> filter (λ k, k ∉ cell_suffixes_of cd) (Dict.keys d))
       ++ [reading_log file; ReadBed file]).
Proof.
  intros Hlast Hget Hread. unfold exportPseudoBulk.
  rewrite (run_bind_Return _ _ w (Some cd, Some (cell_suffixes_of cd)) w [])
    by reflexivity.
  rewrite with_calls_nil. cbn [fst snd get_fragments].
  apply run_bind_Raise.
  rewrite (run_bind_Return _ _ _ _ _ _
             (check_suffixes_run cd (cell_suffixes_of cd) (Dict.keys d) None w)).
  rewrite Hlast. cbn [from_option].
  rewrite load_fragments_run, Hget, Hread.
  assert (Hcb : correct_barcodes sid [] w = mkRun (Raise (LookupError "0")) w [])
    by reflexivity.
  rewrite Hcb. unfold with_calls. cbn [outcome world calls].
  by rewrite !(right_id_L [] (++)).
Qed.

(** X9.  A [variable] that is no column of the cell metadata is found out at
    line 104 only: with one sample and a readable file, the file has been
    read and its barcodes corrected when [KeyError] is raised; no directory
    was made and ray was not started. *)
Theorem exportPseudoBulk_missing_column (cd : DataFrame) (variable : string)
    (chromsizes : chromsizes_arg) (bed_path bigwig_path : string)
    (sid file : string) (n_cpu : option Z)
    (normalize_bigwig remove_duplicates : option bool) w f rest :
  Dict.get (df_columns cd) variable = None →
  pr_read_bed E w file = inr (f :: rest) →
  let r := exportPseudoBulk E (InDataFrame cd) variable chromsizes bed_path
             bigwig_path (PathDict [(sid, file)]) n_cpu normalize_bigwig
             remove_duplicates w in
  outcome r = Raise (KeyError variable)
  ∧ world r = w
  ∧ reads (calls r) = [file]
  ∧ Forall is_log_or_read (calls r).
Proof.
  intros Hcol Hread r. subst r.
  destruct (exportPseudoBulk_one_sample_run cd variable chromsizes bed_path
              bigwig_path sid file n_cpu normalize_bigwig remove_duplicates
              w f rest Hread) as (named & logs & _ & Hlogs & Hr & _ & ->).
  rewrite export_groups_missing_column by done.
  unfold with_calls. cbn [outcome world calls]. rewrite (right_id_L [] (++)).
  done.
Qed.

(** X8.  With a data frame as input and a [path_to_fragments] that is no
    dictionary ([None], or a path, which is never read), [fragments_df] is
    never assigned.  Where the output folders exist: if the column has a
    value, the comprehension of line 118 raises [NameError] after
    [ray.init], and [ray.shutdown] is not reached; if the frame has no row,
    the call returns two empty dictionaries. *)
Theorem exportPseudoBulk_without_dictionary (cd : DataFrame) (variable : string)
    (chromsizes : chromsizes_arg) (bed_path bigwig_path : string)
    (path_to_fragments : path_arg) (n_cpu : option Z)
    (normalize_bigwig remove_duplicates : option bool) w group_var :
  (∀ d, path_to_fragments ≠ PathDict d) →
  loc_column cd variable = Return group_var →
  os_path_exists E w bed_path = true →
  os_path_exists E w bigwig_path = true →
  exportPseudoBulk E (InDataFrame cd) variable chromsizes bed_path bigwig_path
    path_to_fragments n_cpu normalize_bigwig remove_duplicates w
  = mkRun (match sorted_set group_var with
           | [] => Return ([], [])
           | _ :: _ => Raise (NameError "fragments_df")
           end) w
      (match path_to_fragments with PathNone => [no_path_error] | _ => [] end
       ++ RayInit n_cpu
          :: match sorted_set group_var with [] => [RayShutdown] | _ :: _ => [] end).
Proof.
  intros Hpath Hgv Hbed Hbw.
  assert (Hrest :
    export_groups E (Some cd) None variable chromsizes bed_path bigwig_path
      n_cpu normalize_bigwig remove_duplicates w
    = mkRun (match sorted_set group_var with
             | [] => Return ([], [])
             | _ :: _ => Raise (NameError "fragments_df")
             end) w
        (RayInit n_cpu
         :: match sorted_set group_var with [] => [RayShutdown] | _ :: _ => [] end)).
  { unfold export_groups. cbn [local]. rewrite run_ret_bind, Hgv. cbn [lift].
    rewrite run_ret_bind.
    rewrite (run_bind_Return _ _ _ _ _ _ (ensure_dir_exists bed_path w Hbed)).
    rewrite with_calls_nil.
    rewrite (run_bind_Return _ _ _ _ _ _ (ensure_dir_exists bigwig_path w Hbw)).
    rewrite with_calls_nil, run_emit_bind.
    by destruct (sorted_set group_var). }
  unfold exportPseudoBulk.
  destruct path_to_fragments as [|path|d]; [| |by destruct (Hpath d)].
  - rewrite (run_bind_Return _ _ w (Some cd, Some (cell_suffixes_of cd)) w
               [no_path_error]) by reflexivity.
    cbn [fst snd get_fragments]. rewrite run_mret_bind, Hrest. reflexivity.
  - rewrite (run_bind_Return _ _ w (Some cd, Some (cell_suffixes_of cd)) w [])
      by reflexivity.
    cbn [fst snd get_fragments]. rewrite run_mret_bind, Hrest. reflexivity.
Qed.
End export_edges.

(** ** [exportPseudoBulk]: when it does return *)

(** The folder [path] is there for the run: it exists in [w], which is left
    as it is, or [os.makedirs] creates it and leaves [w']. *)
Definition folder_ready {W} (E : Externals W) (w : W) (path : string) (w' : W)
    : Prop :=
  (os_path_exists E w path = true ∧ w' = w)
  ∨ (os_path_exists E w path = false ∧ os_makedirs E w path = inr w').

(** The two writers succeed on each of the groups, taken one after the other:
    from the world [w] they leave [w']. *)
Inductive groups_written {W} (E : Externals W) (group_var : Series)
    (fragments : fragments_df) (chromsizes : chrom_rows)
    (bigwig_path bed_path : string) (normalize_bigwig : option bool)
    : W → list string → W → Prop :=
  | groups_written_nil w :
      groups_written E group_var fragments chromsizes bigwig_path bed_path
        normalize_bigwig w [] w
  | groups_written_cons w g groups w1 w2 w3 :
      pr_to_bigwig E w (bigwig_file bigwig_path g)
        (Name_isin (index_where group_var g) fragments) chromsizes
        normalize_bigwig None = inr w1 →
      pr_to_bed E w1 (bed_file bed_path g)
        (Name_isin (index_where group_var g) fragments) = inr w2 →
      groups_written E group_var fragments chromsizes bigwig_path bed_path
        normalize_bigwig w2 groups w3 →
      groups_written E group_var fragments chromsizes bigwig_path bed_path
        normalize_bigwig w (g :: groups) w3.

Section export_succeeds.
Context {W : Type} (E : Externals W).
Implicit Types w : W.

Lemma ensure_dir_ready path w w' :
  folder_ready E w path w' →
  ∃ cs, ensure_dir E path w = mkRun (Return tt) w' cs.
Proof.
  unfold ensure_dir, path_exists. rewrite run_bind. cbn [outcome world calls].
  intros [[-> ->]|[-> Hmk]]; [by eexists|].
  unfold makedirs, with_calls. rewrite Hmk. by eexists.
Qed.

Lemma groups_written_ran group_var fragments chromsizes bigwig_path bed_path
    normalize_bigwig (groups : list string) w w' :
  groups_written E group_var fragments chromsizes bigwig_path bed_path
    normalize_bigwig w groups w' →
  ∃ cs,
    ran ((λ group, exportPseudoBulk_ray E group_var group fragments
                     chromsizes bigwig_path bed_path normalize_bigwig
                     (Some true)) <$> groups) w
        ((λ g, [(g, [bigwig_file bigwig_path g; bed_file bed_path g])])
         <$> groups) w' cs.
Proof.
  induction 1 as [w|w g groups w1 w2 w3 Hbw Hbed _ [cs IH]].
  - exists []. constructor.
  - eexists. cbn [fmap list_fmap]. econstructor; [|exact IH].
    rewrite exportPseudoBulk_ray_run, Hbw, Hbed. reflexivity.
Qed.

Lemma export_groups_Return cd fragments variable chromsizes bed_path bigwig_path
    n_cpu normalize_bigwig w group_var w1 w2 w3 :
  loc_column cd variable = Return group_var →
  folder_ready E w bed_path w1 →
  folder_ready E w1 bigwig_path w2 →
  groups_written E group_var fragments (as_pyranges chromsizes) bigwig_path
    bed_path normalize_bigwig w2 (sorted_set group_var) w3 →
  let r := export_groups E (Some cd) (Some fragments) variable chromsizes
             bed_path bigwig_path n_cpu normalize_bigwig (Some true) w in
  outcome r
  = Return ((λ g, (g, bigwig_file bigwig_path g)) <$> sorted_set group_var,
            (λ g, (g, bed_file bed_path g)) <$> sorted_set group_var)
  ∧ world r = w3
  ∧ last (calls r) = Some RayShutdown.
Proof.
  intros Hgv Hbed Hbw Hgroups r. subst r. unfold export_groups. cbn [local].
  rewrite run_ret_bind, Hgv. cbn [lift]. rewrite run_ret_bind.
  destruct (ensure_dir_ready bed_path w w1 Hbed) as (cs1 & H1).
  rewrite (run_bind_Return _ _ _ _ _ _ H1).
  destruct (ensure_dir_ready bigwig_path w1 w2 Hbw) as (cs2 & H2).
  rewrite (run_bind_Return _ _ _ _ _ _ H2), run_emit_bind.
  rewrite (run_bind_Return _ _ w2
             ((λ group, exportPseudoBulk_ray E group_var group fragments
                          (as_pyranges chromsizes) bigwig_path bed_path
                          normalize_bigwig (Some true))
              <$> sorted_set group_var) w2 []) by (by apply for_each_pure).
  rewrite with_calls_nil.
  destruct (groups_written_ran _ _ _ _ _ _ _ _ _ Hgroups) as (cs3 & Hran).
  rewrite (run_bind_Return _ _ _ _ _ _ (ran_ray_get E _ _ _ _ _ Hran)),
    run_emit_bind.
  cbn beta.
  assert (Hnd : NoDup (sorted_set group_var)) by apply sorted_set_NoDup.
  rewrite (run_bind_Return _ _ _ _ _ _
             (paths_dict_run 0 (sorted_set group_var)
                (λ g, [bigwig_file bigwig_path g; bed_file bed_path g])
                (bigwig_file bigwig_path) w3 Hnd (λ g, eq_refl))).
  rewrite with_calls_nil.
  rewrite (run_bind_Return _ _ _ _ _ _
             (paths_dict_run 1 (sorted_set group_var)
                (λ g, [bigwig_file bigwig_path g; bed_file bed_path g])
                (bed_file bed_path) w3 Hnd (λ g, eq_refl))).
  rewrite with_calls_nil, run_mret. unfold with_calls. cbn [outcome world calls].
  split; [done|]. split; [done|]. rewrite (right_id_L [] (++)), !(assoc_L (++)).
  apply last_snoc.
Qed.

(** X3.  A run in which nothing fails returns.  Given a data frame that has
    the column [variable], one sample whose file is read as a table with a
    first row, and [remove_duplicates] [True]: when each of the two folders
    exists or is created, and [to_bigwig] and [to_bed] succeed on the rows of
    every group in turn, [exportPseudoBulk] returns; the two dictionaries
    give every value of the column its bigwig and its bed file, the world is
    the one the last write leaves, and the last call is [ray.shutdown]. *)
Theorem exportPseudoBulk_returns (cd : DataFrame) (variable : string)
    (chromsizes : chromsizes_arg) (bed_path bigwig_path : string)
    (sid file : string) (n_cpu : option Z) (normalize_bigwig : option bool)
    w f rest named group_var w1 w2 w3 :
  pr_read_bed E w file = inr (f :: rest) →
  outcome (correct_barcodes sid (f :: rest) w) = Return named →
  loc_column cd variable = Return group_var →
  folder_ready E w bed_path w1 →
  folder_ready E w1 bigwig_path w2 →
  groups_written E group_var (Name_isin (df_index cd) named)
    (as_pyranges chromsizes) bigwig_path bed_path normalize_bigwig
    w2 (sorted_set group_var) w3 →
  let r := exportPseudoBulk E (InDataFrame cd) variable chromsizes bed_path
             bigwig_path (PathDict [(sid, file)]) n_cpu normalize_bigwig
             (Some true) w in
  outcome r
  = Return ((λ g, (g, bigwig_file bigwig_path g)) <$> sorted_set group_var,
            (λ g, (g, bed_file bed_path g)) <$> sorted_set group_var)
  ∧ world r = w3
  ∧ last (calls r) = Some RayShutdown.
Proof.
  intros Hread Hnamed Hgv Hbed Hbw Hgroups r. subst r.
  destruct (exportPseudoBulk_one_sample_run E cd variable chromsizes bed_path
              bigwig_path sid file n_cpu normalize_bigwig (Some true)
              w f rest Hread) as (named' & logs & Hnamed' & _ & _ & _ & ->).
  rewrite Hnamed in Hnamed'. injection Hnamed' as <-.
  destruct (export_groups_Return cd (Name_isin (df_index cd) named) variable
              chromsizes bed_path bigwig_path n_cpu normalize_bigwig w
              group_var w1 w2 w3 Hgv Hbed Hbw Hgroups) as (Ho & Hw & Hl).
  unfold with_calls. cbn [outcome world calls]. split; [done|]. split; [done|].
  rewrite last_app, Hl. done.
Qed.
End export_succeeds.

(** ** [ray.shutdown] *)

Definition not_shutdown (c : call) : Prop := c ≠ RayShutdown.

Lemma not_shutdown_logs : logs_pass not_shutdown.
Proof. by intros level msg args. Qed.

Section shutdown.
Context {W : Type} (E : Externals W).
Implicit Types w : W.

(** A call of a computation that returns, made by its second half. *)
Lemma bind_Return_elem_of {A B} c (m : M W A) (k : A → M W B) w b :
  outcome ((m ≫= k) w) = Return b →
  (∀ a, outcome (k a (world (m w))) = Return b → c ∈ calls (k a (world (m w)))) →
  c ∈ calls ((m ≫= k) w).
Proof.
  intros H Hk. apply bind_Return_inv in H as (a & Ha & H & ->).
  unfold with_calls. cbn [calls]. apply elem_of_app. right. by apply Hk.
Qed.

Lemma export_tasks_Return_inv group_var (fragments : option fragments_df)
    chromsizes bigwig_path bed_path normalize_bigwig remove_duplicates
    (groups : list string) w tasks :
  outcome (for_each (λ group,
                       match fragments with
                       | Some df =>
                           mret (exportPseudoBulk_ray E group_var group df
                                   chromsizes bigwig_path bed_path
                                   normalize_bigwig remove_duplicates)
                       | None => raise (NameError "fragments_df")
                       end) groups w) = Return tasks →
  tasks = (λ group, exportPseudoBulk_ray E group_var group (default [] fragments)
                      chromsizes bigwig_path bed_path normalize_bigwig
                      remove_duplicates) <$> groups.
Proof.
  destruct fragments as [df|].
  - rewrite (for_each_pure _
               (λ group, exportPseudoBulk_ray E group_var group df chromsizes
                           bigwig_path bed_path normalize_bigwig remove_duplicates))
      by done.
    by intros [= <-].
  - destruct groups as [|g groups]; [by intros [= <-]|]. done.
Qed.

Lemma export_groups_shutdown cell_data fragments variable chromsizes bed_path
    bigwig_path n_cpu normalize_bigwig remove_duplicates w :
  let r := export_groups E cell_data fragments variable chromsizes bed_path
             bigwig_path n_cpu normalize_bigwig remove_duplicates w in
  RayShutdown ∈ calls r ↔ ∃ res, outcome r = Return res.
Proof.
  intros r. subst r. unfold export_groups. split.
  - intros Hin.
    apply (bind_elem_of_inv not_shutdown) in Hin as (cd & _ & Hin & ->);
      [|apply quiet_local|by intros H].
    apply (bind_elem_of_inv not_shutdown) in Hin as (group_var & _ & Hin & ->);
      [|apply quiet_lift|by intros H].
    apply (bind_elem_of_inv not_shutdown) in Hin as ([] & _ & Hin & ->);
      [|by apply ensure_dir_passes|by intros H].
    apply (bind_elem_of_inv not_shutdown) in Hin as ([] & _ & Hin & ->);
      [|by apply ensure_dir_passes|by intros H].
    apply (bind_elem_of_inv not_shutdown) in Hin as ([] & _ & Hin & ->);
      [|by apply quiet_emit|by intros H].
    apply (bind_elem_of_inv not_shutdown) in Hin as (tasks & Htasks & Hin & ->);
      [|apply quiet_for_each; intros g;
        destruct fragments; [apply quiet_mret|apply quiet_raise]
       |by intros H].
    apply export_tasks_Return_inv in Htasks as ->.
    apply (bind_elem_of_inv not_shutdown) in Hin as (paths & Hpaths & _ & ->);
      [| |by intros H].
    2: { apply quiet_ray_get, Forall_fmap, Forall_forall. intros g _.
         change (quiet not_shutdown
                   (exportPseudoBulk_ray E group_var g (default [] fragments)
                      (as_pyranges chromsizes) bigwig_path bed_path
                      normalize_bigwig remove_duplicates)).
         apply (exportPseudoBulk_ray_quiet E not_shutdown not_shutdown_logs).
         by intros _ rows. }
    apply ray_get_Return_inv in Hpaths as (w3 & cs & Hran & Hrun).
    rewrite Hrun. cbn [world].
    apply ran_export_tasks in Hran as (_ & -> & _).
    rewrite run_emit_bind. cbn beta.
    assert (Hnd : NoDup (sorted_set group_var)) by apply sorted_set_NoDup.
    rewrite (run_bind_Return _ _ _ _ _ _
               (paths_dict_run 0 (sorted_set group_var)
                  (λ g, [bigwig_file bigwig_path g; bed_file bed_path g])
                  (bigwig_file bigwig_path) w3 Hnd (λ g, eq_refl))).
    rewrite with_calls_nil.
    rewrite (run_bind_Return _ _ _ _ _ _
               (paths_dict_run 1 (sorted_set group_var)
                  (λ g, [bigwig_file bigwig_path g; bed_file bed_path g])
                  (bed_file bed_path) w3 Hnd (λ g, eq_refl))).
    by eexists.
  - intros [res H].
    eapply bind_Return_elem_of; [exact H|]. clear H. intros cd H.
    eapply bind_Return_elem_of; [exact H|]. clear H. intros group_var H.
    eapply bind_Return_elem_of; [exact H|]. clear H. intros [] H.
    eapply bind_Return_elem_of; [exact H|]. clear H. intros [] H.
    eapply bind_Return_elem_of; [exact H|]. clear H. intros [] H.
    eapply bind_Return_elem_of; [exact H|]. clear H. intros tasks H.
    eapply bind_Return_elem_of; [exact H|]. clear H. intros paths H.
    rewrite run_emit_bind. unfold with_calls. cbn [calls app]. left.
Qed.

(** X4.  [exportPseudoBulk] has no [try]: [ray.shutdown] is called if and only
    if the call returns.  Whenever it raises, after [ray.init] or before,
    ray is left as it was at that point. *)
Theorem exportPseudoBulk_shutdown_iff_returns (input_data : input_arg)
    (variable : string) (chromsizes : chromsizes_arg)
    (bed_path bigwig_path : string) (path_to_fragments : path_arg)
    (n_cpu : option Z) (normalize_bigwig remove_duplicates : option bool) w :
  let r := exportPseudoBulk E input_data variable chromsizes bed_path
             bigwig_path path_to_fragments n_cpu normalize_bigwig
             remove_duplicates w in
  RayShutdown ∈ calls r ↔ ∃ res, outcome r = Return res.
Proof.
  intros r. subst r. unfold exportPseudoBulk. split.
  - intros Hin.
    apply (bind_elem_of_inv not_shutdown) in Hin as (locals & _ & Hin & ->);
      [|apply get_fragments_file_quiet, not_shutdown_logs|by intros H].
    apply (bind_elem_of_inv not_shutdown) in Hin as (fragments & _ & Hin & ->);
      [|by apply get_fragments_quiet; [apply not_shutdown_logs|]|by intros H].
    by apply export_groups_shutdown.
  - intros [res H].
    eapply bind_Return_elem_of; [exact H|]. clear H. intros locals H.
    eapply bind_Return_elem_of; [exact H|]. clear H. intros fragments H.
    apply export_groups_shutdown. by eexists.
Qed.
End shutdown.

(** ** [peakCalling]: when it returns, and [ray.shutdown] *)

Section peak_calling_returns.
Context {W : Type} (E : Externals W).
Context (macs_path outdir genome_size : string).
Context (input_format shift ext_size keep_dup q_value : pyval).
Implicit Types w : W.

#[local] Abbreviation task :=
  (peak_task E macs_path outdir genome_size input_format shift ext_size
     keep_dup q_value).
#[local] Abbreviation object :=
  (peak_object macs_path outdir genome_size input_format shift ext_size
     keep_dup q_value).
#[local] Abbreviation peaks_of :=
  (narrow_peaks_of E macs_path outdir genome_size input_format shift ext_size
     keep_dup q_value).

Lemma peak_task_quiet φ item :
  logs_pass φ → (∀ cmd, φ (CheckOutput cmd)) → (∀ path, φ (ReadCsv path)) →
  quiet φ (task item).
Proof.
  intros Hlog Hcmd Hread w. rewrite peak_task_run. cbn zeta.
  assert (Hcall : Forall φ (calls (MACS_callPeak.callpeak E (object item) w))).
  { rewrite callpeak_run. destruct (callpeak_cmd (object item)) as [e|cmd];
      [constructor|].
    destruct (shell E w cmd) as [[code out] w'].
    destruct (decide (code = 0));
      [|repeat constructor; first [apply Hlog|apply Hcmd]].
    destruct (pd_read_csv E w' _);
      repeat constructor; first [apply Hlog|apply Hcmd|apply Hread]. }
  destruct (outcome (MACS_callPeak.callpeak E (object item) w)); [done|].
  cbn [calls]. apply Forall_app. split; [done|]. repeat constructor. apply Hlog.
Qed.

(** The objects of tasks that returned have their [narrow_peak]. *)
Lemma ran_peak_objects (items : dict string) w objs w' cs :
  ran (task <$> items) w objs w' cs →
  ∃ ps, Forall2 (λ obj p, MACS_callPeak.narrow_peak obj = Some p) objs ps.
Proof.
  revert w objs cs. induction items as [|item items IH]; intros w objs cs Hran.
  - inversion Hran; subst. exists []. constructor.
  - inversion Hran as [|t tasks w0 obj w1 cs1 objs' w2 cs2 Ht Hran']; subst.
    apply IH in Hran' as [ps Hps].
    destruct (peak_task_Return_inv E macs_path outdir genome_size input_format
                shift ext_size keep_dup q_value item w obj) as
      (cmd & out & w'' & tab & _ & _ & _ & _ & Hobj & _); [by rewrite Ht|].
    exists (loaded_peaks tab :: ps). by constructor.
Qed.

(** The comprehension of line 246, on objects that have their
    [narrow_peak]. *)
Lemma get_narrow_peaks_run (keys : list string) (objs : list MACS_callPeak.t)
    (ps : list PyRanges) w :
  length keys = length objs →
  Forall2 (λ obj p, MACS_callPeak.narrow_peak obj = Some p) objs ps →
  for_each (λ i,
              k ← list_getitem keys i;
              obj ← list_getitem objs i;
              p ← get_narrow_peak obj;
              mret (k, p))
           (seq 0 (length objs)) w
  = mkRun (Return (zip keys ps)) w [].
Proof.
  intros Hlen Hps.
  replace (length objs) with (length (zip keys objs))
    by (rewrite length_zip_with; lia).
  rewrite (for_each_range _
             (λ ko : string * MACS_callPeak.t,
                p ← get_narrow_peak ko.2; mret (ko.1, p))).
  - clear Hlen. revert keys. induction Hps as [|obj p objs ps Hp Hps IH];
      intros [|k keys]; try done.
    cbn [zip zip_with for_each fst snd].
    assert (Hg : get_narrow_peak (W:=W) obj = mret p)
      by (unfold get_narrow_peak; by rewrite Hp).
    rewrite Hg.
    rewrite (run_bind_Return _ _ w (k, p) w []) by reflexivity.
    rewrite with_calls_nil.
    by rewrite (run_bind_Return _ _ _ _ _ _ (IH keys)).
  - intros i [k obj] w0 Hi.
    apply lookup_zip_with_Some in Hi as (k' & obj' & [= <- <-] & Hk & Hobj).
    unfold list_getitem. rewrite Hk, Hobj. by rewrite !run_mret_bind.
Qed.

Lemma peaks_of_ran w (items : dict string) d :
  peaks_of w items d →
  ∃ objs w' cs,
    ray_get E (task <$> items) w = mkRun (Return objs) w' cs
    ∧ Forall2 (λ obj p, MACS_callPeak.narrow_peak obj = Some p) objs d.*2
    ∧ d.*1 = items.*1.
Proof.
  induction 1 as [w|w name bed rest cmd out w' tab d Hcmd Hsh Hread Hwidth _ IH].
  - exists [], w, []. by repeat split.
  - destruct IH as (objs & w2 & cs & Hrun & Hps & Hkeys).
    cbn [fmap list_fmap].
    assert (Htask : ∃ obj cs1,
              task (name, bed) w = mkRun (Return obj) w' cs1
              ∧ MACS_callPeak.narrow_peak obj = Some (loaded_peaks tab)).
    { rewrite peak_task_run. cbn zeta. rewrite callpeak_run, Hcmd, Hsh.
      rewrite decide_True by done.
      change (MACS_callPeak.outdir (object (name, bed))) with outdir.
      change (MACS_callPeak.name (object (name, bed))) with name.
      rewrite Hread. rewrite decide_True by done. cbn [outcome world calls].
      by eexists _, _. }
    destruct Htask as (obj & cs1 & Htask & Hobj).
    rewrite (ray_get_cons_Return E _ _ w obj) by (by rewrite Htask).
    rewrite Htask. cbn zeta. cbn [outcome world calls].
    change (list_fmap ?A ?B ?f ?l) with (f <$> l). rewrite Hrun.
    cbn [outcome world calls].
    eexists _, _, _. split; [reflexivity|]. split.
    + constructor; [done|exact Hps].
    + by f_equal.
Qed.

(** X15.  The converse of the description of a returning run: if, item after
    item, the peak caller exits with status 0 and leaves a narrowPeak file
    that is read as a table of ten columns, [peakCalling] returns the
    dictionary of these tables, and its last call is [ray.shutdown]. *)
Theorem peakCalling_returns (bed_paths : dict string) (n_cpu : option Z) w
    (d : dict PyRanges) :
  Dict.wf bed_paths →
  peaks_of w bed_paths d →
  let r := peakCalling E macs_path bed_paths outdir genome_size n_cpu
             input_format shift ext_size keep_dup q_value w in
  outcome r = Return d ∧ last (calls r) = Some RayShutdown.
Proof.
  intros Hwf Hd r. subst r. rewrite peakCalling_run by done.
  destruct (peaks_of_ran w bed_paths d Hd) as (objs & w' & cs & Hrun & Hps & Hkeys).
  rewrite (run_bind_Return _ _ _ _ _ _ Hrun), run_emit_bind. cbn beta.
  assert (Hlen : length (Dict.keys bed_paths) = length objs).
  { apply Forall2_length in Hps. unfold Dict.keys.
    rewrite <- Hkeys, !length_fmap in *. done. }
  rewrite (run_bind_Return _ _ _ _ _ _
             (get_narrow_peaks_run (Dict.keys bed_paths) objs d.*2 w' Hlen Hps)).
  rewrite with_calls_nil, run_mret. unfold with_calls. cbn [outcome calls].
  unfold Dict.keys. rewrite <- Hkeys, zip_fst_snd. split.
  - rewrite dict_of_items_NoDup; [done|]. rewrite Hkeys. exact Hwf.
  - rewrite (right_id_L [] (++)), (assoc_L (++)). apply last_snoc.
Qed.

(** X16.  [peakCalling] has no [try] either: for a dictionary [bed_paths],
    [ray.shutdown] is called if and only if the call returns. *)
Theorem peakCalling_shutdown_iff_returns (bed_paths : dict string)
    (n_cpu : option Z) w :
  Dict.wf bed_paths →
  let r := peakCalling E macs_path bed_paths outdir genome_size n_cpu
             input_format shift ext_size keep_dup q_value w in
  RayShutdown ∈ calls r ↔ ∃ d, outcome r = Return d.
Proof.
  intros Hwf r. subst r. rewrite peakCalling_run by done.
  unfold with_calls at 1 2. cbn [outcome calls]. split.
  - intros [Hin|Hin]%elem_of_cons; [done|].
    apply (bind_elem_of_inv not_shutdown) in Hin as (objs & Hobjs & _ & ->);
      [| |by intros H].
    2: { apply quiet_ray_get, Forall_fmap, Forall_forall. intros item _.
         by apply peak_task_quiet; [apply not_shutdown_logs|..]. }
    apply ray_get_Return_inv in Hobjs as (w' & cs & Hran & Hrun).
    rewrite Hrun. cbn [world]. rewrite run_emit_bind. cbn beta.
    assert (Hlen : length (Dict.keys bed_paths) = length objs).
    { apply ran_length in Hran. unfold Dict.keys.
      rewrite Hran, !length_fmap. done. }
    apply ran_peak_objects in Hran as [ps Hps].
    rewrite (run_bind_Return _ _ _ _ _ _
               (get_narrow_peaks_run (Dict.keys bed_paths) objs ps w' Hlen Hps)).
    by eexists.
  - intros [d H]. apply elem_of_cons. right.
    eapply bind_Return_elem_of; [exact H|]. clear H. intros objs H.
    rewrite run_emit_bind. unfold with_calls. cbn [calls app]. left.
Qed.
End peak_calling_returns.

(** ** [exportPseudoBulk]: what a run touches *)

(** The calls that [exportPseudoBulk] may make: logs, reads of fragments,
    the two output folders, ray, and for a value [g] of the column
    [variable] the files [bed_path + g + '.bed.gz'] and
    [bigwig_path + g + '.bw']; no subprocess and no other file. *)
Definition expected_call (input_data : input_arg) (variable : string)
    (bed_path bigwig_path : string) (c : call) : Prop :=
  match c with
  | Log _ _ _ | ReadBed _ | RayInit _ | RayShutdown => True
  | Makedirs path => path = bed_path ∨ path = bigwig_path
  | ToBed path _ =>
      ∃ cd group_var g,
        input_data = InDataFrame cd ∧ loc_column cd variable = Return group_var
        ∧ g ∈ group_var.*2 ∧ path = bed_file bed_path g
  | ToBigwig path _ _ _ _ =>
      ∃ cd group_var g,
        input_data = InDataFrame cd ∧ loc_column cd variable = Return group_var
        ∧ g ∈ group_var.*2 ∧ path = bigwig_file bigwig_path g
  | ReadCsv _ | CheckOutput _ => False
  end.

Section export_frame.
Context {W : Type} (E : Externals W).
Implicit Types w : W.

Lemma load_fragments_reads d sample_id cell_data w :
  reads (calls (load_fragments E d sample_id cell_data w))
  = match sample_id with
    | Some sid =>
        match Dict.get d sid with
        | Some file => [file]
        | None => []
        end
    | None => []
    end.
Proof.
  rewrite load_fragments_run. destruct sample_id as [sid|]; [|done].
  destruct (Dict.get d sid) as [file|]; [|done].
  destruct (pr_read_bed E w file) as [e|loaded]; [done|].
  rewrite reads_with_calls, reads_app.
  assert (Hcb := correct_barcodes_calls sid loaded w).
  rewrite (reads_quiet (calls (correct_barcodes sid loaded w)))
    by (eapply Forall_impl; [exact Hcb|]; by intros c []).
  destruct (outcome (correct_barcodes sid loaded w)); [done|].
  destruct cell_data; [|done]. by destruct (decide (1 < length d)%nat).
Qed.

Lemma export_groups_reads cell_data fragments variable chromsizes bed_path
    bigwig_path n_cpu normalize_bigwig remove_duplicates w :
  reads (calls (export_groups E cell_data fragments variable chromsizes bed_path
                  bigwig_path n_cpu normalize_bigwig remove_duplicates w)) = [].
Proof.
  apply reads_quiet. apply export_groups_quiet; try done.
  intros cd group_var group df _ _ _ _.
  apply exportPseudoBulk_ray_quiet; [by intros level msg args|]. by intros _ rows.
Qed.

(** X5.  Whatever the input and however the call ends, [exportPseudoBulk] reads
    at most one fragments file: the one that the dictionary gives for its
    last key. *)
Theorem exportPseudoBulk_reads_last_sample (input_data : input_arg)
    (variable : string) (chromsizes : chromsizes_arg)
    (bed_path bigwig_path : string) (path_to_fragments : path_arg)
    (n_cpu : option Z) (normalize_bigwig remove_duplicates : option bool) w :
  let r := exportPseudoBulk E input_data variable chromsizes bed_path
             bigwig_path path_to_fragments n_cpu normalize_bigwig
             remove_duplicates w in
  reads (calls r) = []
  ∨ ∃ d sid file,
      path_to_fragments = PathDict d
      ∧ last (Dict.keys d) = Some sid
      ∧ Dict.get d sid = Some file
      ∧ reads (calls r) = [file].
Proof.
  intros r. subst r. unfold exportPseudoBulk.
  assert (Hload : ∀ (d : dict string) cell_data logs rest,
    Forall not_read logs →
    (∀ fragments w', reads (calls (rest fragments w')) = []) →
    let r := with_calls logs
               ((load_fragments E d (last (Dict.keys d)) cell_data
                 ≫= rest : M W (dict string * dict string)) w) in
    reads (calls r) = []
    ∨ ∃ sid file,
        last (Dict.keys d) = Some sid ∧ Dict.get d sid = Some file
        ∧ reads (calls r) = [file]).
  { intros d cell_data logs rest Hlogs Hrest r. subst r.
    rewrite reads_with_calls, (reads_quiet logs Hlogs), calls_bind, reads_app.
    rewrite load_fragments_reads. cbn [app].
    assert (Hk : reads match outcome (load_fragments E d (last (Dict.keys d))
                                        cell_data w) with
                       | Return a =>
                           calls (rest a (world (load_fragments E d
                                                   (last (Dict.keys d))
                                                   cell_data w)))
                       | Raise _ => []
                       end = []).
    { destruct (outcome _); [done|apply Hrest]. }
    rewrite Hk, (right_id_L [] (++)).
    destruct (last (Dict.keys d)) as [sid|]; [|by left].
    destruct (Dict.get d sid) as [file|] eqn:Hget; [|by left].
    right. by exists sid, file. }
  destruct input_data as [obj|df|].
  - by left.
  - destruct (get_fragments_file_DataFrame df path_to_fragments w)
      as (logs & Hrun & Hlogs).
    rewrite (run_bind_Return _ _ _ _ _ _ Hrun). cbn [fst snd].
    assert (Hnr : Forall not_read logs)
      by (eapply Forall_impl; [exact Hlogs|]; by intros c []).
    destruct path_to_fragments as [|path|d].
    + left. cbn [get_fragments]. rewrite run_mret_bind, reads_with_calls.
      by rewrite (reads_quiet logs Hnr), export_groups_reads.
    + left. cbn [get_fragments]. rewrite run_mret_bind, reads_with_calls.
      by rewrite (reads_quiet logs Hnr), export_groups_reads.
    + cbn [get_fragments].
      assert (Hgf : ∀ rest : option fragments_df → M W (dict string * dict string),
        ((check_suffixes (InDataFrame df) (Some (cell_suffixes_of df))
            (Dict.keys d) None
          ≫= λ sample_id, load_fragments E d sample_id (Some df)) ≫= rest) w
        = with_calls ((λ _, suffix_error) <$>
                        filter (λ k, k ∉ cell_suffixes_of df) (Dict.keys d))
            ((load_fragments E d (last (Dict.keys d)) (Some df) ≫= rest) w)).
      { intros rest. rewrite (run_bind (_ ≫= _) rest w).
        rewrite (run_bind_Return _ _ _ _ _ _
                   (check_suffixes_run df (cell_suffixes_of df) (Dict.keys d)
                      None w)).
        assert (Hs : from_option Some None (last (Dict.keys d))
                     = last (Dict.keys d)) by (by destruct (last (Dict.keys d))).
        rewrite Hs. rewrite (run_bind (load_fragments _ _ _ _) rest w).
        unfold with_calls. cbn [outcome world calls].
        destruct (outcome (load_fragments E d (last (Dict.keys d)) (Some df) w));
          cbn [outcome world calls]; [done|].
        by rewrite (assoc_L (++)). }
      rewrite Hgf, with_calls_app.
      destruct (Hload d (Some df)
                  (logs ++ ((λ _, suffix_error) <$>
                              filter (λ k, k ∉ cell_suffixes_of df) (Dict.keys d)))
                  (λ fragments,
                     export_groups E (Some df) fragments variable chromsizes
                       bed_path bigwig_path n_cpu normalize_bigwig
                       remove_duplicates))
        as [H|(sid & file & H1 & H2 & H3)];
        [| |left; exact H|right; by exists d, sid, file].
      * apply Forall_app. split; [exact Hnr|].
        apply Forall_fmap, Forall_forall. by intros x _.
      * intros fragments w'.
        exact (export_groups_reads (Some df) fragments variable chromsizes
                 bed_path bigwig_path n_cpu normalize_bigwig remove_duplicates w').
  - cbn [get_fragments_file]. rewrite run_mret_bind. cbn [fst snd].
    destruct path_to_fragments as [|path|d].
    + by left.
    + by left.
    + cbn [get_fragments].
      assert (Hgf : ∀ rest : option fragments_df → M W (dict string * dict string),
        ((check_suffixes InOther None (Dict.keys d) None
          ≫= λ sample_id, load_fragments E d sample_id None) ≫= rest) w
        = with_calls [] ((load_fragments E d (last (Dict.keys d)) None ≫= rest) w)).
      { intros rest. rewrite (run_bind (_ ≫= _) rest w).
        rewrite (run_bind_Return _ _ _ _ _ _
                   (check_suffixes_InOther None (Dict.keys d) None w)).
        assert (Hs : from_option Some None (last (Dict.keys d))
                     = last (Dict.keys d)) by (by destruct (last (Dict.keys d))).
        rewrite Hs, !with_calls_nil.
        by rewrite (run_bind (load_fragments _ _ _ _) rest w). }
      rewrite Hgf.
      destruct (Hload d None []
                  (λ fragments,
                     export_groups E None fragments variable chromsizes
                       bed_path bigwig_path n_cpu normalize_bigwig
                       remove_duplicates))
        as [H|(sid & file & H1 & H2 & H3)];
        [| |left; exact H|right; by exists d, sid, file].
      * constructor.
      * intros fragments w'.
        exact (export_groups_reads None fragments variable chromsizes
                 bed_path bigwig_path n_cpu normalize_bigwig remove_duplicates w').
Qed.

(** X6.  Whatever the input and however the call ends, every call of a run of
    [exportPseudoBulk] is an expected one: it starts no subprocess, makes no
    directory but the two output folders, and writes no file but the bed and
    bigwig files of the values of the column. *)
Theorem exportPseudoBulk_expected_calls (input_data : input_arg)
    (variable : string) (chromsizes : chromsizes_arg)
    (bed_path bigwig_path : string) (path_to_fragments : path_arg)
    (n_cpu : option Z) (normalize_bigwig remove_duplicates : option bool) w :
  Forall (expected_call input_data variable bed_path bigwig_path)
    (calls (exportPseudoBulk E input_data variable chromsizes bed_path
              bigwig_path path_to_fragments n_cpu normalize_bigwig
              remove_duplicates w)).
Proof.
  apply exportPseudoBulk_quiet; try done.
  - by left.
  - by right.
  - intros cd group_var group df -> Hgv Hg.
    apply exportPseudoBulk_ray_quiet; [done|]. intros _ rows.
    apply elem_of_sorted_set in Hg.
    split; by exists cd, group_var, group.
Qed.

(** X7.  Unless [remove_duplicates] is [True], a run of [exportPseudoBulk]
    writes no file at all, and it returns only when the column has no
    value, with two empty dictionaries. *)
Theorem exportPseudoBulk_keep_duplicates_writes_nothing (input_data : input_arg)
    (variable : string) (chromsizes : chromsizes_arg)
    (bed_path bigwig_path : string) (path_to_fragments : path_arg)
    (n_cpu : option Z) (normalize_bigwig remove_duplicates : option bool) w :
  remove_duplicates ≠ Some true →
  let r := exportPseudoBulk E input_data variable chromsizes bed_path
             bigwig_path path_to_fragments n_cpu normalize_bigwig
             remove_duplicates w in
  writes (calls r) = []
  ∧ ∀ res, outcome r = Return res → res = ([], []).
Proof.
  intros Hrd r. subst r. split.
  - apply writes_quiet.
    apply (exportPseudoBulk_quiet E (λ c, ¬ is_write c)); try (by intros H).
    + by intros level msg args H.
    + by intros path H.
    + intros cd group_var group df _ _ _.
      apply exportPseudoBulk_ray_quiet; [by intros level msg args H|].
      by intros ->.
  - intros res H.
    apply exportPseudoBulk_Return_inv in H
      as (cd & group_var & named & _ & _ & Hcase & _ & ->).
    destruct Hcase as [->|(sid & file & loaded & _ & _ & _ & -> & _)]; done.
Qed.
End export_frame.

(** ** Sample ids and barcode suffixes *)

Section suffixes.
Import PyStr.

Lemma split_fields c s :
  Forall (λ field, c ∉ String.list_ascii_of_string field) (split c s).
Proof.
  induction s as [|a s IH]; simpl.
  - repeat constructor. apply not_elem_of_nil.
  - destruct (decide (a = c)) as [->|Hne].
    + constructor; [apply not_elem_of_nil|exact IH].
    + destruct (split c s) as [|field fields].
      * repeat constructor. simpl. rewrite not_elem_of_cons.
        split; [done|apply not_elem_of_nil].
      * apply Forall_cons in IH as [Hfield Hfields]. constructor; [|done].
        simpl. rewrite not_elem_of_cons. by split.
Qed.

Lemma Forall_List_last {A} (P : A → Prop) (l : list A) (d : A) :
  P d → Forall P l → P (List.last l d).
Proof.
  intros Hd. induction 1 as [|x l Hx Hl IH]; [done|].
  simpl. destruct l; [done|exact IH].
Qed.

(** A field of [split] has no separator. *)
Lemma last_field_no_separator c s :
  c ∉ String.list_ascii_of_string (last_field c s).
Proof.
  unfold last_field. apply (Forall_List_last (λ field, c ∉ String.list_ascii_of_string field)).
  - apply not_elem_of_nil.
  - apply split_fields.
Qed.

Lemma split_without_separator c t :
  c ∉ String.list_ascii_of_string t → split c t = [t].
Proof.
  induction t as [|a t IH]; simpl; [done|].
  rewrite not_elem_of_cons. intros [Hne Ht].
  rewrite decide_False by done. by rewrite IH.
Qed.

Lemma split_app_separator c s t :
  c ∉ String.list_ascii_of_string t →
  ∃ fields, split c (s +:+ String c t) = fields ++ [t] ∧ fields ≠ [].
Proof.
  intros Ht. induction s as [|a s (fields & Hs & Hne)].
  - change (EmptyString +:+ String c t) with (String c t). simpl.
    rewrite decide_True by done. rewrite split_without_separator by done.
    by exists [EmptyString].
  - change (String a s +:+ String c t) with (String a (s +:+ String c t)).
    simpl. rewrite Hs. destruct (decide (a = c)).
    + by exists (EmptyString :: fields).
    + destruct fields as [|field fields]; [done|].
      by exists (String a field :: fields).
Qed.

(** [(s + '-' + t).split('-')[-1]] is [t], when [t] has no ['-']. *)
Lemma last_field_app c s t :
  c ∉ String.list_ascii_of_string t → last_field c (s +:+ String c t) = t.
Proof.
  intros Ht. destruct (split_app_separator c s t Ht) as (fields & Hs & _).
  unfold last_field. rewrite Hs. apply List.last_last.
Qed.
End suffixes.

(** X13.  Lines 91 and 77 agree on what a suffix is, for a sample id without
    ['-']: every Name that the barcode correction gives ends, in the sense
    of [split('-')[-1]], in the sample id. *)
Theorem correct_barcodes_suffix {W} (sample_id : string)
    (fragments named : fragments_df) (w : W) :
  "-"%char ∉ String.list_ascii_of_string sample_id →
  outcome (correct_barcodes sample_id fragments w) = Return named →
  length named = length fragments
  ∧ Forall (λ f, PyStr.last_field "-" (Name f) = sample_id) named.
Proof.
  intros Hsid. unfold correct_barcodes. destruct fragments as [|f rest]; [done|].
  rewrite run_mret_bind.
  destruct (decide (PyStr.find (Name f) "-" ≠ -1)); intros [= <-].
  all: change (list_fmap ?A ?B ?g ?l) with (g <$> l).
  all: split; [cbn [length]; by rewrite !length_fmap|].
  all: constructor; [cbn [Name set_Name]; by apply last_field_app|].
  all: rewrite ?Forall_fmap; apply Forall_forall; intros x _;
    cbn [Name set_Name compose]; by apply last_field_app.
Qed.

(** X14.  A key of [path_to_fragments] that has a ['-'] is no barcode suffix,
    whatever the index of the cell metadata: line 77 keeps what follows the
    last ['-'].  The loop of line 81 logs its error for such a key. *)
Theorem exportPseudoBulk_dash_in_sample_id {W} (E : Externals W)
    (cd : DataFrame) (variable : string) (chromsizes : chromsizes_arg)
    (bed_path bigwig_path : string) (d : dict string) (n_cpu : option Z)
    (normalize_bigwig remove_duplicates : option bool) (w : W) (k : string) :
  k ∈ Dict.keys d →
  "-"%char ∈ String.list_ascii_of_string k →
(k ∉ cell_suffixes_of cd)
  ∧ suffix_error ∈ calls (exportPseudoBulk E (InDataFrame cd) variable chromsizes
                            bed_path bigwig_path (PathDict d) n_cpu
                            normalize_bigwig remove_duplicates w).
Proof.
  intros Hk Hdash.
  assert (Hnot : k ∉ cell_suffixes_of cd).
  { unfold cell_suffixes_of. rewrite elem_of_remove_dups, list_elem_of_fmap.
    intros (name & -> & _). by apply last_field_no_separator in Hdash. }
  split; [done|]. unfold exportPseudoBulk.
  rewrite (run_bind_Return _ _ w (Some cd, Some (cell_suffixes_of cd)) w [])
    by reflexivity.
  rewrite with_calls_nil. cbn [fst snd get_fragments].
  rewrite !calls_bind, check_suffixes_run. cbn [calls].
  apply elem_of_app. left. apply elem_of_app. left.
  apply list_elem_of_fmap. exists k. split; [done|].
  by apply list_elem_of_filter.
Qed.

(** ** [MACS_callPeak.callpeak]: what its exceptions tell *)

(** X17.  A [RuntimeError] of [callpeak] carries the command line that was run,
    its exit status, which is not 0, and its output; the run has logged the
    command and started it, and has not read the narrowPeak file. *)
Theorem callpeak_RuntimeError_inv {W} (E : Externals W) (self : MACS_callPeak.t)
    (w : W) (cmd : string) (code : Z) (out : string) :
  let r := MACS_callPeak.callpeak E self w in
  outcome r = Raise (RuntimeError cmd code out) →
  callpeak_cmd self = Return cmd
  ∧ shell E w cmd = (code, out, world r)
  ∧ code ≠ 0
  ∧ calls r = [callpeak_log self cmd; CheckOutput cmd].
Proof.
  intros r. subst r. rewrite callpeak_run.
  destruct (callpeak_cmd self) as [e|cmd'] eqn:Hcmd.
  { intros [= ->]. by apply py_format_Raise in Hcmd. }
  destruct (shell E w cmd') as [[code' out'] w'] eqn:Hsh.
  destruct (decide (code' = 0)) as [->|Hcode].
  - destruct (pd_read_csv E w' _) as [e|tab]; [done|]. cbn [outcome].
    by destruct (decide (width tab = 10%nat)).
  - by intros [= -> -> ->].
Qed.

(** X18.  When the peak caller exits with status 0 and its narrowPeak file is
    read as a table that has not ten columns, naming the columns raises
    [ValueError], and [self.narrow_peak] is not assigned. *)
Theorem callpeak_length_mismatch {W} (E : Externals W) (self : MACS_callPeak.t)
    (w w' : W) (cmd out : string) (tab : csv_table) :
  callpeak_cmd self = Return cmd →
  shell E w cmd = (0, out, w') →
  pd_read_csv E w' (MACS_callPeak.narrow_peak_file (MACS_callPeak.outdir self)
                      (MACS_callPeak.name self)) = inr tab →
  width tab ≠ 10%nat →
  MACS_callPeak.callpeak E self w
  = mkRun (Raise (ValueError "Length mismatch")) w'
      [callpeak_log self cmd; CheckOutput cmd;
       ReadCsv (MACS_callPeak.narrow_peak_file (MACS_callPeak.outdir self)
                  (MACS_callPeak.name self))].
Proof.
  intros Hcmd Hsh Hread Hwidth. rewrite callpeak_run, Hcmd, Hsh.
  rewrite decide_True by done. rewrite Hread. by rewrite decide_False.
Qed.

(** ** Runs on the small file system, again *)

Definition output_folders : Toy.fs := [("bed/", Toy.Directory); ("bw/", Toy.Directory)].

Definition empty_file : Toy.fs := [("s1.fragments.tsv.gz", Toy.Fragments [])].

Definition narrow_table : csv_table := {| width := 3; rows := [["chr1"; "100"; "300"]] |}.

Lemma exportPseudoBulk_empty_dictionary_witness :
  exportPseudoBulk (Toy.externals Toy.sh_true) (InDataFrame Toy.cells) "celltype"
    Toy.sizes "bed/" "bw/" (PathDict []) (Some 1) (Some true) (Some true) Toy.disk
  = mkRun (Raise (UnboundLocalError "sample_id")) Toy.disk [].
Proof. apply exportPseudoBulk_empty_dictionary. intros obj. discriminate. Defined.

Lemma exportPseudoBulk_empty_fragments_file_witness :
  outcome (exportPseudoBulk (Toy.externals Toy.sh_true) (InDataFrame Toy.cells)
             "celltype" Toy.sizes "bed/" "bw/" one_sample (Some 1) (Some true)
             (Some true) empty_file)
  = Raise (LookupError "0").
Proof.
  unfold one_sample.
  rewrite (exportPseudoBulk_empty_fragments_file (Toy.externals Toy.sh_true)
             Toy.cells "celltype" Toy.sizes "bed/" "bw/"
             [("s1", "s1.fragments.tsv.gz")] "s1" "s1.fragments.tsv.gz" (Some 1)
             (Some true) (Some true) empty_file eq_refl eq_refl eq_refl).
  reflexivity.
Defined.

Lemma exportPseudoBulk_missing_column_witness :
  outcome (exportPseudoBulk (Toy.externals Toy.sh_true) (InDataFrame Toy.cells)
             "cluster" Toy.sizes "bed/" "bw/" one_sample (Some 1) (Some true)
             (Some true) Toy.disk)
  = Raise (KeyError "cluster")
  ∧ reads (calls (exportPseudoBulk (Toy.externals Toy.sh_true)
                    (InDataFrame Toy.cells) "cluster" Toy.sizes "bed/" "bw/"
                    one_sample (Some 1) (Some true) (Some true) Toy.disk))
    = ["s1.fragments.tsv.gz"].
Proof.
  destruct (exportPseudoBulk_missing_column (Toy.externals Toy.sh_true) Toy.cells
              "cluster" Toy.sizes "bed/" "bw/" "s1" "s1.fragments.tsv.gz"
              (Some 1) (Some true) (Some true) Toy.disk
              (Toy.frag "chr1" 100 180 "AAAC-1")
              [Toy.frag "chr1" 150 300 "TTTG-1"; Toy.frag "chr2" 10 90 "GGGG-1";
               Toy.frag "chr2" 40 95 "CCCA-1"] eq_refl eq_refl)
    as (Ho & _ & Hr & _).
  split; [exact Ho|exact Hr].
Defined.

Lemma exportPseudoBulk_without_dictionary_witness :
  exportPseudoBulk (Toy.externals Toy.sh_true) (InDataFrame Toy.cells) "celltype"
    Toy.sizes "bed/" "bw/" PathNone (Some 1) (Some true) (Some true) output_folders
  = mkRun (Raise (NameError "fragments_df")) output_folders
      [no_path_error; RayInit (Some 1)].
Proof.
  erewrite exportPseudoBulk_without_dictionary;
    [|by intros d|reflexivity|reflexivity|reflexivity].
  vm_compute. reflexivity.
Defined.

Lemma exportPseudoBulk_returns_witness :
  outcome toy_export = Return toy_paths
  ∧ world toy_export
    = [("s1.fragments.tsv.gz", Toy.Fragments Toy.fragments);
       ("bed/", Toy.Directory); ("bw/", Toy.Directory);
       ("bw/B_cell.bw",
        Toy.BigWig [Toy.frag "chr1" 150 300 "TTTG-s1"] (as_pyranges Toy.sizes)
          (Some true) None);
       ("bed/B_cell.bed.gz", Toy.Fragments [Toy.frag "chr1" 150 300 "TTTG-s1"]);
       ("bw/T_cell.bw",
        Toy.BigWig [Toy.frag "chr1" 100 180 "AAAC-s1"; Toy.frag "chr2" 40 95 "CCCA-s1"]
          (as_pyranges Toy.sizes) (Some true) None);
       ("bed/T_cell.bed.gz",
        Toy.Fragments [Toy.frag "chr1" 100 180 "AAAC-s1";
                       Toy.frag "chr2" 40 95 "CCCA-s1"])]
  ∧ last (calls toy_export) = Some RayShutdown.
Proof.
  apply (exportPseudoBulk_returns (Toy.externals Toy.sh_true) Toy.cells
           "celltype" Toy.sizes "bed/" "bw/" "s1" "s1.fragments.tsv.gz" (Some 1)
           (Some true) Toy.disk (Toy.frag "chr1" 100 180 "AAAC-1")
           [Toy.frag "chr1" 150 300 "TTTG-1"; Toy.frag "chr2" 10 90 "GGGG-1";
            Toy.frag "chr2" 40 95 "CCCA-1"]
           [Toy.frag "chr1" 100 180 "AAAC-s1"; Toy.frag "chr1" 150 300 "TTTG-s1";
            Toy.frag "chr2" 10 90 "GGGG-s1"; Toy.frag "chr2" 40 95 "CCCA-s1"]
           (zip (df_index Toy.cells) ["T_cell"; "B_cell"; "T_cell"])
           (Dict.set Toy.disk "bed/" Toy.Directory)
           (Dict.set (Dict.set Toy.disk "bed/" Toy.Directory) "bw/" Toy.Directory)).
  - reflexivity.
  - vm_compute. reflexivity.
  - reflexivity.
  - right. split; reflexivity.
  - right. split; reflexivity.
  - vm_compute. repeat (econstructor; [reflexivity|reflexivity|]). constructor.
Defined.

Lemma peakCalling_returns_witness :
  outcome (peakCalling (Toy.externals good_caller) "macs2" two_groups "out/" "hs"
             (Some 1) (PyStr "BEDPE") (PyInt 73) (PyInt 146) (PyStr "all")
             (PyFloat "0.05") Toy.disk)
  = Return [("T_cell", loaded_peaks Toy.peaks); ("B_cell", loaded_peaks Toy.peaks)]
  ∧ last (calls (peakCalling (Toy.externals good_caller) "macs2" two_groups "out/"
                   "hs" (Some 1) (PyStr "BEDPE") (PyInt 73) (PyInt 146)
                   (PyStr "all") (PyFloat "0.05") Toy.disk))
    = Some RayShutdown.
Proof.
  apply (peakCalling_returns (Toy.externals good_caller) "macs2" "out/" "hs"
           (PyStr "BEDPE") (PyInt 73) (PyInt 146) (PyStr "all") (PyFloat "0.05")
           two_groups (Some 1) Toy.disk).
  - apply (bool_decide_unpack _). vm_compute. exact I.
  - eapply peaks_cons; [reflexivity|reflexivity|reflexivity|reflexivity|].
    eapply peaks_cons; [reflexivity|reflexivity|reflexivity|reflexivity|].
    apply peaks_nil.
Defined.

Lemma peakCalling_shutdown_iff_returns_witness :
  RayShutdown ∈ calls (peakCalling (Toy.externals good_caller) "macs2" two_groups
                         "out/" "hs" (Some 1) (PyStr "BEDPE") (PyInt 73)
                         (PyInt 146) (PyStr "all") (PyFloat "0.05") Toy.disk).
Proof.
  assert (Hwf : Dict.wf two_groups)
    by (apply (bool_decide_unpack _); vm_compute; exact I).
  destruct (peakCalling_shutdown_iff_returns (Toy.externals good_caller) "macs2"
              "out/" "hs" (PyStr "BEDPE") (PyInt 73) (PyInt 146) (PyStr "all")
              (PyFloat "0.05") two_groups (Some 1) Toy.disk Hwf) as [_ H].
  apply H. eexists. vm_compute. reflexivity.
Defined.

Lemma exportPseudoBulk_keep_duplicates_writes_nothing_witness :
  writes (calls (exportPseudoBulk (Toy.externals Toy.sh_true)
                   (InDataFrame Toy.cells) "celltype" Toy.sizes "bed/" "bw/"
                   one_sample (Some 1) (Some true) (Some false) Toy.disk)) = [].
Proof.
  assert (Hrd : Some false ≠ Some true) by discriminate.
  destruct (exportPseudoBulk_keep_duplicates_writes_nothing
              (Toy.externals Toy.sh_true) (InDataFrame Toy.cells) "celltype"
              Toy.sizes "bed/" "bw/" one_sample (Some 1) (Some true)
              (Some false) Toy.disk Hrd) as [H _].
  exact H.
Defined.

Lemma correct_barcodes_suffix_witness :
  Forall (λ f, PyStr.last_field "-" (Name f) = "s1")
    [Toy.frag "chr1" 100 180 "AAAC-s1"; Toy.frag "chr1" 150 300 "TTTG-s1";
     Toy.frag "chr2" 10 90 "GGGG-s1"; Toy.frag "chr2" 40 95 "CCCA-s1"].
Proof.
  assert (Hsid : "-"%char ∉ String.list_ascii_of_string "s1")
    by (apply (bool_decide_unpack _); vm_compute; exact I).
  destruct (correct_barcodes_suffix "s1" Toy.fragments
              [Toy.frag "chr1" 100 180 "AAAC-s1"; Toy.frag "chr1" 150 300 "TTTG-s1";
               Toy.frag "chr2" 10 90 "GGGG-s1"; Toy.frag "chr2" 40 95 "CCCA-s1"]
              Toy.disk Hsid eq_refl) as [_ H].
  exact H.
Defined.

Lemma exportPseudoBulk_dash_in_sample_id_witness :
  suffix_error ∈ calls (exportPseudoBulk (Toy.externals Toy.sh_true)
                          (InDataFrame Toy.cells) "celltype" Toy.sizes "bed/" "bw/"
                          (PathDict [("run-1", "s1.fragments.tsv.gz")]) (Some 1)
                          (Some true) (Some true) Toy.disk).
Proof.
  assert (Hk : "run-1" ∈ Dict.keys [("run-1", "s1.fragments.tsv.gz")])
    by (apply (bool_decide_unpack _); vm_compute; exact I).
  assert (Hdash : "-"%char ∈ String.list_ascii_of_string "run-1")
    by (apply (bool_decide_unpack _); vm_compute; exact I).
  destruct (exportPseudoBulk_dash_in_sample_id (Toy.externals Toy.sh_true)
              Toy.cells "celltype" Toy.sizes "bed/" "bw/"
              [("run-1", "s1.fragments.tsv.gz")] (Some 1) (Some true) (Some true)
              Toy.disk "run-1" Hk Hdash) as [_ H].
  exact H.
Defined.

Lemma callpeak_RuntimeError_inv_witness :
  ∃ cmd,
    callpeak_cmd Toy.self = Return cmd
    ∧ calls (MACS_callPeak.callpeak (Toy.externals (Toy.caller 1 [])) Toy.self
               Toy.disk)
      = [callpeak_log Toy.self cmd; CheckOutput cmd].
Proof.
  edestruct (callpeak_RuntimeError_inv (Toy.externals (Toy.caller 1 [])) Toy.self
               Toy.disk) as (Hcmd & _ & _ & Hcalls); [reflexivity|].
  eexists. split; [exact Hcmd|exact Hcalls].
Defined.

Lemma callpeak_length_mismatch_witness :
  outcome (MACS_callPeak.callpeak
             (Toy.externals
                (Toy.caller 0 [("out/T_cell_peaks.narrowPeak", Toy.Table narrow_table)]))
             Toy.self Toy.disk)
  = Raise (ValueError "Length mismatch").
Proof.
  erewrite callpeak_length_mismatch;
    [|reflexivity|reflexivity|reflexivity|by simpl].
  reflexivity.
Defined.

(** X19.  The keys of both returned dictionaries are the distinct values of the
    column [variable] in increasing order, the order of [sorted] on [str]. *)
Theorem exportPseudoBulk_sorted_groups {W} (E : Externals W)
    (input_data : input_arg) (variable : string) (chromsizes : chromsizes_arg)
    (bed_path bigwig_path : string) (path_to_fragments : path_arg)
    (n_cpu : option Z) (normalize_bigwig remove_duplicates : option bool) (w : W)
    (bw_paths bed_paths : dict string) :
  outcome (exportPseudoBulk E input_data variable chromsizes bed_path bigwig_path
             path_to_fragments n_cpu normalize_bigwig remove_duplicates w)
  = Return (bw_paths, bed_paths) →
  Sorted String.le (Dict.keys bw_paths)
  ∧ NoDup (Dict.keys bw_paths)
  ∧ Dict.keys bed_paths = Dict.keys bw_paths.
Proof.
  intros H.
  apply exportPseudoBulk_Return_inv in H
    as (cd & group_var & named & _ & _ & _ & _ & [= -> ->]).
  unfold Dict.keys. rewrite <- !list_fmap_compose.
  assert (Hbw : (fst ∘ (λ g, (g, bigwig_file bigwig_path g))) <$> sorted_set group_var
                = sorted_set group_var) by apply list_fmap_id.
  assert (Hbed : (fst ∘ (λ g, (g, bed_file bed_path g))) <$> sorted_set group_var
                 = sorted_set group_var) by apply list_fmap_id.
  rewrite Hbw, Hbed.
  split; [apply sorted_set_Sorted|]. split; [apply sorted_set_NoDup|done].
Qed.

Lemma exportPseudoBulk_sorted_groups_witness :
  Sorted String.le (Dict.keys toy_paths.1)
  ∧ Dict.keys toy_paths.2 = Dict.keys toy_paths.1.
Proof.
  destruct (exportPseudoBulk_sorted_groups (Toy.externals Toy.sh_true)
              (InDataFrame Toy.cells) "celltype" Toy.sizes "bed/" "bw/" one_sample
              (Some 1) (Some true) (Some true) Toy.disk toy_paths.1 toy_paths.2)
    as (H & _ & Hkeys).
  - vm_compute. reflexivity.
  - split; [exact H|exact Hkeys].
Defined.

(** ** What a run leaves behind *)

(** The world after the call [c] was made in [w]: what the writer or the
    subprocess called leaves.  A writer that fails leaves the world as it
    was, and so does a call that writes nothing. *)
Definition effect {W} (E : Externals W) (w : W) (c : call) : W :=
  match c with
  | Makedirs path =>
      match os_makedirs E w path with inr w' => w' | inl _ => w end
  | ToBigwig path rows chromsizes rpm value_col =>
      match pr_to_bigwig E w path rows chromsizes rpm value_col with
      | inr w' => w'
      | inl _ => w
      end
  | ToBed path rows =>
      match pr_to_bed E w path rows with inr w' => w' | inl _ => w end
  | CheckOutput cmd => (shell E w cmd).2
  | _ => w
  end.

(** The world after the calls [cs] were made one after the other. *)
Definition replay {W} (E : Externals W) : W → list call → W := foldl (effect E).

(** A call of [to_bigwig] or [to_bed] that writes its file. *)
Definition succeeds {W} (E : Externals W) (w : W) (c : call) : bool :=
  match c with
  | ToBigwig path rows chromsizes rpm value_col =>
      match pr_to_bigwig E w path rows chromsizes rpm value_col with
      | inr _ => true
      | inl _ => false
      end
  | ToBed path rows =>
      match pr_to_bed E w path rows with inr _ => true | inl _ => false end
  | _ => false
  end.

(** The files written by the calls [cs], made one after the other from [w]:
    the calls of [to_bigwig] and [to_bed] among them that succeed. *)
Fixpoint written {W} (E : Externals W) (w : W) (cs : list call) : list call :=
  match cs with
  | [] => []
  | c :: cs' =>
      (if succeeds E w c then [c] else []) ++ written E (effect E w c) cs'
  end.

(** A call that leaves every world as it is and writes no file. *)
Definition inert (c : call) : Prop :=
  match c with
  | Log _ _ _ | ReadBed _ | ReadCsv _ | RayInit _ | RayShutdown => True
  | _ => False
  end.

Lemma inert_logs : logs_pass inert.
Proof. by intros level msg args. Qed.

Section tracking.
Context {W : Type} (E : Externals W).
Implicit Types w : W.

(** The world a computation leaves is the one its calls make, and when it
    returns every write it called has succeeded. *)
Definition sound {A} (m : M W A) : Prop :=
  ∀ w, world (m w) = replay E w (calls (m w))
       ∧ ∀ a, outcome (m w) = Return a →
              written E w (calls (m w)) = writes (calls (m w)).

Lemma replay_app w cs1 cs2 :
  replay E w (cs1 ++ cs2) = replay E (replay E w cs1) cs2.
Proof. apply foldl_app. Qed.

Lemma written_app w cs1 cs2 :
  written E w (cs1 ++ cs2) = written E w cs1 ++ written E (replay E w cs1) cs2.
Proof.
  revert w. induction cs1 as [|c cs1 IH]; intros w; [done|].
  cbn [app written]. rewrite IH, (assoc_L (++)). reflexivity.
Qed.

Lemma replay_inert w cs : Forall inert cs → replay E w cs = w.
Proof.
  induction 1 as [|c cs Hc _ IH]; [done|].
  unfold replay in *. cbn [foldl]. rewrite <- IH at 2. by destruct c.
Qed.

Lemma written_inert w cs : Forall inert cs → written E w cs = [].
Proof.
  intros H. revert w. induction H as [|c cs Hc _ IH]; intros w; [done|].
  cbn [written]. rewrite IH. by destruct c.
Qed.

(** A file that was written was written by a call of a writer. *)
Lemma written_sublist w cs : written E w cs `sublist_of` writes cs.
Proof.
  revert w. induction cs as [|c cs IH]; intros w; [done|].
  cbn [written]. unfold writes. rewrite filter_cons.
  destruct c; cbn [succeeds app]; try apply IH.
  - rewrite decide_True by exact I.
    destruct (pr_to_bigwig E w _ _ _ _ _); [apply sublist_cons|apply sublist_skip];
      apply IH.
  - rewrite decide_True by exact I.
    destruct (pr_to_bed E w _ _); [apply sublist_cons|apply sublist_skip];
      apply IH.
Qed.

Lemma written_nil w cs : writes cs = [] → written E w cs = [].
Proof.
  intros H. apply sublist_nil_r. rewrite <- H. apply written_sublist.
Qed.

Lemma sound_ret {A} (a : A) : sound (ret a).
Proof. by intros w. Qed.

Lemma sound_mret {A} (a : A) : sound (mret a).
Proof. by intros w. Qed.

Lemma sound_raise {A} e : sound (A:=A) (raise e).
Proof. by intros w. Qed.

Lemma sound_lift {A} (r : result A) : sound (lift r).
Proof. destruct r; [apply sound_raise|apply sound_ret]. Qed.

Lemma sound_local {A} name (v : option A) : sound (local name v).
Proof. destruct v; [apply sound_ret|apply sound_raise]. Qed.

Lemma sound_emit c : inert c → sound (emit c).
Proof. intros Hc w. by destruct c. Qed.

Lemma sound_log_info msg : sound (log_info msg).
Proof. by apply sound_emit. Qed.

Lemma sound_log_error msg : sound (log_error msg).
Proof. by apply sound_emit. Qed.

Lemma sound_bind_Return {A B} (m : M W A) (k : A → M W B) :
  sound m →
  (∀ a w, outcome (m w) = Return a → sound (k a)) →
  sound (m ≫= k).
Proof.
  intros Hm Hk w. destruct (Hm w) as [Hw Hwr]. rewrite run_bind.
  destruct (outcome (m w)) as [e|a] eqn:Ho; [by split|].
  destruct (Hk a w Ho (world (m w))) as [Hw' Hwr'].
  unfold with_calls. cbn [outcome world calls].
  rewrite replay_app, written_app, writes_app, <- Hw. split; [done|].
  intros b Hb. by rewrite (Hwr a eq_refl), (Hwr' b Hb).
Qed.

Lemma sound_bind {A B} (m : M W A) (k : A → M W B) :
  sound m → (∀ a, sound (k a)) → sound (m ≫= k).
Proof. intros Hm Hk. apply sound_bind_Return; [done|]. intros a _ _. apply Hk. Qed.

Lemma sound_for_each {A B} (f : A → M W B) l :
  (∀ x, sound (f x)) → sound (for_each f l).
Proof.
  intros Hf. induction l as [|x l IH]; [apply sound_mret|].
  cbn [for_each]. apply sound_bind; [apply Hf|]. intros y.
  apply sound_bind; [apply IH|]. intros ys. apply sound_mret.
Qed.

Lemma sound_list_getitem {A} (l : list A) i : sound (list_getitem l i).
Proof. unfold list_getitem. destruct (l !! i); [apply sound_mret|apply sound_raise]. Qed.

Lemma sound_dict_getitem {V} (d : dict V) k : sound (dict_getitem d k).
Proof.
  unfold dict_getitem. destruct (Dict.get d k); [apply sound_mret|apply sound_raise].
Qed.

Lemma sound_read_bed path : sound (read_bed E path).
Proof. intros w. unfold read_bed. by destruct (pr_read_bed E w path). Qed.

Lemma sound_ensure_dir path : sound (ensure_dir E path).
Proof.
  unfold ensure_dir. apply sound_bind; [by intros w|].
  intros [|]; [apply sound_mret|]. intros w. unfold makedirs.
  destruct (os_makedirs E w path) as [e|w'] eqn:Hmk; cbn [outcome world calls];
    unfold replay; cbn [foldl effect written succeeds app]; by rewrite Hmk.
Qed.

(** The task of a group. *)
Lemma sound_exportPseudoBulk_ray group_var group fragments chromsizes
    bigwig_path bed_path normalize_bigwig remove_duplicates :
  sound (exportPseudoBulk_ray E group_var group fragments chromsizes
           bigwig_path bed_path normalize_bigwig remove_duplicates).
Proof.
  intros w. rewrite exportPseudoBulk_ray_run.
  destruct remove_duplicates as [[|]|]; [|by split..].
  destruct (pr_to_bigwig E w _ _ _ _ _) as [e|w1] eqn:Hbw.
  { cbn [outcome world calls]. unfold replay, start_log. cbn [foldl effect].
    by rewrite Hbw. }
  destruct (pr_to_bed E w1 _ _) as [e|w2] eqn:Hbed;
    cbn [outcome world calls]; unfold replay, group_writes, start_log, done_log;
    cbn [foldl effect written succeeds app]; rewrite Hbw;
    cbn [foldl effect written succeeds app]; rewrite Hbed; by split.
Qed.

(** The tasks that [ray.get] has run. *)
Lemma sound_run_tasks {A} (tasks : list (M W A)) :
  Forall sound tasks →
  ∀ seen_failure w,
    (run_tasks E seen_failure tasks w).1.2
    = replay E w (run_tasks E seen_failure tasks w).2.
Proof.
  induction 1 as [|t tasks Ht _ IH]; intros seen_failure w; [done|].
  cbn [run_tasks].
  destruct (seen_failure && negb (ray_get_waits E w)); [done|]. cbn zeta.
  specialize (IH (seen_failure || failed (outcome (t w))) (world (t w))).
  destruct (run_tasks E _ tasks (world (t w))) as [[rs w'] cs].
  cbn [fst snd] in *. rewrite replay_app, <- (proj1 (Ht w)). exact IH.
Qed.

Lemma ran_written {A} (tasks : list (M W A)) w results w' cs :
  Forall sound tasks →
  ran tasks w results w' cs →
  written E w cs = writes cs.
Proof.
  intros Hs Hran. induction Hran as [|t tasks w a w1 cs1 results w2 cs2 Ht _ IH];
    [done|].
  apply Forall_cons in Hs as [Hst Hs].
  destruct (Hst w) as [Hw Hwr]. rewrite Ht in Hw, Hwr. cbn [outcome world calls] in *.
  rewrite written_app, writes_app, (Hwr a eq_refl), <- Hw. f_equal. by apply IH.
Qed.

Lemma sound_ray_get {A} (tasks : list (M W A)) :
  Forall sound tasks → sound (ray_get E tasks).
Proof.
  intros Hs w. split.
  - rewrite ray_get_calls, <- sound_run_tasks by done. unfold ray_get.
    by destruct (run_tasks E false tasks w) as [[rs w'] cs].
  - intros results Hret.
    apply ray_get_Return_inv in Hret as (w' & cs & Hran & ->). cbn [calls].
    by eapply ran_written.
Qed.

Lemma sound_get_fragments_file input_data path_to_fragments :
  sound (get_fragments_file input_data path_to_fragments).
Proof.
  destruct input_data as [obj|df|]; [apply sound_raise| |apply sound_mret].
  cbn [get_fragments_file]. apply sound_bind; [|intros; apply sound_mret].
  destruct path_to_fragments; [apply sound_log_error|apply sound_mret..].
Qed.

Lemma sound_check_suffixes input_data cell_suffixes keys sample_id :
  sound (check_suffixes input_data cell_suffixes keys sample_id).
Proof.
  revert sample_id. induction keys as [|k keys IH]; intros sample_id;
    [apply sound_mret|].
  cbn [check_suffixes]. apply sound_bind; [|intros; apply IH].
  destruct input_data as [obj|df|]; [apply sound_mret| |apply sound_mret].
  apply sound_bind; [apply sound_local|]. intros suffixes.
  destruct (bool_decide (k ∈ suffixes)); [apply sound_mret|apply sound_log_error].
Qed.

Lemma sound_correct_barcodes sample_id fragments :
  sound (correct_barcodes sample_id fragments).
Proof.
  unfold correct_barcodes. apply sound_bind.
  { destruct fragments; [apply sound_raise|apply sound_mret]. }
  intros first. apply sound_bind; [|intros; apply sound_mret].
  destruct (decide (PyStr.find first "-" ≠ -1)); [|apply sound_mret].
  apply sound_bind; [apply sound_log_info|]. intros _.
  apply sound_bind; [apply sound_log_info|]. intros _. apply sound_mret.
Qed.

Lemma sound_merge_fragments n_samples sample_id fragments :
  sound (merge_fragments n_samples sample_id fragments).
Proof.
  unfold merge_fragments. apply sound_bind.
  { apply sound_for_each. intros x.
    apply sound_bind; [apply sound_list_getitem|]. intros k.
    apply sound_dict_getitem. }
  intros l. apply sound_bind; [apply sound_log_info|]. intros _.
  apply sound_bind; [apply sound_list_getitem|]. intros first. apply sound_mret.
Qed.

Lemma sound_load_fragments d sample_id cell_data :
  sound (load_fragments E d sample_id cell_data).
Proof.
  unfold load_fragments.
  apply sound_bind; [apply sound_local|]. intros sid.
  apply sound_bind; [apply sound_dict_getitem|]. intros path.
  apply sound_bind; [apply sound_log_info|]. intros _.
  apply sound_bind; [apply sound_local|]. intros sid'.
  apply sound_bind; [apply sound_dict_getitem|]. intros path'.
  apply sound_bind; [apply sound_read_bed|]. intros fragments.
  apply sound_bind; [apply sound_correct_barcodes|]. intros named.
  apply sound_bind; [apply sound_local|]. intros cd.
  destruct (decide (1 < length d)%nat); [|apply sound_mret].
  apply sound_bind; [apply sound_merge_fragments|]. intros; apply sound_mret.
Qed.

Lemma sound_get_fragments input_data path_to_fragments cell_data cell_suffixes :
  sound (get_fragments E input_data path_to_fragments cell_data cell_suffixes).
Proof.
  unfold get_fragments.
  assert (Hother : sound
    (match input_data with
     | InCisTopicObject _ =>
         log_info "Reading fragments";;
         fragments ← match path_to_fragments with
                     | PathStr path => read_bed E path
                     | _ => raise (NotModelled "read_bed of a non-str")
                     end;
         cd ← local "cell_data" cell_data;
         mret (Some (Name_isin (df_index cd) fragments))
     | _ => mret None
     end)).
  { destruct input_data as [obj|df|]; [|apply sound_mret..].
    apply sound_bind; [apply sound_log_info|]. intros _.
    apply sound_bind.
    { destruct path_to_fragments;
        [apply sound_raise|apply sound_read_bed|apply sound_raise]. }
    intros fragments. apply sound_bind; [apply sound_local|].
    intros; apply sound_mret. }
  destruct path_to_fragments as [|path|d]; [exact Hother..|].
  apply sound_bind; [apply sound_check_suffixes|]. intros sample_id.
  apply sound_load_fragments.
Qed.

Lemma sound_paths_dict i paths : sound (paths_dict i paths).
Proof.
  unfold paths_dict. apply sound_bind; [|intros; apply sound_mret].
  apply sound_for_each. intros x.
  apply sound_bind; [apply sound_list_getitem|]. intros p.
  apply sound_bind; [apply sound_list_getitem|]. intros k.
  apply sound_bind; [apply sound_list_getitem|]. intros p1.
  apply sound_bind; [apply sound_list_getitem|]. intros p2.
  apply sound_bind; [apply sound_list_getitem|]. intros k'.
  apply sound_bind; [apply sound_dict_getitem|]. intros v.
  apply sound_bind; [apply sound_list_getitem|]. intros y. apply sound_mret.
Qed.

Lemma sound_export_groups cell_data fragments variable chromsizes bed_path
    bigwig_path n_cpu normalize_bigwig remove_duplicates :
  sound (export_groups E cell_data fragments variable chromsizes bed_path
           bigwig_path n_cpu normalize_bigwig remove_duplicates).
Proof.
  unfold export_groups.
  apply sound_bind; [apply sound_local|]. intros cd.
  apply sound_bind; [apply sound_lift|]. intros group_var.
  apply sound_bind; [apply sound_ensure_dir|]. intros _.
  apply sound_bind; [apply sound_ensure_dir|]. intros _.
  apply sound_bind; [by apply sound_emit|]. intros _.
  apply sound_bind_Return.
  { apply sound_for_each. intros g.
    destruct fragments; [apply sound_mret|apply sound_raise]. }
  intros tasks w Htasks.
  apply (for_each_Return_Forall sound) in Htasks.
  2: { intros g w' t Hg. destruct fragments as [df|]; [|done].
       intros [= <-]. apply sound_exportPseudoBulk_ray. }
  apply sound_bind; [by apply sound_ray_get|]. intros paths.
  apply sound_bind; [by apply sound_emit|]. intros _.
  apply sound_bind; [apply sound_paths_dict|]. intros bw.
  apply sound_bind; [apply sound_paths_dict|]. intros bed. apply sound_mret.
Qed.

Lemma sound_exportPseudoBulk input_data variable chromsizes bed_path bigwig_path
    path_to_fragments n_cpu normalize_bigwig remove_duplicates :
  sound (exportPseudoBulk E input_data variable chromsizes bed_path bigwig_path
           path_to_fragments n_cpu normalize_bigwig remove_duplicates).
Proof.
  unfold exportPseudoBulk.
  apply sound_bind; [apply sound_get_fragments_file|]. intros locals.
  apply sound_bind; [apply sound_get_fragments|]. intros fragments.
  apply sound_export_groups.
Qed.
End tracking.

(** ** The files of the groups, in every run *)

Lemma not_write_logs : logs_pass not_write.
Proof. by intros level msg args H. Qed.

Section files_written.
Context {W : Type} (E : Externals W).
Implicit Types w : W.

Lemma writes_bind_quiet {A B} (m : M W A) (k : A → M W B) w :
  quiet not_write m →
  writes (calls ((m ≫= k) w))
  = match outcome (m w) with
    | Return a => writes (calls (k a (world (m w))))
    | Raise _ => []
    end.
Proof.
  intros Hm. rewrite calls_bind, writes_app, (writes_quiet _ (Hm w)).
  by destruct (outcome (m w)).
Qed.

(** The task of a group calls no writer but the two of its group, on the
    rows of the group. *)
Lemma exportPseudoBulk_ray_writes group_var group fragments chromsizes
    bigwig_path bed_path normalize_bigwig remove_duplicates w :
  writes (calls (exportPseudoBulk_ray E group_var group fragments chromsizes
                   bigwig_path bed_path normalize_bigwig remove_duplicates w))
  `sublist_of` group_writes bigwig_path bed_path chromsizes normalize_bigwig
                 group (Name_isin (index_where group_var group) fragments).
Proof.
  rewrite exportPseudoBulk_ray_run.
  destruct remove_duplicates as [[|]|]; [|apply sublist_nil_l..].
  destruct (pr_to_bigwig E w _ _ _ _ _) as [e|w1].
  { apply sublist_skip, sublist_nil_l. }
  destruct (pr_to_bed E w1 _ _) as [e|w2]; cbn [calls];
    unfold writes, group_writes, start_log, done_log; cbn;
    rewrite ?decide_True, ?decide_False by tauto; reflexivity.
Qed.

Lemma run_tasks_writes group_var fragments chromsizes bigwig_path bed_path
    normalize_bigwig remove_duplicates (groups : list string) seen_failure w :
  writes (run_tasks E seen_failure
            ((λ group, exportPseudoBulk_ray E group_var group fragments
                         chromsizes bigwig_path bed_path normalize_bigwig
                         remove_duplicates) <$> groups) w).2
  `sublist_of`
    mjoin ((λ g, group_writes bigwig_path bed_path chromsizes normalize_bigwig g
                   (Name_isin (index_where group_var g) fragments)) <$> groups).
Proof.
  revert seen_failure w.
  induction groups as [|g groups IH]; intros seen_failure w; [done|].
  cbn [fmap list_fmap mjoin list_join run_tasks].
  destruct (seen_failure && negb (ray_get_waits E w)); [apply sublist_nil_l|].
  cbn zeta.
  change (list_fmap ?A ?B ?f ?l) with (f <$> l).
  match goal with
  | |- context [run_tasks E ?b ?tasks ?w'] =>
      specialize (IH b w'); destruct (run_tasks E b tasks w') as [[rs w''] cs]
  end.
  cbn [snd] in *. rewrite writes_app.
  apply sublist_app; [apply exportPseudoBulk_ray_writes|exact IH].
Qed.

(** Lines 104-128 call no writer but those of the groups, in the order of
    the groups. *)
Lemma export_groups_writes cd df variable chromsizes bed_path bigwig_path
    n_cpu normalize_bigwig remove_duplicates w group_var :
  loc_column cd variable = Return group_var →
  writes (calls (export_groups E (Some cd) (Some df) variable chromsizes
                   bed_path bigwig_path n_cpu normalize_bigwig
                   remove_duplicates w))
  `sublist_of`
    mjoin ((λ g, group_writes bigwig_path bed_path (as_pyranges chromsizes)
                   normalize_bigwig g (Name_isin (index_where group_var g) df))
           <$> sorted_set group_var).
Proof.
  intros Hgv. unfold export_groups. cbn [local].
  rewrite run_ret_bind, Hgv. cbn [lift]. rewrite run_ret_bind.
  rewrite writes_bind_quiet
    by (apply ensure_dir_passes; by intros []).
  destruct (outcome (ensure_dir E bed_path w)) as [e|[]]; [apply sublist_nil_l|].
  rewrite writes_bind_quiet
    by (apply ensure_dir_passes; by intros []).
  destruct (outcome (ensure_dir E bigwig_path _)) as [e|[]]; [apply sublist_nil_l|].
  rewrite run_emit_bind, writes_with_calls.
  match goal with
  | |- context [calls ((for_each ?f ?l ≫= ?k) ?w')] =>
      rewrite (run_bind_Return (for_each f l) k w'
                 ((λ group, exportPseudoBulk_ray E group_var group df
                              (as_pyranges chromsizes) bigwig_path bed_path
                              normalize_bigwig remove_duplicates)
                  <$> sorted_set group_var) w' [])
        by (by apply for_each_pure)
  end.
  rewrite with_calls_nil, calls_bind, writes_app.
  change (writes [RayInit n_cpu]) with (@nil call). cbn [app].
  match goal with
  | |- _ ++ writes ?rest `sublist_of` _ =>
      assert (Hrest : writes rest = [])
  end.
  { apply writes_quiet.
    destruct (outcome (ray_get E _ _)) as [e|paths]; [constructor|].
    apply quiet_bind; [apply quiet_emit; by intros []|]. intros _.
    apply quiet_bind; [apply paths_dict_quiet|].
    intros bw.
    apply quiet_bind; [apply paths_dict_quiet|].
    intros bed. apply quiet_mret. }
  rewrite Hrest, (right_id_L [] (++)), ray_get_calls.
  apply run_tasks_writes.
Qed.

(** Every run of [exportPseudoBulk]: either no writer is called, or the input
    is a data frame with the column [variable] and one sample whose file was
    read, and the writers called are those of the groups, on the rows of the
    groups. *)
Lemma exportPseudoBulk_writes_inv (input_data : input_arg) (variable : string)
    (chromsizes : chromsizes_arg) (bed_path bigwig_path : string)
    (path_to_fragments : path_arg) (n_cpu : option Z)
    (normalize_bigwig remove_duplicates : option bool) w :
  let r := exportPseudoBulk E input_data variable chromsizes bed_path
             bigwig_path path_to_fragments n_cpu normalize_bigwig
             remove_duplicates w in
  writes (calls r) = []
  ∨ ∃ cd group_var sid file loaded named,
      input_data = InDataFrame cd
      ∧ loc_column cd variable = Return group_var
      ∧ path_to_fragments = PathDict [(sid, file)]
      ∧ pr_read_bed E w file = inr loaded
      ∧ outcome (correct_barcodes sid loaded w) = Return named
      ∧ writes (calls r) `sublist_of`
          mjoin ((λ g, group_writes bigwig_path bed_path (as_pyranges chromsizes)
                         normalize_bigwig g (rows_of cd group_var named g))
                 <$> sorted_set group_var).
Proof.
  intros r. subst r. destruct input_data as [obj|cd|].
  - by left.
  - unfold exportPseudoBulk.
    destruct (get_fragments_file_DataFrame cd path_to_fragments w)
      as (logs & Hrun & Hlogs).
    rewrite (run_bind_Return _ _ _ _ _ _ Hrun), writes_with_calls,
      (silent_writes _ Hlogs).
    cbn [app fst snd]. rewrite run_bind.
    destruct (outcome (get_fragments E (InDataFrame cd) path_to_fragments
                         (Some cd) (Some (cell_suffixes_of cd)) w))
      as [e|fragments] eqn:Hfr.
    { left. cbn [calls]. apply writes_quiet.
      apply (get_fragments_quiet E not_write not_write_logs). by intros path []. }
    apply get_fragments_DataFrame_Return_inv in Hfr as (Hw & Hwr & Hcase).
    rewrite writes_with_calls, Hwr, Hw. cbn [app].
    destruct Hcase
      as [[-> _]|(sid & file & loaded & named & -> & Hread & Hnamed & -> & _)].
    + left. apply writes_quiet.
      apply export_groups_quiet; [by intros []..|]. by intros.
    + destruct (loc_column cd variable) as [e|group_var] eqn:Hgv.
      { left. unfold export_groups. cbn [local]. by rewrite run_ret_bind, Hgv. }
      right. exists cd, group_var, sid, file, loaded, named.
      do 5 (split; [done|]).
      replace (mjoin ((λ g, group_writes bigwig_path bed_path
                              (as_pyranges chromsizes) normalize_bigwig g
                              (rows_of cd group_var named g))
                      <$> sorted_set group_var))
        with (mjoin ((λ g, group_writes bigwig_path bed_path
                             (as_pyranges chromsizes) normalize_bigwig g
                             (Name_isin (index_where group_var g)
                                (Name_isin (df_index cd) named)))
                     <$> sorted_set group_var)).
      * by apply export_groups_writes.
      * f_equal. apply list_fmap_ext. intros _ g _. by rewrite group_rows_of.
  - left. apply writes_quiet.
    apply (exportPseudoBulk_quiet E not_write not_write_logs);
      [by intros path []|by intros []..|]. by intros.
Qed.

(** C4.  In every run of [exportPseudoBulk] the world left is the one the
    calls of the run make.  Either no file is written, or the input is a data
    frame with the column [variable] and one sample, and each file written is
    the bigwig or the bed file of a group, written once, in the order of the
    groups, from the rows of the group: the records loaded from the sample's
    file, with their barcodes corrected and suffixed, whose Name is in the
    index of the cell metadata and is annotated with the group under
    [variable]; a record that fails either condition is in no row set.  When
    the run returns, both files of every group have been written. *)
Theorem exportPseudoBulk_group_records (input_data : input_arg)
    (variable : string) (chromsizes : chromsizes_arg)
    (bed_path bigwig_path : string) (path_to_fragments : path_arg)
    (n_cpu : option Z) (normalize_bigwig remove_duplicates : option bool) w :
  let r := exportPseudoBulk E input_data variable chromsizes bed_path
             bigwig_path path_to_fragments n_cpu normalize_bigwig
             remove_duplicates w in
  let files_of cd group_var named :=
    mjoin ((λ g, [ToBigwig (bigwig_file bigwig_path g)
                    (rows_of cd group_var named g) (as_pyranges chromsizes)
                    normalize_bigwig None;
                  ToBed (bed_file bed_path g) (rows_of cd group_var named g)])
           <$> sorted_set group_var) in
  world r = replay E w (calls r)
  ∧ (written E w (calls r) = []
     ∨ ∃ cd group_var sid file loaded named,
         input_data = InDataFrame cd
         ∧ loc_column cd variable = Return group_var
         ∧ path_to_fragments = PathDict [(sid, file)]
         ∧ pr_read_bed E w file = inr loaded
         ∧ outcome (correct_barcodes sid loaded w) = Return named
         ∧ written E w (calls r) `sublist_of` files_of cd group_var named
         ∧ ∀ g f, f ∈ rows_of cd group_var named g ↔
                  f ∈ named ∧ Name f ∈ df_index cd ∧ (Name f, g) ∈ group_var)
  ∧ ∀ res, outcome r = Return res →
      ∃ cd group_var named,
        input_data = InDataFrame cd
        ∧ loc_column cd variable = Return group_var
        ∧ (sorted_set group_var = [] ∨
           ∃ sid file loaded,
             path_to_fragments = PathDict [(sid, file)]
             ∧ pr_read_bed E w file = inr loaded
             ∧ outcome (correct_barcodes sid loaded w) = Return named)
        ∧ written E w (calls r) = files_of cd group_var named.
Proof.
  intros r files_of. subst r files_of. cbn beta.
  destruct (sound_exportPseudoBulk E input_data variable chromsizes bed_path
              bigwig_path path_to_fragments n_cpu normalize_bigwig
              remove_duplicates w) as [Hworld Hwritten].
  split; [exact Hworld|]. split.
  - destruct (exportPseudoBulk_writes_inv input_data variable chromsizes
                bed_path bigwig_path path_to_fragments n_cpu normalize_bigwig
                remove_duplicates w)
      as [Hnil|(cd & group_var & sid & file & loaded & named & Hcd & Hgv & Hp
                & Hread & Hnamed & Hsub)].
    + left. by apply written_nil.
    + right. exists cd, group_var, sid, file, loaded, named.
      do 5 (split; [done|]). split.
      * etrans; [apply written_sublist|exact Hsub].
      * intros g f. unfold rows_of. rewrite list_elem_of_filter. tauto.
  - intros res Hret. rewrite (Hwritten res Hret).
    apply exportPseudoBulk_Return_inv in Hret
      as (cd & group_var & named & -> & Hgv & Hcase & Hw & _).
    exists cd, group_var, named.
    split; [done|]. split; [done|]. split; [|exact Hw].
    destruct Hcase as [Hg|(sid & file & loaded & -> & Hread & Hnamed & _)];
      [by left|right].
    by exists sid, file, loaded.
Qed.
End files_written.

(** ** [remove_duplicates] other than [True] *)

Section export_without_remove_duplicates.
Context {W : Type} (E : Externals W).
Implicit Types w : W.

Lemma export_groups_TypeError cd fragments variable chromsizes bed_path
    bigwig_path n_cpu normalize_bigwig remove_duplicates w group_var g w1 w2 :
  remove_duplicates ≠ Some true →
  loc_column cd variable = Return group_var →
  g ∈ sorted_set group_var →
  folder_ready E w bed_path w1 →
  folder_ready E w1 bigwig_path w2 →
  let r := export_groups E (Some cd) (Some fragments) variable chromsizes
             bed_path bigwig_path n_cpu normalize_bigwig remove_duplicates w in
  outcome r = Raise (TypeError "got multiple values for argument path")
  ∧ world r = w2.
Proof.
  intros Hrd Hgv Hg Hbed Hbw r. subst r. unfold export_groups. cbn [local].
  rewrite run_ret_bind, Hgv. cbn [lift]. rewrite run_ret_bind.
  destruct (ensure_dir_ready E bed_path w w1 Hbed) as (cs1 & H1).
  rewrite (run_bind_Return _ _ _ _ _ _ H1).
  destruct (ensure_dir_ready E bigwig_path w1 w2 Hbw) as (cs2 & H2).
  rewrite (run_bind_Return _ _ _ _ _ _ H2), run_emit_bind.
  rewrite (run_bind_Return _ _ w2
             ((λ group, exportPseudoBulk_ray E group_var group fragments
                          (as_pyranges chromsizes) bigwig_path bed_path
                          normalize_bigwig remove_duplicates)
              <$> sorted_set group_var) w2 []) by (by apply for_each_pure).
  rewrite with_calls_nil.
  set (tasks := (λ group, exportPseudoBulk_ray E group_var group fragments
                            (as_pyranges chromsizes) bigwig_path bed_path
                            normalize_bigwig remove_duplicates)
                <$> sorted_set group_var).
  assert (Hraise : outcome (ray_get E tasks w2)
                   = Raise (TypeError "got multiple values for argument path")).
  { subst tasks. destruct (sorted_set group_var) as [|g0 groups];
      [by apply elem_of_nil in Hg|].
    cbn [fmap list_fmap]. apply ray_get_cons_Raise.
    rewrite exportPseudoBulk_ray_run. by destruct remove_duplicates as [[|]|]. }
  assert (Hworld : world (ray_get E tasks w2) = w2).
  { assert (Hs : Forall (sound E) tasks).
    { subst tasks. apply Forall_fmap, Forall_forall. intros g' _.
      apply sound_exportPseudoBulk_ray. }
    rewrite (proj1 (sound_ray_get E tasks Hs w2)). apply replay_inert.
    apply (quiet_ray_get inert). subst tasks.
    apply Forall_fmap, Forall_forall. intros g' _.
    change (quiet inert
              (exportPseudoBulk_ray E group_var g' fragments
                 (as_pyranges chromsizes) bigwig_path bed_path
                 normalize_bigwig remove_duplicates)).
    apply (exportPseudoBulk_ray_quiet E inert inert_logs). by intros ->. }
  rewrite (run_bind_outcome_Raise _ _ _ _ Hraise).
  unfold with_calls. cbn [outcome world calls]. by rewrite Hworld.
Qed.

(** C2.  With [remove_duplicates] other than [True] (the documentation gives
    it as a boolean option), a data frame with the column [variable], one
    sample whose file is read as a table with a first row, and both folders
    there: although the column has a group, [exportPseudoBulk] raises
    [TypeError] at the call of [to_bigwig] in the first task, and the world
    it leaves is the one in which the folders were made ready: no group has
    its bed file or its bigwig file. *)
Theorem exportPseudoBulk_no_pair_without_remove_duplicates (cd : DataFrame)
    (variable : string) (chromsizes : chromsizes_arg)
    (bed_path bigwig_path : string) (sid file : string) (n_cpu : option Z)
    (normalize_bigwig remove_duplicates : option bool) w f rest group_var g
    w1 w2 :
  remove_duplicates ≠ Some true →
  pr_read_bed E w file = inr (f :: rest) →
  loc_column cd variable = Return group_var →
  g ∈ sorted_set group_var →
  folder_ready E w bed_path w1 →
  folder_ready E w1 bigwig_path w2 →
  let r := exportPseudoBulk E (InDataFrame cd) variable chromsizes bed_path
             bigwig_path (PathDict [(sid, file)]) n_cpu normalize_bigwig
             remove_duplicates w in
  outcome r = Raise (TypeError "got multiple values for argument path")
  ∧ world r = w2
  ∧ written E w (calls r) = []
  ∧ bed_files (calls r) = []
  ∧ bigwig_files (calls r) = [].
Proof.
  intros Hrd Hread Hgv Hg Hbed Hbw r.
  assert (Hwrites : writes (calls r) = []).
  { subst r. apply writes_quiet.
    apply (exportPseudoBulk_quiet E not_write not_write_logs);
      [by intros path []|by intros []..|].
    intros cd' group_var' group df _ _ _.
    apply (exportPseudoBulk_ray_quiet E not_write not_write_logs).
    by intros ->. }
  assert (Hrun : outcome r = Raise (TypeError "got multiple values for argument path")
                 ∧ world r = w2).
  { subst r.
    destruct (exportPseudoBulk_one_sample_run E cd variable chromsizes bed_path
                bigwig_path sid file n_cpu normalize_bigwig remove_duplicates
                w f rest Hread) as (named & logs & _ & _ & _ & _ & ->).
    unfold with_calls. cbn [outcome world].
    by apply (export_groups_TypeError cd (Name_isin (df_index cd) named) variable
                chromsizes bed_path bigwig_path n_cpu normalize_bigwig
                remove_duplicates w group_var g w1 w2). }
  destruct Hrun as [Ho Hw].
  split; [exact Ho|]. split; [exact Hw|].
  split; [by apply written_nil|].
  by rewrite <- bed_files_writes, <- bigwig_files_writes, Hwrites.
Qed.
End export_without_remove_duplicates.

(** ** The files of a run that returns *)

Section files_of_returning_run.
Context {W : Type} (E : Externals W).
Implicit Types w : W.

(** X20.  When [exportPseudoBulk] returns, the input was a data frame with a
    column [variable], and for the distinct values of that column, sorted,
    the bed files written are the files [bed_path + g + '.bed.gz'], one per
    value [g], and the bigwig files written are the files
    [bigwig_path + g + '.bw'], one per value; these files are all different,
    and no other bed or bigwig file is written. *)
Theorem exportPseudoBulk_files_of_returning_run (input_data : input_arg)
    (variable : string) (chromsizes : chromsizes_arg)
    (bed_path bigwig_path : string) (path_to_fragments : path_arg)
    (n_cpu : option Z) (normalize_bigwig remove_duplicates : option bool)
    w res :
  let r := exportPseudoBulk E input_data variable chromsizes bed_path
             bigwig_path path_to_fragments n_cpu normalize_bigwig
             remove_duplicates w in
  outcome r = Return res →
  ∃ cd group_var,
    input_data = InDataFrame cd
    ∧ loc_column cd variable = Return group_var
    ∧ NoDup (sorted_set group_var)
    ∧ (∀ g, g ∈ sorted_set group_var ↔ g ∈ group_var.*2)
    ∧ bed_files (written E w (calls r)) = bed_file bed_path <$> sorted_set group_var
    ∧ bigwig_files (written E w (calls r))
      = bigwig_file bigwig_path <$> sorted_set group_var
    ∧ NoDup (bed_files (written E w (calls r))
             ++ bigwig_files (written E w (calls r))).
Proof.
  intros r Hret. subst r.
  rewrite (proj2 (sound_exportPseudoBulk E input_data variable chromsizes
                    bed_path bigwig_path path_to_fragments n_cpu
                    normalize_bigwig remove_duplicates w) res Hret).
  apply exportPseudoBulk_Return_inv in Hret
    as (cd & group_var & named & -> & Hgv & _ & Hw & _).
  exists cd, group_var.
  rewrite Hw, bed_files_group_writes, bigwig_files_group_writes.
  split; [done|]. split; [done|]. split; [apply sorted_set_NoDup|].
  split; [apply elem_of_sorted_set|]. split; [done|]. split; [done|].
  pose proof (bed_file_inj bed_path) as Hinj1.
  pose proof (bigwig_file_inj bigwig_path) as Hinj2.
  apply NoDup_app. split; [|split].
  - apply (NoDup_fmap_2 _), sorted_set_NoDup.
  - intros p (g1 & -> & _)%list_elem_of_fmap (g2 & Heq & _)%list_elem_of_fmap.
    by apply bed_file_ne_bigwig_file in Heq.
  - apply (NoDup_fmap_2 _), sorted_set_NoDup.
Qed.
End files_of_returning_run.

(** ** The barcodes of the records that [exportPseudoBulk] reads *)

Section export_barcodes.
Context {W : Type} (E : Externals W).
Implicit Types w : W.

(** C10.  [exportPseudoBulk] reads the file of the last sample id [sid] of
    the dictionary; when the table has a first record, the records it goes on
    with are the records read, renamed: if the Name of the first record has a
    ['-'], every Name has all its trailing characters among
    ['-', '0', ..., '9'] stripped and then ['-' + sid] appended; otherwise
    every Name is left as read and ['-' + sid] appended.  With these records,
    filtered by the index of the cell metadata, the function continues at
    line 104 (with one sample) or raises [IndexError] at line 95 (with
    several); until then it has logged and read this one file. *)
Theorem exportPseudoBulk_corrects_barcodes (cd : DataFrame) (variable : string)
    (chromsizes : chromsizes_arg) (bed_path bigwig_path : string)
    (d : dict string) (sid file : string) (n_cpu : option Z)
    (normalize_bigwig remove_duplicates : option bool) w f rest :
  last (Dict.keys d) = Some sid →
  Dict.get d sid = Some file →
  pr_read_bed E w file = inr (f :: rest) →
  ∃ named logs,
    (if decide ("-"%char ∈ String.list_ascii_of_string (Name f)) then
       Forall2 (λ x y, ∃ p, PyStr.is_rstrip barcode_chars (Name x) p
                          ∧ y = set_Name x (p +:+ "-" +:+ sid))
               (f :: rest) named
     else named = (λ x, set_Name x (Name x +:+ "-" +:+ sid)) <$> f :: rest)
    ∧ Forall is_log_or_read logs
    ∧ reads logs = [file]
    ∧ exportPseudoBulk E (InDataFrame cd) variable chromsizes bed_path
        bigwig_path (PathDict d) n_cpu normalize_bigwig remove_duplicates w
      = with_calls logs
          (if decide (1 < length d)%nat then mkRun (Raise IndexError) w []
           else export_groups E (Some cd) (Some (Name_isin (df_index cd) named))
                  variable chromsizes bed_path bigwig_path n_cpu
                  normalize_bigwig remove_duplicates w).
Proof.
  intros Hlast Hget Hread.
  pose proof (correct_barcodes_names (W:=W) sid f rest w) as Hnames.
  cbn zeta in Hnames. destruct Hnames as (named & Hnamed & _ & Hnames).
  set (errors := (λ _ : string, suffix_error)
                   <$> filter (λ k, k ∉ cell_suffixes_of cd) (Dict.keys d)).
  exists named,
    (errors ++ [reading_log file; ReadBed file]
     ++ calls (correct_barcodes sid (f :: rest) w)).
  assert (Herr : Forall is_log_or_read errors)
    by (apply Forall_fmap, Forall_forall; by intros x _).
  assert (Hcb : Forall is_log_or_read (calls (correct_barcodes sid (f :: rest) w)))
    by (by apply correct_barcodes_quiet).
  assert (Hcb' := correct_barcodes_calls sid (f :: rest) w).
  split; [exact Hnames|]. split.
  { apply Forall_app. split; [done|]. by repeat constructor. }
  split.
  { rewrite !reads_app. rewrite (reads_quiet errors).
    - rewrite (reads_quiet (calls _)); [done|].
      eapply Forall_impl; [exact Hcb'|]. by intros c [].
    - apply Forall_fmap, Forall_forall. by intros x _. }
  unfold exportPseudoBulk.
  rewrite (run_bind_Return _ _ w (Some cd, Some (cell_suffixes_of cd)) w [])
    by reflexivity.
  rewrite with_calls_nil. cbn [fst snd get_fragments].
  rewrite (run_bind (_ ≫= _) _ w).
  rewrite (run_bind_Return _ _ _ _ _ _
             (check_suffixes_run cd (cell_suffixes_of cd) (Dict.keys d) None w)).
  rewrite Hlast. cbn [from_option].
  rewrite load_fragments_run, Hget, Hread, Hnamed.
  fold errors.
  destruct (decide (1 < length d)%nat) as [Hn|Hn];
    unfold with_calls; cbn [outcome world calls];
    by rewrite ?(right_id_L [] (++)), <- ?(assoc_L (++)).
Qed.
End export_barcodes.

(** ** Further runs on the small file system *)

(** The file system of [Toy.externals], on which the bed file of the T cells
    cannot be written. *)
Definition no_bed_for_T_cell : Externals Toy.fs :=
  let E := Toy.externals Toy.sh_true in
  {| pr_read_bed := pr_read_bed E;
     pd_read_csv := pd_read_csv E;
     os_path_exists := os_path_exists E;
     os_makedirs := os_makedirs E;
     pr_to_bigwig := pr_to_bigwig E;
     pr_to_bed w path rows :=
       if decide (path = "bed/T_cell.bed.gz") then inl PermissionError
       else pr_to_bed E w path rows;
     shell := shell E;
     ray_get_waits := ray_get_waits E |}.

(** The run of [exportPseudoBulk] on it. *)
Definition toy_export_no_bed : Run Toy.fs (dict string * dict string) :=
  exportPseudoBulk no_bed_for_T_cell (InDataFrame Toy.cells) "celltype"
    Toy.sizes "bed/" "bw/" one_sample (Some 1) (Some true) (Some true) Toy.disk.

(** The run of [exportPseudoBulk] with [remove_duplicates=False]. *)
Definition toy_export_keep_duplicates : Run Toy.fs (dict string * dict string) :=
  exportPseudoBulk (Toy.externals Toy.sh_true) (InDataFrame Toy.cells) "celltype"
    Toy.sizes "bed/" "bw/" one_sample (Some 1) (Some true) (Some false) Toy.disk.

Lemma exportPseudoBulk_group_records_witness :
  outcome toy_export_no_bed = Raise (IOError PermissionError)
  ∧ world toy_export_no_bed
    = [("s1.fragments.tsv.gz", Toy.Fragments Toy.fragments);
       ("bed/", Toy.Directory); ("bw/", Toy.Directory);
       ("bw/B_cell.bw",
        Toy.BigWig [Toy.frag "chr1" 150 300 "TTTG-s1"] (as_pyranges Toy.sizes)
          (Some true) None);
       ("bed/B_cell.bed.gz", Toy.Fragments [Toy.frag "chr1" 150 300 "TTTG-s1"]);
       ("bw/T_cell.bw",
        Toy.BigWig [Toy.frag "chr1" 100 180 "AAAC-s1"; Toy.frag "chr2" 40 95 "CCCA-s1"]
          (as_pyranges Toy.sizes) (Some true) None)]
  ∧ written no_bed_for_T_cell Toy.disk (calls toy_export_no_bed)
    = [ToBigwig "bw/B_cell.bw" [Toy.frag "chr1" 150 300 "TTTG-s1"]
         (as_pyranges Toy.sizes) (Some true) None;
       ToBed "bed/B_cell.bed.gz" [Toy.frag "chr1" 150 300 "TTTG-s1"];
       ToBigwig "bw/T_cell.bw"
         [Toy.frag "chr1" 100 180 "AAAC-s1"; Toy.frag "chr2" 40 95 "CCCA-s1"]
         (as_pyranges Toy.sizes) (Some true) None].
Proof.
  pose proof (exportPseudoBulk_group_records no_bed_for_T_cell
                (InDataFrame Toy.cells) "celltype" Toy.sizes "bed/" "bw/"
                one_sample (Some 1) (Some true) (Some true) Toy.disk) as H.
  cbn zeta in H. destruct H as (Hworld & _ & _).
  split; [vm_compute; reflexivity|]. split.
  - etrans; [exact Hworld|]. vm_compute. reflexivity.
  - vm_compute. reflexivity.
Defined.

Lemma exportPseudoBulk_no_pair_without_remove_duplicates_witness :
  outcome toy_export_keep_duplicates
  = Raise (TypeError "got multiple values for argument path")
  ∧ world toy_export_keep_duplicates
    = [("s1.fragments.tsv.gz", Toy.Fragments Toy.fragments);
       ("bed/", Toy.Directory); ("bw/", Toy.Directory)]
  ∧ bed_files (calls toy_export_keep_duplicates) = []
  ∧ bigwig_files (calls toy_export_keep_duplicates) = [].
Proof.
  destruct (exportPseudoBulk_no_pair_without_remove_duplicates
              (Toy.externals Toy.sh_true) Toy.cells "celltype" Toy.sizes "bed/"
              "bw/" "s1" "s1.fragments.tsv.gz" (Some 1) (Some true) (Some false)
              Toy.disk (Toy.frag "chr1" 100 180 "AAAC-1")
              [Toy.frag "chr1" 150 300 "TTTG-1"; Toy.frag "chr2" 10 90 "GGGG-1";
               Toy.frag "chr2" 40 95 "CCCA-1"]
              (zip (df_index Toy.cells) ["T_cell"; "B_cell"; "T_cell"]) "T_cell"
              (Dict.set Toy.disk "bed/" Toy.Directory)
              (Dict.set (Dict.set Toy.disk "bed/" Toy.Directory) "bw/"
                 Toy.Directory))
    as (Ho & Hw & _ & Hbed & Hbw).
  - discriminate.
  - reflexivity.
  - reflexivity.
  - apply (bool_decide_unpack _). vm_compute. exact I.
  - right. split; reflexivity.
  - right. split; reflexivity.
  - split; [exact Ho|]. split; [exact Hw|]. split; [exact Hbed|exact Hbw].
Defined.

Lemma exportPseudoBulk_files_of_returning_run_witness :
  bed_files (written (Toy.externals Toy.sh_true) Toy.disk (calls toy_export))
  = ["bed/B_cell.bed.gz"; "bed/T_cell.bed.gz"]
  ∧ bigwig_files (written (Toy.externals Toy.sh_true) Toy.disk (calls toy_export))
    = ["bw/B_cell.bw"; "bw/T_cell.bw"].
Proof.
  destruct (exportPseudoBulk_files_of_returning_run (Toy.externals Toy.sh_true)
              (InDataFrame Toy.cells) "celltype" Toy.sizes "bed/" "bw/" one_sample
              (Some 1) (Some true) (Some true) Toy.disk toy_paths)
    as (cd & group_var & Hcd & Hgv & _ & _ & Hbed & Hbw & _).
  - vm_compute. reflexivity.
  - injection Hcd as <-. vm_compute in Hgv. injection Hgv as <-.
    split; [exact Hbed|exact Hbw].
Defined.

Lemma exportPseudoBulk_corrects_barcodes_witness :
  ∃ logs,
    reads logs = ["s1.fragments.tsv.gz"]
    ∧ toy_export
      = with_calls logs
          (export_groups (Toy.externals Toy.sh_true) (Some Toy.cells)
             (Some (Name_isin (df_index Toy.cells)
                      [Toy.frag "chr1" 100 180 "AAAC-s1";
                       Toy.frag "chr1" 150 300 "TTTG-s1";
                       Toy.frag "chr2" 10 90 "GGGG-s1";
                       Toy.frag "chr2" 40 95 "CCCA-s1"]))
             "celltype" Toy.sizes "bed/" "bw/" (Some 1) (Some true) (Some true)
             Toy.disk).
Proof.
  destruct (exportPseudoBulk_corrects_barcodes (Toy.externals Toy.sh_true)
              Toy.cells "celltype" Toy.sizes "bed/" "bw/"
              [("s1", "s1.fragments.tsv.gz")] "s1" "s1.fragments.tsv.gz" (Some 1)
              (Some true) (Some true) Toy.disk (Toy.frag "chr1" 100 180 "AAAC-1")
              [Toy.frag "chr1" 150 300 "TTTG-1"; Toy.frag "chr2" 10 90 "GGGG-1";
               Toy.frag "chr2" 40 95 "CCCA-1"] eq_refl eq_refl eq_refl)
    as (named & logs & Hnames & _ & Hreads & Hrun).
  exists logs. split; [exact Hreads|].
  rewrite decide_True in Hnames
    by (apply (bool_decide_unpack _); vm_compute; exact I).
  apply Forall2_cons_inv_l in Hnames as (y1 & l1 & (p1 & Hp1 & ->) & Hnames & ->).
  apply Forall2_cons_inv_l in Hnames as (y2 & l2 & (p2 & Hp2 & ->) & Hnames & ->).
  apply Forall2_cons_inv_l in Hnames as (y3 & l3 & (p3 & Hp3 & ->) & Hnames & ->).
  apply Forall2_cons_inv_l in Hnames as (y4 & l4 & (p4 & Hp4 & ->) & Hnames & ->).
  apply Forall2_nil_inv_l in Hnames as ->.
  rewrite (is_rstrip_unique _ _ _ _ Hp1 (rstrip_is_rstrip _ _)),
    (is_rstrip_unique _ _ _ _ Hp2 (rstrip_is_rstrip _ _)),
    (is_rstrip_unique _ _ _ _ Hp3 (rstrip_is_rstrip _ _)),
    (is_rstrip_unique _ _ _ _ Hp4 (rstrip_is_rstrip _ _)) in Hrun.
  exact Hrun.
Defined.
